(** * Pending-edit buffer of the workout history page

    A shallow embedding of [src/react-app/pages/HistorySummary.tsx]: the
    pending-change ledger ([PendingChanges]), the display projections
    ([getDisplaySets], [getDisplayExercises]), the restoration after a
    navigation round trip ([fetchWorkoutSummaryWithPendingPreservation]) and
    the save of all pending changes ([handleSaveAllChanges]).

    Conventions of the embedding.
    - A JavaScript number that holds an identifier is a [number]: an integer
      or [NaN] (which [parseInt] can produce).  Sequence numbers, counters and
      repetitions are integers ([Z]); weights and distances are only copied
      by the modelled code and are kept as rationals ([Q]).
    - A JavaScript [Map] is an insertion-ordered association list ([jsmap])
      with the [Map] operations [get], [has], [set], [delete]; iteration
      order is list order.
    - React state is an explicit [State] record; every handler is a function
      from [State] to [State].  Browser dialogs ([alert], [confirm]),
      navigation, [sessionStorage], timers and the remote store are explicit
      components of the state or explicit arguments. *)

From Stdlib Require Import ZArith QArith List Bool Ascii String Lia.
From Stdlib Require Import DecimalString.
From Stdlib Require HexadecimalString DecimalPos DecimalZ.
From Stdlib Require Import Sorted Permutation.
Import ListNotations.

Local Open Scope string_scope.
Local Open Scope list_scope.
Local Open Scope Z_scope.

(* ================================================================== *)
(** * Part I: definitions *)
(* ================================================================== *)

(** ** JavaScript values used by the page *)

Module JS.

(** Identifier-valued JavaScript numbers. *)
Inductive number : Type :=
| NaN
| Int (z : Z).

(** Decidable equality of keys; on [number] it is the [SameValueZero]
    comparison of [Map] and [Set] (where [NaN] equals [NaN]). *)
Class EqKey (K : Type) := eq_key : forall a b : K, {a = b} + {a <> b}.

#[export] Instance number_EqKey : EqKey number.
Proof. unfold EqKey. decide equality. apply Z.eq_dec. Defined.

#[export] Instance string_EqKey : EqKey string := string_dec.

(** [a === b] on numbers: [NaN] is different from everything. *)
Definition strict_eq (a b : number) : bool :=
  match a, b with
  | Int x, Int y => x =? y
  | _, _ => false
  end.

(** [a < 0]. *)
Definition lt0 (a : number) : bool :=
  match a with
  | Int x => x <? 0
  | NaN => false
  end.

(** Unary minus. *)
Definition neg (a : number) : number :=
  match a with
  | Int x => Int (- x)
  | NaN => NaN
  end.

(** [Math.abs]. *)
Definition abs (a : number) : number :=
  match a with
  | Int x => Int (Z.abs x)
  | NaN => NaN
  end.

(** Truthiness of a number: [0] and [NaN] are falsy. *)
Definition truthy (a : number) : bool :=
  match a with
  | Int x => negb (x =? 0)
  | NaN => false
  end.

(** Decimal rendering of an integer, as [Number.prototype.toString] gives
    it for integers (below the exponent-notation range). *)
Definition showZ (z : Z) : string := NilZero.string_of_int (Z.to_int z).

(** [String(n)], [n.toString()] and [`${n}`]. *)
Definition toString (a : number) : string :=
  match a with
  | Int x => showZ x
  | NaN => "NaN"
  end.

Definition is_ws (c : ascii) : bool :=
  match nat_of_ascii c with
  | 9%nat | 10%nat | 11%nat | 12%nat | 13%nat | 32%nat => true
  | _ => false
  end.

Definition is_digit (c : ascii) : bool :=
  let n := nat_of_ascii c in (48 <=? n)%nat && (n <=? 57)%nat.

Definition is_hex_digit (c : ascii) : bool :=
  let n := nat_of_ascii c in
  is_digit c || ((65 <=? n)%nat && (n <=? 70)%nat) || ((97 <=? n)%nat && (n <=? 102)%nat).

Fixpoint trim_start (s : string) : string :=
  match s with
  | String c s' => if is_ws c then trim_start s' else s
  | EmptyString => s
  end.

Fixpoint take_while (p : ascii -> bool) (s : string) : string :=
  match s with
  | String c s' => if p c then String c (take_while p s') else EmptyString
  | EmptyString => EmptyString
  end.

Definition parse_sign (s : string) : bool * string :=
  match s with
  | String "-"%char r => (true, r)
  | String "+"%char r => (false, r)
  | _ => (false, s)
  end.

Definition parse_decimal (s : string) : option Z :=
  match take_while is_digit s with
  | EmptyString => None
  | ds => option_map Z.of_uint (NilEmpty.uint_of_string ds)
  end.

Definition lower_hex (c : ascii) : ascii :=
  let n := nat_of_ascii c in
  if (65 <=? n)%nat && (n <=? 70)%nat then ascii_of_nat (n + 32) else c.

Fixpoint map_chars (f : ascii -> ascii) (s : string) : string :=
  match s with
  | String c s' => String (f c) (map_chars f s')
  | EmptyString => EmptyString
  end.

Definition parse_hex (s : string) : option Z :=
  match take_while is_hex_digit s with
  | EmptyString => None
  | ds => option_map Z.of_hex_uint
            (HexadecimalString.NilEmpty.uint_of_string (map_chars lower_hex ds))
  end.

Definition parse_magnitude (s : string) : option Z :=
  match s with
  | String "0"%char (String x r) =>
      if (Ascii.eqb x "x" || Ascii.eqb x "X")%bool then parse_hex r else parse_decimal s
  | _ => parse_decimal s
  end.

(** [parseInt(s)] without a radix: leading white space, an optional sign, an
    optional [0x] prefix, then the longest run of digits; [NaN] when there
    is no digit. *)
Definition parseInt (s : string) : number :=
  let (negative, r) := parse_sign (trim_start s) in
  match parse_magnitude r with
  | Some m => Int (if negative then - m else m)
  | None => NaN
  end.

(** [s.split(sep)] for a one-character separator. *)
Fixpoint split (sep : ascii) (s : string) : list string :=
  match s with
  | EmptyString => [EmptyString]
  | String c s' =>
      if Ascii.eqb c sep then EmptyString :: split sep s'
      else match split sep s' with
           | p :: ps => String c p :: ps
           | [] => [String c EmptyString]
           end
  end.

(** [parseInt(parts[i])]; a missing part is [undefined], which parses to
    [NaN]. *)
Definition parseInt_part (parts : list string) (i : nat) : number :=
  match nth_error parts i with
  | Some p => parseInt p
  | None => NaN
  end.

(** [s.startsWith(p)]. *)
Definition startsWith (s p : string) : bool := String.prefix p s.

(** *** Insertion-ordered maps *)

Section JsMap.
Context {K V : Type} `{EqKey K}.

Definition jsmap : Type := list (K * V).

Fixpoint get (k : K) (m : list (K * V)) : option V :=
    match m with
    | [] => None
    | (k', v) :: m' => if eq_key k k' then Some v else get k m'
    end.

Definition has (k : K) (m : list (K * V)) : bool :=
    match get k m with Some _ => true | None => false end.

  (** [m.set(k, v)]: an existing key keeps its position, a new key goes
      last. *)
Fixpoint set (k : K) (v : V) (m : list (K * V)) : list (K * V) :=
    match m with
    | [] => [(k, v)]
    | (k', v') :: m' =>
        if eq_key k k' then (k, v) :: m' else (k', v') :: set k v m'
    end.

  (** [m.delete(k)]. *)
Fixpoint delete (k : K) (m : list (K * V)) : list (K * V) :=
    match m with
    | [] => []
    | (k', v') :: m' =>
        if eq_key k k' then delete k m' else (k', v') :: delete k m'
    end.

  (** [new Map(entries)]: later entries win, first occurrence fixes the
      position. *)
Definition of_entries (es : list (K * V)) : list (K * V) :=
    fold_left (fun m kv => set (fst kv) (snd kv) m) es [].

Definition keys (m : list (K * V)) : list K := map fst m.
Definition values (m : list (K * V)) : list V := map snd m.
Definition size (m : list (K * V)) : nat := List.length m.
End JsMap.

Arguments jsmap : clear implicits.

End JS.

Import JS.

(** ** Data model (the interfaces at the top of the page) *)

(** [interface WorkoutSet]. *)
Module WorkoutSet.
Record t : Type := make {
    id : number;
    workout_exercise_id : number;
    set_number : Z;
    weight_lbs : option Q;
    reps : option Z;
    duration_seconds : option Z;
    distance_miles : option Q;
    notes : option string;
    completed_at : option string  (* [None] is [null] *)
  }.
End WorkoutSet.

(** [Partial<WorkoutSet>]: every key may be absent ([None]).  A key of an
    optional field may also be present with the value [undefined]
    ([Some None]), which is what [handleUpdateSet] writes for an empty
    form field. *)
Module SetPatch.
Record t : Type := make {
    id : option number;
    workout_exercise_id : option number;
    set_number : option Z;
    weight_lbs : option (option Q);
    reps : option (option Z);
    duration_seconds : option (option Z);
    distance_miles : option (option Q);
    notes : option (option string);
    completed_at : option (option string)
  }.

Definition pick {A : Type} (old : A) (new : option A) : A :=
    match new with Some v => v | None => old end.

  (** The object spread [{ ...set, ...setData }]. *)
Definition spread (s : WorkoutSet.t) (p : t) : WorkoutSet.t :=
    {| WorkoutSet.id := pick (WorkoutSet.id s) (id p);
       WorkoutSet.workout_exercise_id :=
         pick (WorkoutSet.workout_exercise_id s) (workout_exercise_id p);
       WorkoutSet.set_number := pick (WorkoutSet.set_number s) (set_number p);
       WorkoutSet.weight_lbs := pick (WorkoutSet.weight_lbs s) (weight_lbs p);
       WorkoutSet.reps := pick (WorkoutSet.reps s) (reps p);
       WorkoutSet.duration_seconds :=
         pick (WorkoutSet.duration_seconds s) (duration_seconds p);
       WorkoutSet.distance_miles :=
         pick (WorkoutSet.distance_miles s) (distance_miles p);
       WorkoutSet.notes := pick (WorkoutSet.notes s) (notes p);
       WorkoutSet.completed_at := pick (WorkoutSet.completed_at s) (completed_at p) |}.
End SetPatch.

(** [Omit<WorkoutSet, 'id'>], the value type of [PendingChanges.newSets]. *)
Module NewSet.
Record t : Type := make {
    workout_exercise_id : number;
    set_number : Z;
    weight_lbs : option Q;
    reps : option Z;
    duration_seconds : option Z;
    distance_miles : option Q;
    notes : option string;
    completed_at : option string
  }.

  (** The object literal [{ ...setData, id: i }]. *)
Definition with_id (d : t) (i : number) : WorkoutSet.t :=
    {| WorkoutSet.id := i;
       WorkoutSet.workout_exercise_id := workout_exercise_id d;
       WorkoutSet.set_number := set_number d;
       WorkoutSet.weight_lbs := weight_lbs d;
       WorkoutSet.reps := reps d;
       WorkoutSet.duration_seconds := duration_seconds d;
       WorkoutSet.distance_miles := distance_miles d;
       WorkoutSet.notes := notes d;
       WorkoutSet.completed_at := completed_at d |}.
End NewSet.

(** [interface WorkoutExercise].  The record is generic in what stands for
    the [sets] array: the list of its elements ([t], used by the handlers) or
    the address of the array in the store ([ref], used where in-place array
    operations and sharing matter). *)
Module WorkoutExercise.
Record gen (S : Type) : Type := make {
  id : number;
  workout_id : number;
  exercise_id : number;
  order_index : Z;
  name : string;
  category : string;
  muscle_group : string;
  equipment : string;
  video_url : option string;
  sets : S
}.
Arguments make {S}.
Arguments id {S}.
Arguments workout_id {S}.
Arguments exercise_id {S}.
Arguments order_index {S}.
Arguments name {S}.
Arguments category {S}.
Arguments muscle_group {S}.
Arguments equipment {S}.
Arguments video_url {S}.
Arguments sets {S}.

Abbreviation t := (gen (list WorkoutSet.t)).
Abbreviation ref := (gen nat).

(** [{ ...exercise, sets: l }]. *)
Definition with_sets {S S' : Type} (e : gen S) (l : S') : gen S' :=
  {| id := id e; workout_id := workout_id e; exercise_id := exercise_id e;
     order_index := order_index e; name := name e; category := category e;
     muscle_group := muscle_group e; equipment := equipment e;
     video_url := video_url e; sets := l |}.

(** [{ ...exercise, name: n, exercise_id: x }]. *)
Definition with_name_and_exercise_id {S : Type} (e : gen S) (n : string) (x : number)
    : gen S :=
  {| id := id e; workout_id := workout_id e; exercise_id := x;
     order_index := order_index e; name := n; category := category e;
     muscle_group := muscle_group e; equipment := equipment e;
     video_url := video_url e; sets := sets e |}.
End WorkoutExercise.

(** [interface WorkoutSummary].  [notes] merges [null] and [undefined],
    which the page never tells apart. *)
Module WorkoutSummary.
Record t : Type := make {
    id : number;
    name : option string;
    notes : option string;
    started_at : string;
    completed_at : string;
    duration_minutes : Z;
    intensity_level : option Z;
    exercises : list WorkoutExercise.t
  }.

Definition with_exercises (w : t) (l : list WorkoutExercise.t) : t :=
    {| id := id w; name := name w; notes := notes w; started_at := started_at w;
       completed_at := completed_at w; duration_minutes := duration_minutes w;
       intensity_level := intensity_level w; exercises := l |}.
End WorkoutSummary.

(** [Partial<WorkoutSummary>] restricted to the keys the page writes. *)
Module WorkoutPatch.
Record t : Type := make {
    name : option string;
    notes : option (option string);
    started_at : option string;
    completed_at : option string;
    duration_minutes : option Z;
    intensity_level : option Z
  }.

Definition empty : t := make None None None None None None.

Definition count {A : Type} (o : option A) : nat :=
    match o with Some _ => 1 | None => 0 end.

  (** [Object.keys(p).length]. *)
Definition key_count (p : t) : nat :=
    (count (name p) + count (notes p) + count (started_at p)
     + count (completed_at p) + count (duration_minutes p)
     + count (intensity_level p))%nat.

Definition or_else {A : Type} (new old : option A) : option A :=
    match new with Some v => Some v | None => old end.

  (** [{ ...p, ...q }]: the keys of [q] win. *)
Definition merge (p q : t) : t :=
    {| name := or_else (name q) (name p);
       notes := or_else (notes q) (notes p);
       started_at := or_else (started_at q) (started_at p);
       completed_at := or_else (completed_at q) (completed_at p);
       duration_minutes := or_else (duration_minutes q) (duration_minutes p);
       intensity_level := or_else (intensity_level q) (intensity_level p) |}.

  (** [{ ...workout, ...p }]. *)
Definition apply (w : WorkoutSummary.t) (p : t) : WorkoutSummary.t :=
    {| WorkoutSummary.id := WorkoutSummary.id w;
       WorkoutSummary.name := or_else (name p) (WorkoutSummary.name w);
       WorkoutSummary.notes := SetPatch.pick (WorkoutSummary.notes w) (notes p);
       WorkoutSummary.started_at :=
         SetPatch.pick (WorkoutSummary.started_at w) (started_at p);
       WorkoutSummary.completed_at :=
         SetPatch.pick (WorkoutSummary.completed_at w) (completed_at p);
       WorkoutSummary.duration_minutes :=
         SetPatch.pick (WorkoutSummary.duration_minutes w) (duration_minutes p);
       WorkoutSummary.intensity_level :=
         or_else (intensity_level p) (WorkoutSummary.intensity_level w);
       WorkoutSummary.exercises := WorkoutSummary.exercises w |}.
End WorkoutPatch.

(** [interface PendingSetChange]. *)
Module PendingSetChange.
Inductive kind : Type := edit | delete | add.

Record t : Type := make {
    id : number;
    type : kind;
    setData : option SetPatch.t;
    originalSet : option WorkoutSet.t
  }.

Definition is_edit (c : t) : bool :=
    match type c with edit => true | _ => false end.
Definition is_delete (c : t) : bool :=
    match type c with delete => true | _ => false end.
End PendingSetChange.

(** [interface PendingExerciseChange]. *)
Module PendingExerciseChange.
Inductive kind : Type := delete | replace.

Record t : Type := make {
    id : number;
    type : kind;
    newExerciseId : option number;
    newExerciseName : option string
  }.

Definition is_replace (c : t) : bool :=
    match type c with replace => true | _ => false end.
Definition is_delete (c : t) : bool :=
    match type c with delete => true | _ => false end.
End PendingExerciseChange.

(** [interface PendingNewExercise]. *)
Module PendingNewExercise.
Record t : Type := make {
    exerciseId : number;
    name : string;
    category : string;
    muscle_group : string;
    equipment : string;
    video_url : option string;
    tempId : string
  }.
End PendingNewExercise.

(** [interface PendingChanges]: the ledger. *)
Module PendingChanges.
Record t : Type := make {
    workout : option WorkoutPatch.t;
    sets : jsmap number PendingSetChange.t;
    exercises : jsmap number PendingExerciseChange.t;
    newSets : jsmap string NewSet.t;       (* key is exerciseId-tempId *)
    newExercises : jsmap string PendingNewExercise.t   (* key is tempId *)
  }.

  (** The initial and the cleared ledger. *)
Definition empty : t := make None [] [] [] [].

Definition with_workout (p : t) (w : option WorkoutPatch.t) : t :=
    make w (sets p) (exercises p) (newSets p) (newExercises p).
Definition with_sets (p : t) (m : jsmap number PendingSetChange.t) : t :=
    make (workout p) m (exercises p) (newSets p) (newExercises p).
Definition with_exercises (p : t) (m : jsmap number PendingExerciseChange.t) : t :=
    make (workout p) (sets p) m (newSets p) (newExercises p).
Definition with_newSets (p : t) (m : jsmap string NewSet.t) : t :=
    make (workout p) (sets p) (exercises p) m (newExercises p).
Definition with_newExercises (p : t) (m : jsmap string PendingNewExercise.t) : t :=
    make (workout p) (sets p) (exercises p) (newSets p) m.
End PendingChanges.

(** The exercise definition served by [GET /api/exercises/:id]. *)
Module Exercise.
Record t : Type := make {
  id : number;
  name : string;
  category : string;
  muscle_group : string;
  equipment : string;
  video_url : option string
}.
End Exercise.

(** ** The browser and the remote store *)

(** The requests the page sends.
    - [GetWorkout id t]: [GET /api/workouts/${id}] ([?_t=${t}] when given);
    - [GetExercise e]: [GET /api/exercises/${e}];
    - [PatchWorkout w body]: [PATCH /api/workouts/${w}];
    - [PutSet s body]: [PUT /api/workouts/sets/${s}];
    - [DeleteSet s]: [DELETE /api/workouts/sets/${s}];
    - [PostSet e body]: [POST /api/workouts/exercises/${e}/sets];
    - [PostExercise w x o]: [POST /api/workouts/${w}/exercises] with body
      [{exercise_id: x, order_index: o}];
    - [DeleteExercise e]: [DELETE /api/workouts/exercises/${e}];
    - [PutReplaceExercise e x]: [PUT /api/workouts/exercises/${e}/replace]
      with body [{new_exercise_id: x}]. *)
Inductive Request : Type :=
| GetWorkout (id : string) (cacheBust : option Z)
| GetExercise (exerciseId : number)
| PatchWorkout (workoutId : number) (body : WorkoutPatch.t)
| PutSet (setId : number) (body : option SetPatch.t)
| DeleteSet (setId : number)
| PostSet (exerciseId : number) (body : NewSet.t)
| PostExercise (workoutId : number) (exercise_id : number) (order_index : Z)
| DeleteExercise (exerciseId : number)
| PutReplaceExercise (exerciseId : number) (new_exercise_id : number).

(** What [response.json()] yields. *)
Inductive Body : Type :=
| NoBody
| WorkoutBody (w : WorkoutSummary.t)
| ExerciseBody (e : Exercise.t).

(** A thrown value: an [Error] with its message, or anything else. *)
Inductive Thrown : Type :=
| ErrorObj (message : string)
| NonError.

(** What [await fetch(...)] does: it resolves to a response with its [ok]
    flag and body, or it rejects. *)
Inductive FetchOutcome : Type :=
| Response (ok : bool) (body : Body)
| Rejected (e : Thrown).

(** The remote store: its answer to a request may depend on every request
    sent before. *)
Definition Remote : Type := list Request -> Request -> FetchOutcome.

(** The durable hand-off blob, as [JSON.parse] returns it.  Its
    [tempValues] are only logged by the page and are left out. *)
Module Blob.
Record ledger : Type := make_ledger {
  workout : option WorkoutPatch.t;
  sets : list (number * PendingSetChange.t);
  exercises : list (number * PendingExerciseChange.t);
  newSets : list (string * NewSet.t);
  newExercises : list (string * PendingNewExercise.t)
}.

Record t : Type := make {
  timestamp : Z;
  workoutId : string;
  pendingChanges : option ledger;
  tempSetIdCounter : option Z
}.
End Blob.

(** A [sessionStorage] item, read through [JSON.parse]. *)
Inductive StoredItem : Type :=
| EmptyText            (* the empty string, which is falsy *)
| Unparsable
| Parsed (b : Blob.t).

Inductive TimerAction : Type :=
| RemoveItem (key : string).

(** A callback registered with [setTimeout(action, delay)]. *)
Record Timer : Type := mkTimer {
  delay : Z;
  action : TimerAction
}.

Module Browser.
Record t : Type := make {
  alerts : list string;
  navigations : list string;
  sessionStorage : jsmap string StoredItem;
  timers : list Timer;
  requests : list Request
}.

Definition alert (msg : string) (b : t) : t :=
  make (alerts b ++ [msg]) (navigations b) (sessionStorage b) (timers b) (requests b).
Definition navigate (path : string) (b : t) : t :=
  make (alerts b) (navigations b ++ [path]) (sessionStorage b) (timers b) (requests b).
Definition setTimeout (a : TimerAction) (d : Z) (b : t) : t :=
  make (alerts b) (navigations b) (sessionStorage b) (timers b ++ [mkTimer d a]) (requests b).
Definition with_requests (b : t) (r : list Request) : t :=
  make (alerts b) (navigations b) (sessionStorage b) (timers b) r.
Definition with_sessionStorage (b : t) (s : jsmap string StoredItem) : t :=
  make (alerts b) (navigations b) s (timers b) (requests b).
Definition with_timers (b : t) (l : list Timer) : t :=
  make (alerts b) (navigations b) (sessionStorage b) l (requests b).

(** [sessionStorage.removeItem(key)]. *)
Definition removeItem (key : string) (b : t) : t :=
  with_sessionStorage b (JS.delete key (sessionStorage b)).

(** [await fetch(r)] against the remote store: the request is logged and
    the store's answer returned. *)
Definition fetch (remote : Remote) (r : Request) (b : t) : FetchOutcome * t :=
  (remote (requests b) r, with_requests b (requests b ++ [r])).

(** A registered timer fires. *)
Definition fire (n : nat) (b : t) : t :=
  match nth_error (timers b) n with
  | Some (mkTimer _ (RemoveItem key)) =>
      removeItem key (with_timers b (firstn n (timers b) ++ skipn (S n) (timers b)))
  | None => b
  end.
End Browser.

(** ** Component state *)

Inductive SelectionMode : Type := mode_add | mode_replace.

(** The [useState] cells of [HistorySummary] that the modelled handlers
    read or write, the route parameter [id], and the browser.  Menu and
    header-dialog flags and the raw text of form fields are left out: the
    handlers take the parsed form values as arguments. *)
Record State : Type := mkState {
  routeId : string;
  originalWorkout : option WorkoutSummary.t;
  workout : option WorkoutSummary.t;
  loading : bool;
  tempWorkoutName : string;
  tempStartDateTime : string;
  tempEndDateTime : string;
  tempIntensity : Z;
  tempWorkoutNotes : string;
  isSaving : bool;
  editingSet : option WorkoutSet.t;
  showEditSetDialog : bool;
  showAddSetDialog : bool;
  addingSetToExercise : option number;
  showExerciseSelectionModal : bool;
  exerciseSelectionMode : SelectionMode;
  replacingExerciseId : option number;
  pendingChanges : PendingChanges.t;
  tempSetIdCounter : Z;
  isRestoring : bool;
  browser : Browser.t
}.

(** The [useState] setters. *)
Definition setOriginalWorkout (v : option WorkoutSummary.t) (st : State) : State :=
  mkState (routeId st) v (workout st) (loading st) (tempWorkoutName st)
    (tempStartDateTime st) (tempEndDateTime st) (tempIntensity st)
    (tempWorkoutNotes st) (isSaving st) (editingSet st) (showEditSetDialog
    st) (showAddSetDialog st) (addingSetToExercise st)
    (showExerciseSelectionModal st) (exerciseSelectionMode st)
    (replacingExerciseId st) (pendingChanges st) (tempSetIdCounter st)
    (isRestoring st) (browser st).
Definition setWorkout (v : option WorkoutSummary.t) (st : State) : State :=
  mkState (routeId st) (originalWorkout st) v (loading st) (tempWorkoutName
    st) (tempStartDateTime st) (tempEndDateTime st) (tempIntensity st)
    (tempWorkoutNotes st) (isSaving st) (editingSet st) (showEditSetDialog
    st) (showAddSetDialog st) (addingSetToExercise st)
    (showExerciseSelectionModal st) (exerciseSelectionMode st)
    (replacingExerciseId st) (pendingChanges st) (tempSetIdCounter st)
    (isRestoring st) (browser st).
Definition setLoading (v : bool) (st : State) : State :=
  mkState (routeId st) (originalWorkout st) (workout st) v (tempWorkoutName
    st) (tempStartDateTime st) (tempEndDateTime st) (tempIntensity st)
    (tempWorkoutNotes st) (isSaving st) (editingSet st) (showEditSetDialog
    st) (showAddSetDialog st) (addingSetToExercise st)
    (showExerciseSelectionModal st) (exerciseSelectionMode st)
    (replacingExerciseId st) (pendingChanges st) (tempSetIdCounter st)
    (isRestoring st) (browser st).
Definition setTempWorkoutName (v : string) (st : State) : State :=
  mkState (routeId st) (originalWorkout st) (workout st) (loading st) v
    (tempStartDateTime st) (tempEndDateTime st) (tempIntensity st)
    (tempWorkoutNotes st) (isSaving st) (editingSet st) (showEditSetDialog
    st) (showAddSetDialog st) (addingSetToExercise st)
    (showExerciseSelectionModal st) (exerciseSelectionMode st)
    (replacingExerciseId st) (pendingChanges st) (tempSetIdCounter st)
    (isRestoring st) (browser st).
Definition setTempStartDateTime (v : string) (st : State) : State :=
  mkState (routeId st) (originalWorkout st) (workout st) (loading st)
    (tempWorkoutName st) v (tempEndDateTime st) (tempIntensity st)
    (tempWorkoutNotes st) (isSaving st) (editingSet st) (showEditSetDialog
    st) (showAddSetDialog st) (addingSetToExercise st)
    (showExerciseSelectionModal st) (exerciseSelectionMode st)
    (replacingExerciseId st) (pendingChanges st) (tempSetIdCounter st)
    (isRestoring st) (browser st).
Definition setTempEndDateTime (v : string) (st : State) : State :=
  mkState (routeId st) (originalWorkout st) (workout st) (loading st)
    (tempWorkoutName st) (tempStartDateTime st) v (tempIntensity st)
    (tempWorkoutNotes st) (isSaving st) (editingSet st) (showEditSetDialog
    st) (showAddSetDialog st) (addingSetToExercise st)
    (showExerciseSelectionModal st) (exerciseSelectionMode st)
    (replacingExerciseId st) (pendingChanges st) (tempSetIdCounter st)
    (isRestoring st) (browser st).
Definition setTempIntensity (v : Z) (st : State) : State :=
  mkState (routeId st) (originalWorkout st) (workout st) (loading st)
    (tempWorkoutName st) (tempStartDateTime st) (tempEndDateTime st) v
    (tempWorkoutNotes st) (isSaving st) (editingSet st) (showEditSetDialog
    st) (showAddSetDialog st) (addingSetToExercise st)
    (showExerciseSelectionModal st) (exerciseSelectionMode st)
    (replacingExerciseId st) (pendingChanges st) (tempSetIdCounter st)
    (isRestoring st) (browser st).
Definition setTempWorkoutNotes (v : string) (st : State) : State :=
  mkState (routeId st) (originalWorkout st) (workout st) (loading st)
    (tempWorkoutName st) (tempStartDateTime st) (tempEndDateTime st)
    (tempIntensity st) v (isSaving st) (editingSet st) (showEditSetDialog
    st) (showAddSetDialog st) (addingSetToExercise st)
    (showExerciseSelectionModal st) (exerciseSelectionMode st)
    (replacingExerciseId st) (pendingChanges st) (tempSetIdCounter st)
    (isRestoring st) (browser st).
Definition setIsSaving (v : bool) (st : State) : State :=
  mkState (routeId st) (originalWorkout st) (workout st) (loading st)
    (tempWorkoutName st) (tempStartDateTime st) (tempEndDateTime st)
    (tempIntensity st) (tempWorkoutNotes st) v (editingSet st)
    (showEditSetDialog st) (showAddSetDialog st) (addingSetToExercise st)
    (showExerciseSelectionModal st) (exerciseSelectionMode st)
    (replacingExerciseId st) (pendingChanges st) (tempSetIdCounter st)
    (isRestoring st) (browser st).
Definition setEditingSet (v : option WorkoutSet.t) (st : State) : State :=
  mkState (routeId st) (originalWorkout st) (workout st) (loading st)
    (tempWorkoutName st) (tempStartDateTime st) (tempEndDateTime st)
    (tempIntensity st) (tempWorkoutNotes st) (isSaving st) v
    (showEditSetDialog st) (showAddSetDialog st) (addingSetToExercise st)
    (showExerciseSelectionModal st) (exerciseSelectionMode st)
    (replacingExerciseId st) (pendingChanges st) (tempSetIdCounter st)
    (isRestoring st) (browser st).
Definition setShowEditSetDialog (v : bool) (st : State) : State :=
  mkState (routeId st) (originalWorkout st) (workout st) (loading st)
    (tempWorkoutName st) (tempStartDateTime st) (tempEndDateTime st)
    (tempIntensity st) (tempWorkoutNotes st) (isSaving st) (editingSet st) v
    (showAddSetDialog st) (addingSetToExercise st)
    (showExerciseSelectionModal st) (exerciseSelectionMode st)
    (replacingExerciseId st) (pendingChanges st) (tempSetIdCounter st)
    (isRestoring st) (browser st).
Definition setShowAddSetDialog (v : bool) (st : State) : State :=
  mkState (routeId st) (originalWorkout st) (workout st) (loading st)
    (tempWorkoutName st) (tempStartDateTime st) (tempEndDateTime st)
    (tempIntensity st) (tempWorkoutNotes st) (isSaving st) (editingSet st)
    (showEditSetDialog st) v (addingSetToExercise st)
    (showExerciseSelectionModal st) (exerciseSelectionMode st)
    (replacingExerciseId st) (pendingChanges st) (tempSetIdCounter st)
    (isRestoring st) (browser st).
Definition setAddingSetToExercise (v : option number) (st : State) : State :=
  mkState (routeId st) (originalWorkout st) (workout st) (loading st)
    (tempWorkoutName st) (tempStartDateTime st) (tempEndDateTime st)
    (tempIntensity st) (tempWorkoutNotes st) (isSaving st) (editingSet st)
    (showEditSetDialog st) (showAddSetDialog st) v
    (showExerciseSelectionModal st) (exerciseSelectionMode st)
    (replacingExerciseId st) (pendingChanges st) (tempSetIdCounter st)
    (isRestoring st) (browser st).
Definition setShowExerciseSelectionModal (v : bool) (st : State) : State :=
  mkState (routeId st) (originalWorkout st) (workout st) (loading st)
    (tempWorkoutName st) (tempStartDateTime st) (tempEndDateTime st)
    (tempIntensity st) (tempWorkoutNotes st) (isSaving st) (editingSet st)
    (showEditSetDialog st) (showAddSetDialog st) (addingSetToExercise st) v
    (exerciseSelectionMode st) (replacingExerciseId st) (pendingChanges st)
    (tempSetIdCounter st) (isRestoring st) (browser st).
Definition setExerciseSelectionMode (v : SelectionMode) (st : State) : State :=
  mkState (routeId st) (originalWorkout st) (workout st) (loading st)
    (tempWorkoutName st) (tempStartDateTime st) (tempEndDateTime st)
    (tempIntensity st) (tempWorkoutNotes st) (isSaving st) (editingSet st)
    (showEditSetDialog st) (showAddSetDialog st) (addingSetToExercise st)
    (showExerciseSelectionModal st) v (replacingExerciseId st)
    (pendingChanges st) (tempSetIdCounter st) (isRestoring st) (browser st).
Definition setReplacingExerciseId (v : option number) (st : State) : State :=
  mkState (routeId st) (originalWorkout st) (workout st) (loading st)
    (tempWorkoutName st) (tempStartDateTime st) (tempEndDateTime st)
    (tempIntensity st) (tempWorkoutNotes st) (isSaving st) (editingSet st)
    (showEditSetDialog st) (showAddSetDialog st) (addingSetToExercise st)
    (showExerciseSelectionModal st) (exerciseSelectionMode st) v
    (pendingChanges st) (tempSetIdCounter st) (isRestoring st) (browser st).
Definition setPendingChanges (v : PendingChanges.t) (st : State) : State :=
  mkState (routeId st) (originalWorkout st) (workout st) (loading st)
    (tempWorkoutName st) (tempStartDateTime st) (tempEndDateTime st)
    (tempIntensity st) (tempWorkoutNotes st) (isSaving st) (editingSet st)
    (showEditSetDialog st) (showAddSetDialog st) (addingSetToExercise st)
    (showExerciseSelectionModal st) (exerciseSelectionMode st)
    (replacingExerciseId st) v (tempSetIdCounter st) (isRestoring st)
    (browser st).
Definition setTempSetIdCounter (v : Z) (st : State) : State :=
  mkState (routeId st) (originalWorkout st) (workout st) (loading st)
    (tempWorkoutName st) (tempStartDateTime st) (tempEndDateTime st)
    (tempIntensity st) (tempWorkoutNotes st) (isSaving st) (editingSet st)
    (showEditSetDialog st) (showAddSetDialog st) (addingSetToExercise st)
    (showExerciseSelectionModal st) (exerciseSelectionMode st)
    (replacingExerciseId st) (pendingChanges st) v (isRestoring st)
    (browser st).
Definition setIsRestoring (v : bool) (st : State) : State :=
  mkState (routeId st) (originalWorkout st) (workout st) (loading st)
    (tempWorkoutName st) (tempStartDateTime st) (tempEndDateTime st)
    (tempIntensity st) (tempWorkoutNotes st) (isSaving st) (editingSet st)
    (showEditSetDialog st) (showAddSetDialog st) (addingSetToExercise st)
    (showExerciseSelectionModal st) (exerciseSelectionMode st)
    (replacingExerciseId st) (pendingChanges st) (tempSetIdCounter st) v
    (browser st).
Definition setBrowser (v : Browser.t) (st : State) : State :=
  mkState (routeId st) (originalWorkout st) (workout st) (loading st)
    (tempWorkoutName st) (tempStartDateTime st) (tempEndDateTime st)
    (tempIntensity st) (tempWorkoutNotes st) (isSaving st) (editingSet st)
    (showEditSetDialog st) (showAddSetDialog st) (addingSetToExercise st)
    (showExerciseSelectionModal st) (exerciseSelectionMode st)
    (replacingExerciseId st) (pendingChanges st) (tempSetIdCounter st)
    (isRestoring st) v.

(** [setPendingChanges(prev => f(prev))] and [setWorkout(prev => f(prev))]. *)
Definition updatePendingChanges (f : PendingChanges.t -> PendingChanges.t)
    (st : State) : State :=
  setPendingChanges (f (pendingChanges st)) st.

Definition updateWorkout (f : option WorkoutSummary.t -> option WorkoutSummary.t)
    (st : State) : State :=
  setWorkout (f (workout st)) st.

Definition alert (msg : string) (st : State) : State :=
  setBrowser (Browser.alert msg (browser st)) st.

Definition navigate (path : string) (st : State) : State :=
  setBrowser (Browser.navigate path (browser st)) st.

(** ** Projection: [getDisplaySets], [getDisplayExercises] *)

(** [sets.sort((a, b) => a.set_number - b.set_number)]: a stable sort by
    sequence number, written as an insertion sort. *)
Fixpoint insert_by_set_number (x : WorkoutSet.t) (l : list WorkoutSet.t)
    : list WorkoutSet.t :=
  match l with
  | [] => [x]
  | y :: l' =>
      if WorkoutSet.set_number x <=? WorkoutSet.set_number y
      then x :: l
      else y :: insert_by_set_number x l'
  end.

Definition sort_by_set_number (l : list WorkoutSet.t) : list WorkoutSet.t :=
  fold_right insert_by_set_number [] l.

(** The callback of the first [map] of [getDisplaySets]. *)
Definition apply_set_edit (pc : PendingChanges.t) (s : WorkoutSet.t) : WorkoutSet.t :=
  match JS.get (WorkoutSet.id s) (PendingChanges.sets pc) with
  | Some change =>
      match PendingSetChange.type change, PendingSetChange.setData change with
      | PendingSetChange.edit, Some data => SetPatch.spread s data
      | _, _ => s
      end
  | None => s
  end.

(** The callback of the [filter] of [getDisplaySets]:
    [pendingChange?.type !== 'delete']. *)
Definition not_set_deleted (pc : PendingChanges.t) (s : WorkoutSet.t) : bool :=
  match JS.get (WorkoutSet.id s) (PendingChanges.sets pc) with
  | Some change => negb (PendingSetChange.is_delete change)
  | None => true
  end.

(** [key.startsWith(`${exercise.id}-`)]. *)
Definition new_set_of (exerciseId : number) (entry : string * NewSet.t) : bool :=
  startsWith (fst entry) (toString exerciseId ++ "-")%string.

(** [{ ...setData, id: -parseInt(key.split('-')[1]) }]. *)
Definition new_set_display (entry : string * NewSet.t) : WorkoutSet.t :=
  NewSet.with_id (snd entry) (neg (parseInt_part (split "-" (fst entry)) 1)).

Definition newSetsForExercise (pc : PendingChanges.t) (exerciseId : number)
    : list WorkoutSet.t :=
  map new_set_display (filter (new_set_of exerciseId) (PendingChanges.newSets pc)).

(** [getDisplaySets(exercise)], read on values: the arrays are lists. The
    array store behind it is modelled by [getDisplaySetsM] below. *)
Definition getDisplaySets (pc : PendingChanges.t) (exercise : WorkoutExercise.t)
    : list WorkoutSet.t :=
  let sets := WorkoutExercise.sets exercise in
  let sets := filter (not_set_deleted pc) (map (apply_set_edit pc) sets) in
  sort_by_set_number (sets ++ newSetsForExercise pc (WorkoutExercise.id exercise)).

(** Truthiness of [string | undefined]. *)
Definition truthy_string (s : option string) : bool :=
  match s with
  | Some EmptyString | None => false
  | Some _ => true
  end.

(** [a || b] for [a : number | undefined]. *)
Definition number_or (a : option number) (b : number) : number :=
  match a with
  | Some x => if truthy x then x else b
  | None => b
  end.

Definition apply_exercise_replace {S : Type} (pc : PendingChanges.t)
    (e : WorkoutExercise.gen S) : WorkoutExercise.gen S :=
  match JS.get (WorkoutExercise.id e) (PendingChanges.exercises pc) with
  | Some change =>
      match PendingExerciseChange.type change,
            PendingExerciseChange.newExerciseName change with
      | PendingExerciseChange.replace, Some n =>
          if truthy_string (Some n)
          then WorkoutExercise.with_name_and_exercise_id e n
                 (number_or (PendingExerciseChange.newExerciseId change)
                            (WorkoutExercise.exercise_id e))
          else e
      | _, _ => e
      end
  | None => e
  end.

Definition not_exercise_deleted {S : Type} (pc : PendingChanges.t)
    (e : WorkoutExercise.gen S) : bool :=
  match JS.get (WorkoutExercise.id e) (PendingChanges.exercises pc) with
  | Some change => negb (PendingExerciseChange.is_delete change)
  | None => true
  end.

(** The callback [(newExercise, index) => ({...})] of [getDisplayExercises],
    with [base = existingExercises.length]; [empty] stands for its fresh
    [sets: []]. *)
Definition new_exercise_display {S : Type} (workoutId : number) (base : nat)
    (index : nat) (n : PendingNewExercise.t) (empty : S) : WorkoutExercise.gen S :=
  {| WorkoutExercise.id := neg (parseInt (PendingNewExercise.tempId n));
     WorkoutExercise.workout_id := workoutId;
     WorkoutExercise.exercise_id := PendingNewExercise.exerciseId n;
     WorkoutExercise.order_index := Z.of_nat (base + index);
     WorkoutExercise.name := PendingNewExercise.name n;
     WorkoutExercise.category := PendingNewExercise.category n;
     WorkoutExercise.muscle_group := PendingNewExercise.muscle_group n;
     WorkoutExercise.equipment := PendingNewExercise.equipment n;
     WorkoutExercise.video_url := PendingNewExercise.video_url n;
     WorkoutExercise.sets := empty |}.

(** [xs.map((x, index) => f(index, x))], indices starting at [i]. *)
Fixpoint mapi_from {A B : Type} (f : nat -> A -> B) (i : nat) (xs : list A) : list B :=
  match xs with
  | [] => []
  | x :: xs' => f i x :: mapi_from f (S i) xs'
  end.

(** [workout.exercises.map(...).filter(...)]. *)
Definition existingExercises {S : Type} (pc : PendingChanges.t)
    (exercises : list (WorkoutExercise.gen S)) : list (WorkoutExercise.gen S) :=
  filter (not_exercise_deleted pc) (map (apply_exercise_replace pc) exercises).

(** [getDisplayExercises()], read on values, as a function of the two state
    cells it reads. *)
Definition getDisplayExercisesOf (pc : PendingChanges.t) (workout : option WorkoutSummary.t)
    : list WorkoutExercise.t :=
  match workout with
  | None => []
  | Some w =>
      let existing := existingExercises pc (WorkoutSummary.exercises w) in
      let newExercises :=
        mapi_from (fun index n =>
                     new_exercise_display (WorkoutSummary.id w) (List.length existing)
                                          index n [])
                  0 (JS.values (PendingChanges.newExercises pc)) in
      existing ++ newExercises
  end.

Definition getDisplayExercises (st : State) : list WorkoutExercise.t :=
  getDisplayExercisesOf (pendingChanges st) (workout st).

(** *** The same two functions over an explicit store of arrays

    [push] and [sort] change an array in place, and an exercise object
    holds its [sets] array by reference, so a displayed exercise shares the
    array of the exercise it was made from.  Here the arrays of sets live in
    a store and the array methods are store operations; the two maps of the
    ledger are only read (with [get] and [entries]). *)
Module Store.
Definition loc : Type := nat.
Definition t : Type := list (list WorkoutSet.t).
Definition M (A : Type) : Type := t -> A * t.

Definition ret {A : Type} (a : A) : M A := fun h => (a, h).
Definition bind {A B : Type} (m : M A) (k : A -> M B) : M B :=
  fun h => let (a, h') := m h in k a h'.

Definition lookup (l : loc) (h : t) : list WorkoutSet.t := nth l h [].

Fixpoint update (l : loc) (xs : list WorkoutSet.t) (h : t) : t :=
  match h, l with
  | [], _ => []
  | _ :: h', O => xs :: h'
  | a :: h', S l' => a :: update l' xs h'
  end.

(** A new array. *)
Definition alloc (xs : list WorkoutSet.t) : M loc :=
  fun h => (List.length h, h ++ [xs]).
Definition read (l : loc) : M (list WorkoutSet.t) := fun h => (lookup l h, h).
Definition write (l : loc) (xs : list WorkoutSet.t) : M unit :=
  fun h => (tt, update l xs h).
End Store.

Notation "'let*' x ':=' m 'in' k" := (Store.bind m (fun x => k))
  (at level 10, x name, m at level 100, k at level 200).

(** [[...a]], [a.map(f)], [a.filter(p)]: a new array each. *)
Definition Array_copy (a : Store.loc) : Store.M Store.loc :=
  let* xs := Store.read a in Store.alloc xs.
Definition Array_map (f : WorkoutSet.t -> WorkoutSet.t) (a : Store.loc)
    : Store.M Store.loc :=
  let* xs := Store.read a in Store.alloc (map f xs).
Definition Array_filter (p : WorkoutSet.t -> bool) (a : Store.loc)
    : Store.M Store.loc :=
  let* xs := Store.read a in Store.alloc (filter p xs).

(** [a.push(...b)] and [a.sort(cmp)]: in place; [sort] returns [a]. *)
Definition Array_push (a b : Store.loc) : Store.M unit :=
  let* xs := Store.read a in
  let* ys := Store.read b in
  Store.write a (xs ++ ys).
Definition Array_sort (a : Store.loc) : Store.M Store.loc :=
  let* xs := Store.read a in
  let* _ := Store.write a (sort_by_set_number xs) in
  Store.ret a.

(** [getDisplaySets(exercise)] over the store. *)
Definition getDisplaySetsM (pc : PendingChanges.t) (exercise : WorkoutExercise.ref)
    : Store.M Store.loc :=
  let* sets := Array_copy (WorkoutExercise.sets exercise) in
  let* sets := Array_map (apply_set_edit pc) sets in
  let* sets := Array_filter (not_set_deleted pc) sets in
  let* newSets := Store.alloc (newSetsForExercise pc (WorkoutExercise.id exercise)) in
  let* _ := Array_push sets newSets in
  Array_sort sets.

(** The [map] that builds the new exercises, each with a fresh [sets: []]. *)
Fixpoint newExercisesM (workoutId : number) (base index : nat)
    (ns : list PendingNewExercise.t) : Store.M (list WorkoutExercise.ref) :=
  match ns with
  | [] => Store.ret []
  | n :: ns' =>
      let* empty := Store.alloc [] in
      let* rest := newExercisesM workoutId base (S index) ns' in
      Store.ret (new_exercise_display workoutId base index n empty :: rest)
  end.

(** [getDisplayExercises()] over the store; [w] holds [workout.id] and
    [workout.exercises] when there is a workout. *)
Definition getDisplayExercisesM (pc : PendingChanges.t)
    (w : option (number * list WorkoutExercise.ref))
    : Store.M (list WorkoutExercise.ref) :=
  match w with
  | None => Store.ret []
  | Some (workoutId, exercises) =>
      let existing := existingExercises pc exercises in
      let* newExercises :=
        newExercisesM workoutId (List.length existing) 0
                      (JS.values (PendingChanges.newExercises pc)) in
      Store.ret (existing ++ newExercises)
  end.

(** What a reference to an exercise denotes in a store. *)
Definition resolve (h : Store.t) (e : WorkoutExercise.ref) : WorkoutExercise.t :=
  WorkoutExercise.with_sets e (Store.lookup (WorkoutExercise.sets e) h).

(** [hasPendingChanges()]. *)
Definition has_workout_changes (pc : PendingChanges.t) : bool :=
  match PendingChanges.workout pc with
  | Some p => (0 <? WorkoutPatch.key_count p)%nat
  | None => false
  end.

Definition hasPendingChanges (st : State) : bool :=
  let pc := pendingChanges st in
  (0 <? JS.size (PendingChanges.sets pc))%nat
  || (0 <? JS.size (PendingChanges.exercises pc))%nat
  || (0 <? JS.size (PendingChanges.newSets pc))%nat
  || (0 <? JS.size (PendingChanges.newExercises pc))%nat
  || has_workout_changes pc.

(** The set rows of the render: each displayed set has its options menu
    (Edit, Delete) unless [isPendingDelete], that is
    [pendingChanges.sets.has(set.id) && pendingChanges.sets.get(set.id)?.type === 'delete']. *)
Definition isPendingDelete (pc : PendingChanges.t) (s : WorkoutSet.t) : bool :=
  JS.has (WorkoutSet.id s) (PendingChanges.sets pc)
  && match JS.get (WorkoutSet.id s) (PendingChanges.sets pc) with
     | Some change => PendingSetChange.is_delete change
     | None => false
     end.

Definition setMenuOffered (pc : PendingChanges.t) (s : WorkoutSet.t) : bool :=
  negb (isPendingDelete pc s).

(** ** Recording changes in the ledger *)

(** [handleSaveTitle], [handleSaveIntensity], [handleSaveNotes]: the header
    patch is merged key by key, [{ ...prev.workout, key: value }]. *)
Definition patch_of (o : option WorkoutPatch.t) : WorkoutPatch.t :=
  match o with Some p => p | None => WorkoutPatch.empty end.

Definition recordHeaderPatch (q : WorkoutPatch.t) (st : State) : State :=
  let st := updatePendingChanges (fun prev =>
    PendingChanges.with_workout prev
      (Some (WorkoutPatch.merge (patch_of (PendingChanges.workout prev)) q))) st in
  updateWorkout (option_map (fun w => WorkoutPatch.apply w q)) st.

Definition handleSaveTitle (st : State) : State :=
  recordHeaderPatch
    (WorkoutPatch.make (Some (tempWorkoutName st)) None None None None None) st.

Definition handleSaveIntensity (st : State) : State :=
  recordHeaderPatch
    (WorkoutPatch.make None None None None None (Some (tempIntensity st))) st.

(** [trimmed] is [tempWorkoutNotes.trim()]. *)
Definition handleSaveNotes (trimmed : string) (st : State) : State :=
  let v := match trimmed with EmptyString => None | s => Some s end in
  recordHeaderPatch (WorkoutPatch.make None (Some v) None None None None) st.

(** [handleSaveDuration]: [startTime], [endTime] are the parsed form dates in
    milliseconds, [startIso], [endIso] their [toISOString()]. *)
Definition handleSaveDuration (startTime endTime : Z) (startIso endIso : string)
    (st : State) : State :=
  match workout st with
  | None => st
  | Some _ =>
      if endTime <=? startTime
      then alert "End time must be after start time" st
      else
        (* Math.round((endTime - startTime) / (1000 * 60)) *)
        let newDuration := (2 * (endTime - startTime) + 60000) / 120000 in
        recordHeaderPatch
          (WorkoutPatch.make None None (Some startIso) (Some endIso)
                             (Some newDuration) None) st
  end.

(** [handleEditSet(set)] opens the edit dialog. *)
Definition handleEditSet (s : WorkoutSet.t) (st : State) : State :=
  setShowEditSetDialog true (setEditingSet (Some s) st).

(** The form values of the set dialogs, already parsed:
    [weightInLbs] is [weight > 0 ? convertWeightToStorage(weight) : undefined],
    [reps] is [parseInt(setRepsValue) || 0], [notes] is the trimmed note or
    [undefined]. *)
Record SetForm : Type := mkSetForm {
  weightInLbs : option Q;
  form_reps : Z;
  form_notes : option string
}.

Definition updatedSetData (f : SetForm) : SetPatch.t :=
  {| SetPatch.id := None;
     SetPatch.workout_exercise_id := None;
     SetPatch.set_number := None;
     SetPatch.weight_lbs := Some (weightInLbs f);
     SetPatch.reps := Some (if 0 <? form_reps f then Some (form_reps f) else None);
     SetPatch.duration_seconds := None;
     SetPatch.distance_miles := None;
     SetPatch.notes := Some (form_notes f);
     SetPatch.completed_at := None |}.

(** [handleUpdateSet()]. *)
Definition handleUpdateSet (f : SetForm) (st : State) : State :=
  match editingSet st with
  | None => st
  | Some editing =>
      let data := updatedSetData f in
      let eid := WorkoutSet.id editing in
      let st := updatePendingChanges (fun prev =>
        let newSets :=
          JS.set eid
            (PendingSetChange.make eid PendingSetChange.edit (Some data) (Some editing))
            (PendingChanges.sets prev) in
        PendingChanges.with_sets prev newSets) st in
      let st := updateWorkout (option_map (fun prev =>
        WorkoutSummary.with_exercises prev
          (map (fun exercise =>
                  WorkoutExercise.with_sets exercise
                    (map (fun s => if strict_eq (WorkoutSet.id s) eid
                                   then SetPatch.spread s data else s)
                         (WorkoutExercise.sets exercise)))
               (WorkoutSummary.exercises prev)))) st in
      setEditingSet None (setShowEditSetDialog false st)
  end.

(** [handleDeleteExercise(exerciseId)]; [confirmed] is the answer to
    [window.confirm]. *)
Definition handleDeleteExercise (exerciseId : number) (confirmed : bool)
    (st : State) : State :=
  match workout st with
  | None => st
  | Some _ =>
      if negb confirmed then st
      else if lt0 exerciseId then
        let tempId := toString (JS.abs exerciseId) in
        updatePendingChanges (fun prev =>
          PendingChanges.with_newExercises prev
            (JS.delete tempId (PendingChanges.newExercises prev))) st
      else
        updatePendingChanges (fun prev =>
          PendingChanges.with_exercises prev
            (JS.set exerciseId
               (PendingExerciseChange.make exerciseId PendingExerciseChange.delete
                                           None None)
               (PendingChanges.exercises prev))) st
  end.

(** [handleDeleteSet(setId)]. *)
Definition handleDeleteSet (setId : number) (confirmed : bool) (st : State) : State :=
  match workout st with
  | None => st
  | Some _ =>
      if negb confirmed then st
      else
        updatePendingChanges (fun prev =>
          PendingChanges.with_sets prev
            (JS.set setId
               (PendingSetChange.make setId PendingSetChange.delete None None)
               (PendingChanges.sets prev))) st
  end.

(** [handleAddExercise()] and [handleReplaceExercise(exerciseId)] open the
    exercise picker. *)
Definition handleAddExercise (st : State) : State :=
  match workout st with
  | None => st
  | Some _ =>
      setShowExerciseSelectionModal true
        (setReplacingExerciseId None (setExerciseSelectionMode mode_add st))
  end.

Definition handleReplaceExercise (exerciseId : number) (st : State) : State :=
  match workout st with
  | None => st
  | Some _ =>
      setShowExerciseSelectionModal true
        (setReplacingExerciseId (Some exerciseId)
           (setExerciseSelectionMode mode_replace st))
  end.

(** The picker's [onClose]. *)
Definition closeExerciseSelection (st : State) : State :=
  setReplacingExerciseId None
    (setExerciseSelectionMode mode_add (setShowExerciseSelectionModal false st)).

(** [fetch(`/api/exercises/${id}`)] followed by [response.json()]: the
    exercise, or nothing when the response is not ok or the call rejects
    (both end in the handler's [catch]).  A body of another shape is read
    as a failure too. *)
Definition fetchExercise (remote : Remote) (exerciseId : number) (b : Browser.t)
    : option Exercise.t * Browser.t :=
  let (out, b') := Browser.fetch remote (GetExercise exerciseId) b in
  match out with
  | Response true (ExerciseBody e) => (Some e, b')
  | _ => (None, b')
  end.

(** The [selectedExerciseIds.map(async ...)] of the add branch: every request
    is sent, in order; [Promise.all] gives the exercises when all succeeded. *)
Fixpoint fetchExercises (remote : Remote) (ids : list number) (b : Browser.t)
    : option (list Exercise.t) * Browser.t :=
  match ids with
  | [] => (Some [], b)
  | i :: ids' =>
      let (r, b1) := fetchExercise remote i b in
      let (rs, b2) := fetchExercises remote ids' b1 in
      (match r, rs with
       | Some e, Some es => Some (e :: es)
       | _, _ => None
       end, b2)
  end.

(** The entry [[tempId.toString(), {...}]] built for a picked exercise, with
    [tempId = Date.now() + index]. *)
Definition newExerciseEntry (now : Z) (index : nat) (exercise : Exercise.t)
    : string * PendingNewExercise.t :=
  let tempId := toString (Int (now + Z.of_nat index)) in
  (tempId,
   {| PendingNewExercise.exerciseId := Exercise.id exercise;
      PendingNewExercise.name := Exercise.name exercise;
      PendingNewExercise.category := Exercise.category exercise;
      PendingNewExercise.muscle_group := Exercise.muscle_group exercise;
      PendingNewExercise.equipment := Exercise.equipment exercise;
      PendingNewExercise.video_url := Exercise.video_url exercise;
      PendingNewExercise.tempId := tempId |}).

Definition is_replacing (st : State) : option number :=
  match exerciseSelectionMode st, replacingExerciseId st with
  | mode_replace, Some r => if truthy r then Some r else None
  | _, _ => None
  end.

(** [handleAddSelectedExercises(selectedExerciseIds)]; [now] is [Date.now()]. *)
Definition handleAddSelectedExercises (remote : Remote) (now : Z)
    (selectedExerciseIds : list number) (st : State) : State :=
  let failed := alert "Failed to process exercises. Please try again." in
  match workout st, selectedExerciseIds with
  | None, _ | _, [] => st
  | Some _, newExerciseId :: others =>
      match is_replacing st with
      | Some replacing =>
          match others with
          | _ :: _ => alert "Please select exactly one exercise for replacement." st
          | [] =>
              let (r, b) := fetchExercise remote newExerciseId (browser st) in
              let st := setBrowser b st in
              match r with
              | None => failed st
              | Some newExercise =>
                  updatePendingChanges (fun prev =>
                    PendingChanges.with_exercises prev
                      (JS.set replacing
                         (PendingExerciseChange.make replacing
                            PendingExerciseChange.replace (Some newExerciseId)
                            (Some (Exercise.name newExercise)))
                         (PendingChanges.exercises prev))) st
              end
          end
      | None =>
          let (r, b) := fetchExercises remote selectedExerciseIds (browser st) in
          let st := setBrowser b st in
          match r with
          | None => failed st
          | Some exerciseDetails =>
              let newExerciseEntries := mapi_from (newExerciseEntry now) 0 exerciseDetails in
              updatePendingChanges (fun prev =>
                PendingChanges.with_newExercises prev
                  (JS.of_entries (PendingChanges.newExercises prev ++ newExerciseEntries)))
                st
          end
      end
  end.

(** [handleAddSet(exerciseId)]. *)
Definition handleAddSet (exerciseId : number) (st : State) : State :=
  if lt0 exerciseId
  then alert "Please save all changes first before adding sets to new exercises." st
  else setShowAddSetDialog true (setAddingSetToExercise (Some exerciseId) st).

(** [Math.max(...xs)] for a non-empty array. *)
Definition Math_max (x : Z) (xs : list Z) : Z := fold_left Z.max xs x.

Definition nextSetNumber (existingSets : list WorkoutSet.t) : Z :=
  match map WorkoutSet.set_number existingSets with
  | [] => 1
  | x :: xs => Math_max x xs + 1
  end.

(** The key [`${addingSetToExercise}-${tempId}`] of a new set. *)
Definition newSetKey (exerciseId : number) (tempId : Z) : string :=
  (toString exerciseId ++ "-" ++ showZ tempId)%string.

(** [handleSaveNewSet()]; [nowIso] is [new Date().toISOString()]. *)
Definition handleSaveNewSet (f : SetForm) (nowIso : string) (st : State) : State :=
  match addingSetToExercise st with
  | None => st
  | Some adding =>
      if negb (truthy adding) then st
      else
        match workout st with
        | None => st
        | Some w =>
            match find (fun ex => strict_eq (WorkoutExercise.id ex) adding)
                       (WorkoutSummary.exercises w) with
            | None => st
            | Some exercise =>
                let existingSets := getDisplaySets (pendingChanges st) exercise in
                let newSetData :=
                  {| NewSet.workout_exercise_id := adding;
                     NewSet.set_number := nextSetNumber existingSets;
                     NewSet.weight_lbs := weightInLbs f;
                     NewSet.reps := if 0 <? form_reps f then Some (form_reps f) else None;
                     NewSet.duration_seconds := None;
                     NewSet.distance_miles := None;
                     NewSet.notes := form_notes f;
                     NewSet.completed_at := Some nowIso |} in
                let tempId := tempSetIdCounter st in
                let st := setTempSetIdCounter (tempId + 1) st in
                let st := updatePendingChanges (fun prev =>
                  PendingChanges.with_newSets prev
                    (JS.set (newSetKey adding tempId) newSetData
                            (PendingChanges.newSets prev))) st in
                setAddingSetToExercise None (setShowAddSetDialog false st)
            end
        end
  end.

(** ** Loading and restoring *)

(** [[...new Set(xs)]]: first occurrences, in order. *)
Fixpoint unique (xs : list string) (seen : list string) : list string :=
  match xs with
  | [] => []
  | x :: xs' =>
      if existsb (String.eqb x) seen then unique xs' seen
      else x :: unique xs' (x :: seen)
  end.

(** [generateWorkoutTitle(exercises)]. *)
Definition generateWorkoutTitle (exercises : list WorkoutExercise.t) : string :=
  match exercises with
  | [] => "Workout"
  | _ =>
      match unique (map WorkoutExercise.muscle_group exercises) [] with
      | [a] => a ++ " Workout"
      | [a; b] => a ++ ", " ++ b ++ " Workout"
      | a :: b :: c :: _ => a ++ ", " ++ b ++ ", " ++ c ++ " Workout"
      | [] => "Full Body Workout"
      end
  end%string.

(** [s || d] on [string | undefined]. *)
Definition string_or (s : option string) (d : string) : string :=
  if truthy_string s then match s with Some v => v | None => d end else d.

(** [n || d] on [number | undefined] holding an integer. *)
Definition Z_or (n : option Z) (d : Z) : Z :=
  match n with
  | Some v => if v =? 0 then d else v
  | None => d
  end.

(** [a ?? b]. *)
Definition nullish {A : Type} (a : option A) (b : A) : A :=
  match a with Some v => v | None => b end.

Definition toHistory (st : State) : State := navigate "/history" st.

(** [fetchWorkoutSummary()]. *)
Definition fetchWorkoutSummary (remote : Remote) (st : State) : State :=
  let (out, b) := Browser.fetch remote (GetWorkout (routeId st) None) (browser st) in
  let st := setBrowser b st in
  let st :=
    match out with
    | Response true (WorkoutBody data) =>
        let st := setOriginalWorkout (Some data) st in
        let st := setWorkout (Some data) st in
        let st := setTempWorkoutName
                    (string_or (WorkoutSummary.name data)
                       (generateWorkoutTitle (WorkoutSummary.exercises data))) st in
        let st := setTempIntensity (Z_or (WorkoutSummary.intensity_level data) 3) st in
        let st := setTempWorkoutNotes (string_or (WorkoutSummary.notes data) "") st in
        setPendingChanges PendingChanges.empty st
    | Response true _ => toHistory st      (* the body does not read as a workout *)
    | Response false _ => toHistory st
    | Rejected _ => toHistory st
    end in
  setLoading false st.

(** [`workout-${id}-preservation`]. *)
Definition preservationKey (st : State) : string :=
  ("workout-" ++ routeId st ++ "-preservation")%string.

(** [savedPendingChanges]: a ledger, or the default object of the function,
    which has no [newExercises] map (the loop over it then throws). *)
Inductive Saved : Type :=
| SavedLedger (pc : PendingChanges.t)
| SavedWithoutNewExercises.

(** The maps rebuilt from the blob, [new Map(parsed.pendingChanges.sets || [])]
    and so on. *)
Definition ledger_of_blob (l : Blob.ledger) : PendingChanges.t :=
  {| PendingChanges.workout := Blob.workout l;
     PendingChanges.sets := JS.of_entries (Blob.sets l);
     PendingChanges.exercises := JS.of_entries (Blob.exercises l);
     PendingChanges.newSets := JS.of_entries (Blob.newSets l);
     PendingChanges.newExercises := JS.of_entries (Blob.newExercises l) |}.

(** The copy of the ledger held in memory, [new Map(pendingChanges.sets)] and
    so on. *)
Definition ledger_copy (pc : PendingChanges.t) : PendingChanges.t :=
  {| PendingChanges.workout := PendingChanges.workout pc;
     PendingChanges.sets := JS.of_entries (PendingChanges.sets pc);
     PendingChanges.exercises := JS.of_entries (PendingChanges.exercises pc);
     PendingChanges.newSets := JS.of_entries (PendingChanges.newSets pc);
     PendingChanges.newExercises := JS.of_entries (PendingChanges.newExercises pc) |}.

(** The grace period of the delayed clear, in milliseconds. *)
Definition preservation_grace : Z := 30000.

(** The first part of [fetchWorkoutSummaryWithPendingPreservation]: what is
    to be preserved, the counter to restore, and the browser (where a
    delayed clear of the blob may have been registered). *)
Definition loadPreservation (st : State) : Saved * Z * Browser.t :=
  let key := preservationKey st in
  let b := browser st in
  match JS.get key (Browser.sessionStorage b) with
  | Some (Parsed parsed) =>
      match Blob.pendingChanges parsed with
      | Some l =>
          (SavedLedger (ledger_of_blob l),
           Z_or (Blob.tempSetIdCounter parsed) (tempSetIdCounter st),
           Browser.setTimeout (RemoveItem key) preservation_grace b)
      | None => (SavedWithoutNewExercises, tempSetIdCounter st, b)
      end
  | Some Unparsable => (SavedWithoutNewExercises, tempSetIdCounter st, b)
  | Some EmptyText | None =>
      (SavedLedger (ledger_copy (pendingChanges st)), tempSetIdCounter st, b)
  end.

(** [data.exercises.some(ex => ex.sets.some(set => set.id === setId))]. *)
Definition set_exists (data : WorkoutSummary.t) (setId : number) : bool :=
  existsb (fun ex => existsb (fun s => strict_eq (WorkoutSet.id s) setId)
                             (WorkoutExercise.sets ex))
          (WorkoutSummary.exercises data).

(** [currentExerciseIds.has(x)] for
    [currentExerciseIds = new Set(data.exercises.map(ex => ex.id))]. *)
Definition currentExerciseIds (data : WorkoutSummary.t) : list number :=
  map WorkoutExercise.id (WorkoutSummary.exercises data).

Definition ids_has (ids : list number) (x : number) : bool :=
  existsb (fun y => if eq_key x y then true else false) ids.

(** One of the four filtering loops: [valid.set(key, value)] for every entry
    that passes the test. *)
Definition keep_valid {K V : Type} `{EqKey K} (valid : K -> bool)
    (saved : jsmap K V) : jsmap K V :=
  fold_left (fun acc kv => if valid (fst kv) then JS.set (fst kv) (snd kv) acc else acc)
            saved [].

(** [parseInt(key.split('-')[0])]. *)
Definition newSetOwner (key : string) : number :=
  parseInt_part (split "-" key) 0.

(** The filtering of the saved ledger against the fresh data. *)
Definition reconcile (saved : PendingChanges.t) (data : WorkoutSummary.t)
    : PendingChanges.t :=
  let ids := currentExerciseIds data in
  {| PendingChanges.workout := PendingChanges.workout saved;
     PendingChanges.sets := keep_valid (set_exists data) (PendingChanges.sets saved);
     PendingChanges.exercises := keep_valid (ids_has ids) (PendingChanges.exercises saved);
     PendingChanges.newSets :=
       keep_valid (fun key => ids_has ids (newSetOwner key)) (PendingChanges.newSets saved);
     PendingChanges.newExercises :=
       keep_valid (fun _ => true) (PendingChanges.newExercises saved) |}.

Definition saved_workout (s : Saved) : option WorkoutPatch.t :=
  match s with
  | SavedLedger pc => PendingChanges.workout pc
  | SavedWithoutNewExercises => None
  end.

Definition join {A : Type} (o : option (option A)) : option A :=
  match o with Some v => v | None => None end.

(** [fetchWorkoutSummaryWithPendingPreservation()]; [now] is [Date.now()]. *)
Definition fetchWorkoutSummaryWithPendingPreservation (remote : Remote) (now : Z)
    (st : State) : State :=
  let st := setIsRestoring true st in
  let '(saved, savedTempSetIdCounter, b) := loadPreservation st in
  let (out, b) := Browser.fetch remote (GetWorkout (routeId st) (Some now)) b in
  let st := setBrowser b st in
  let st :=
    match out with
    | Response true (WorkoutBody data) =>
        let st := setOriginalWorkout (Some data) st in
        let p := saved_workout saved in
        let st := setWorkout
                    (Some match p with
                          | Some q => WorkoutPatch.apply data q
                          | None => data
                          end) st in
        let q := patch_of p in
        let st := setTempWorkoutName
                    (nullish (WorkoutPatch.name q)
                       (nullish (WorkoutSummary.name data)
                          (generateWorkoutTitle (WorkoutSummary.exercises data)))) st in
        let st := setTempIntensity
                    (nullish (WorkoutPatch.intensity_level q)
                       (nullish (WorkoutSummary.intensity_level data) 3)) st in
        let st := setTempWorkoutNotes
                    (nullish (join (WorkoutPatch.notes q))
                       (nullish (WorkoutSummary.notes data) "")) st in
        let st := setTempStartDateTime
                    (nullish (WorkoutPatch.started_at q)
                       (WorkoutSummary.started_at data)) st in
        let st := setTempEndDateTime
                    (nullish (WorkoutPatch.completed_at q)
                       (WorkoutSummary.completed_at data)) st in
        match saved with
        | SavedLedger pc =>
            let st := setPendingChanges (reconcile pc data) st in
            let st := setTempSetIdCounter savedTempSetIdCounter st in
            setIsRestoring false st
        | SavedWithoutNewExercises =>
            (* the loop over the missing map throws: the outer catch *)
            toHistory (setIsRestoring false st)
        end
    | Response true _ => toHistory (setIsRestoring false st)
    | Response false _ => toHistory (setIsRestoring false st)
    | Rejected _ => toHistory (setIsRestoring false st)
    end in
  setLoading false st.

(** ** Saving and discarding *)

Inductive Outcome (A : Type) : Type :=
| Returned (a : A)
| Threw (e : Thrown).
Arguments Returned {A} a.
Arguments Threw {A} e.

(** Sequential code of the [try] block: it talks to the remote store through
    the browser and may throw. *)
Definition Act (A : Type) : Type := Browser.t -> Outcome A * Browser.t.

Definition ret {A : Type} (a : A) : Act A := fun b => (Returned a, b).

Definition bind {A B : Type} (m : Act A) (k : A -> Act B) : Act B :=
  fun b =>
    match m b with
    | (Returned a, b') => k a b'
    | (Threw e, b') => (Threw e, b')
    end.

Notation "m ;; k" := (bind m (fun _ => k)) (at level 61, right associativity).

(** [const response = await fetch(r); if (!response.ok) throw new Error(failure)]. *)
Definition request (remote : Remote) (r : Request) (failure : string) : Act unit :=
  fun b =>
    let (out, b') := Browser.fetch remote r b in
    match out with
    | Response true _ => (Returned tt, b')
    | Response false _ => (Threw (ErrorObj failure), b')
    | Rejected e => (Threw e, b')
    end.

(** [for (const x of xs) { body }]. *)
Fixpoint for_of {X : Type} (xs : list X) (body : X -> Act unit) : Act unit :=
  match xs with
  | [] => ret tt
  | x :: xs' => body x ;; for_of xs' body
  end.

Definition saveWorkoutChanges (remote : Remote) (w : WorkoutSummary.t)
    (pc : PendingChanges.t) : Act unit :=
  match PendingChanges.workout pc with
  | Some p =>
      if (0 <? WorkoutPatch.key_count p)%nat
      then request remote (PatchWorkout (WorkoutSummary.id w) p)
                   "Failed to update workout details"
      else ret tt
  | None => ret tt
  end.

Definition saveSetChange (remote : Remote) (entry : number * PendingSetChange.t)
    : Act unit :=
  let (setId, change) := entry in
  match PendingSetChange.type change with
  | PendingSetChange.edit =>
      request remote (PutSet setId (PendingSetChange.setData change))
              ("Failed to update set " ++ toString setId)
  | PendingSetChange.delete =>
      request remote (DeleteSet setId) ("Failed to delete set " ++ toString setId)
  | PendingSetChange.add => ret tt
  end.

Definition saveNewSet (remote : Remote) (entry : string * NewSet.t) : Act unit :=
  let setData := snd entry in
  request remote (PostSet (NewSet.workout_exercise_id setData) setData)
          ("Failed to create new set for exercise "
           ++ toString (NewSet.workout_exercise_id setData)).

Definition saveNewExercise (remote : Remote) (w : WorkoutSummary.t)
    (entry : string * PendingNewExercise.t) : Act unit :=
  let newExercise := snd entry in
  request remote
          (PostExercise (WorkoutSummary.id w) (PendingNewExercise.exerciseId newExercise) 0)
          ("Failed to add exercise " ++ PendingNewExercise.name newExercise).

Definition saveExerciseChange (remote : Remote)
    (entry : number * PendingExerciseChange.t) : Act unit :=
  let (exerciseId, change) := entry in
  match PendingExerciseChange.type change with
  | PendingExerciseChange.delete =>
      request remote (DeleteExercise exerciseId)
              ("Failed to delete exercise " ++ toString exerciseId)
  | PendingExerciseChange.replace =>
      match PendingExerciseChange.newExerciseId change with
      | Some n =>
          if truthy n
          then request remote (PutReplaceExercise exerciseId n)
                       ("Failed to replace exercise " ++ toString exerciseId)
          else ret tt
      | None => ret tt
      end
  end.

(** The five blocks of the [try] of [handleSaveAllChanges], up to the
    clearing of the ledger. *)
Definition saveAll (remote : Remote) (w : WorkoutSummary.t) (pc : PendingChanges.t)
    : Act unit :=
  saveWorkoutChanges remote w pc ;;
  for_of (PendingChanges.sets pc) (saveSetChange remote) ;;
  for_of (PendingChanges.newSets pc) (saveNewSet remote) ;;
  for_of (PendingChanges.newExercises pc) (saveNewExercise remote w) ;;
  for_of (PendingChanges.exercises pc) (saveExerciseChange remote).

(** [error instanceof Error ? error.message : 'Unknown error']. *)
Definition error_message (e : Thrown) : string :=
  match e with
  | ErrorObj m => m
  | NonError => "Unknown error"
  end.

(** [handleSaveAllChanges()]. *)
Definition handleSaveAllChanges (remote : Remote) (st : State) : State :=
  match workout st with
  | None => st
  | Some w =>
      if negb (hasPendingChanges st) then st
      else
        let st := setIsSaving true st in
        let (out, b) := saveAll remote w (pendingChanges st) (browser st) in
        let st := setBrowser b st in
        let st :=
          match out with
          | Returned _ =>
              let st := setPendingChanges PendingChanges.empty st in
              let st := fetchWorkoutSummary remote st in
              alert "All changes saved successfully!" st
          | Threw e =>
              alert ("Failed to save changes: " ++ error_message e) st
          end in
        setIsSaving false st
  end.

(** [handleDiscardChanges()]. *)
Definition handleDiscardChanges (confirmed : bool) (st : State) : State :=
  if negb confirmed then st
  else
    let st := setPendingChanges PendingChanges.empty st in
    match originalWorkout st with
    | Some original =>
        let st := setWorkout (Some original) st in
        let st := setTempWorkoutName
                    (string_or (WorkoutSummary.name original)
                       (generateWorkoutTitle (WorkoutSummary.exercises original))) st in
        let st := setTempIntensity (Z_or (WorkoutSummary.intensity_level original) 3) st in
        setTempWorkoutNotes (string_or (WorkoutSummary.notes original) "") st
    | None => st
    end.

(** A registered timer fires. *)
Definition fireTimer (n : nat) (st : State) : State :=
  setBrowser (Browser.fire n (browser st)) st.

(** ** Notions used in the statements *)

(** The entries a map holds for one key. *)
Definition entries_for {K V : Type} `{EqKey K} (k : K) (m : jsmap K V) : list (K * V) :=
  filter (fun kv => if eq_key k (fst kv) then true else false) m.

(** A map as [Map] keeps it: no key twice. *)
Definition unique_keys {K V : Type} (m : jsmap K V) : Prop := NoDup (JS.keys m).

(** Every map of the ledger holds at most one entry per key. *)
Definition ledger_unique (pc : PendingChanges.t) : Prop :=
  unique_keys (PendingChanges.sets pc)
  /\ unique_keys (PendingChanges.exercises pc)
  /\ unique_keys (PendingChanges.newSets pc)
  /\ unique_keys (PendingChanges.newExercises pc).


(** A string of decimal digits only. *)
Fixpoint digits (s : string) : bool :=
  match s with
  | EmptyString => true
  | String c s' => is_digit c && digits s'
  end.

(** What may follow the digits of a key part: nothing, or the separator. *)
Definition ends_part (rest : string) : Prop :=
  rest = EmptyString \/ exists r, rest = String "-" r.

(** Some exercise of the snapshot contains a set with the id; the snapshot
    contains an exercise with the id. *)
Definition snapshot_has_set (data : WorkoutSummary.t) (setId : number) : Prop :=
  exists ex s, In ex (WorkoutSummary.exercises data)
               /\ In s (WorkoutExercise.sets ex) /\ WorkoutSet.id s = setId.

Definition snapshot_has_exercise (data : WorkoutSummary.t) (exerciseId : number) : Prop :=
  exists ex, In ex (WorkoutSummary.exercises data) /\ WorkoutExercise.id ex = exerciseId.

(** The new sets of a ledger are keyed as [handleSaveNewSet] keys them: by
    the id of the exercise they are created for (a persisted one) and a
    temporary id. *)
Definition newSets_owned (m : jsmap string NewSet.t) : Prop :=
  forall key d,
    In (key, d) m ->
    exists e t, 0 <= e /\ key = newSetKey (Int e) t
                /\ NewSet.workout_exercise_id d = Int e.

(** Ascending order of sequence numbers. *)
Definition by_set_number (a b : WorkoutSet.t) : Prop :=
  WorkoutSet.set_number a <= WorkoutSet.set_number b.

(** The sets a projection is made of, before the sort: the sets of the
    exercise that are not pending delete, with their edits, then the
    pending-new sets of the exercise. *)
Definition displayedUnsorted (pc : PendingChanges.t) (exercise : WorkoutExercise.t)
    : list WorkoutSet.t :=
  filter (not_set_deleted pc) (map (apply_set_edit pc) (WorkoutExercise.sets exercise))
  ++ newSetsForExercise pc (WorkoutExercise.id exercise).

(** Every array of the store [h] is in [h'] what it is in [h]. *)
Definition untouched (h h' : Store.t) : Prop :=
  forall l, (l < List.length h)%nat -> Store.lookup l h' = Store.lookup l h.

(** ** The plan of a save *)

(** The stage of an operation of a save: 1 header patch, 2 set edits and
    deletes, 3 set creations, 4 exercise creations, 5 exercise deletes and
    replacements; 0 for the reads, which are no operation of a save. *)
Definition stage (r : Request) : nat :=
  match r with
  | PatchWorkout _ _ => 1
  | PutSet _ _ | DeleteSet _ => 2
  | PostSet _ _ => 3
  | PostExercise _ _ _ => 4
  | DeleteExercise _ | PutReplaceExercise _ _ => 5
  | GetWorkout _ _ | GetExercise _ => 0
  end.

(** The operations a save has to send for a ledger, in the order of the
    ledger, each with the message reported when the store refuses it. *)
Definition headerOps (w : WorkoutSummary.t) (pc : PendingChanges.t)
    : list (Request * string) :=
  match PendingChanges.workout pc with
  | Some p =>
      if (0 <? WorkoutPatch.key_count p)%nat
      then [(PatchWorkout (WorkoutSummary.id w) p, "Failed to update workout details")]
      else []
  | None => []
  end.

Definition setOps (entry : number * PendingSetChange.t) : list (Request * string) :=
  match PendingSetChange.type (snd entry) with
  | PendingSetChange.edit =>
      [(PutSet (fst entry) (PendingSetChange.setData (snd entry)),
        "Failed to update set " ++ toString (fst entry))]
  | PendingSetChange.delete =>
      [(DeleteSet (fst entry), "Failed to delete set " ++ toString (fst entry))]
  | PendingSetChange.add => []
  end%string.

Definition newSetOps (entry : string * NewSet.t) : list (Request * string) :=
  [(PostSet (NewSet.workout_exercise_id (snd entry)) (snd entry),
    "Failed to create new set for exercise "
    ++ toString (NewSet.workout_exercise_id (snd entry)))]%string.

Definition newExerciseOps (w : WorkoutSummary.t) (entry : string * PendingNewExercise.t)
    : list (Request * string) :=
  [(PostExercise (WorkoutSummary.id w) (PendingNewExercise.exerciseId (snd entry)) 0,
    "Failed to add exercise " ++ PendingNewExercise.name (snd entry))]%string.

Definition exerciseOps (entry : number * PendingExerciseChange.t)
    : list (Request * string) :=
  match PendingExerciseChange.type (snd entry),
        PendingExerciseChange.newExerciseId (snd entry) with
  | PendingExerciseChange.delete, _ =>
      [(DeleteExercise (fst entry), "Failed to delete exercise " ++ toString (fst entry))]
  | PendingExerciseChange.replace, Some n =>
      if truthy n
      then [(PutReplaceExercise (fst entry) n,
             "Failed to replace exercise " ++ toString (fst entry))]
      else []
  | PendingExerciseChange.replace, None => []
  end%string.

Definition plan (w : WorkoutSummary.t) (pc : PendingChanges.t) : list (Request * string) :=
  headerOps w pc
  ++ flat_map setOps (PendingChanges.sets pc)
  ++ flat_map newSetOps (PendingChanges.newSets pc)
  ++ flat_map (newExerciseOps w) (PendingChanges.newExercises pc)
  ++ flat_map exerciseOps (PendingChanges.exercises pc).

(** Sending a list of operations one after the other, stopping at the first
    failure: what the five blocks of the save amount to. *)
Fixpoint issue (remote : Remote) (ops : list (Request * string)) : Act unit :=
  match ops with
  | [] => ret tt
  | (r, msg) :: ops' => request remote r msg ;; issue remote ops'
  end.

Definition plannedRequests (w : WorkoutSummary.t) (pc : PendingChanges.t) : list Request :=
  map fst (plan w pc).

(** The store's answer to request [r], sent after [sent], is a failure that
    the save reports as [e]: a response that is not ok gives the message of
    the operation, a rejection gives what the rejection threw. *)
Definition fails_with (remote : Remote) (sent : list Request) (r : Request)
    (msg : string) (e : Thrown) : Prop :=
  match remote sent r with
  | Response true _ => False
  | Response false _ => e = ErrorObj msg
  | Rejected e' => e = e'
  end.

(** Sending operations changes the log of requests only. *)
Definition same_but_requests (b b' : Browser.t) : Prop :=
  Browser.alerts b' = Browser.alerts b
  /\ Browser.navigations b' = Browser.navigations b
  /\ Browser.sessionStorage b' = Browser.sessionStorage b
  /\ Browser.timers b' = Browser.timers b.

(** The message of a planned operation names the operation and its target. *)
Definition names_operation (op : Request * string) : Prop :=
  match fst op with
  | PatchWorkout _ _ => snd op = "Failed to update workout details"
  | PutSet s _ => snd op = "Failed to update set " ++ toString s
  | DeleteSet s => snd op = "Failed to delete set " ++ toString s
  | PostSet e _ => snd op = "Failed to create new set for exercise " ++ toString e
  | PostExercise _ _ _ => exists n, snd op = "Failed to add exercise " ++ n
  | DeleteExercise e => snd op = "Failed to delete exercise " ++ toString e
  | PutReplaceExercise e _ => snd op = "Failed to replace exercise " ++ toString e
  | GetWorkout _ _ | GetExercise _ => False
  end%string.

(** ** The page as a transition system *)

(** What can happen to the page: a handler is called with its arguments, a
    load or a restoration runs, a timer fires. *)
Inductive Action : Type :=
| HandleSaveTitle
| HandleSaveIntensity
| HandleSaveNotes (trimmed : string)
| HandleSaveDuration (startTime endTime : Z) (startIso endIso : string)
| HandleEditSet (s : WorkoutSet.t)
| HandleUpdateSet (f : SetForm)
| HandleDeleteExercise (exerciseId : number) (confirmed : bool)
| HandleDeleteSet (setId : number) (confirmed : bool)
| HandleAddExercise
| HandleReplaceExercise (exerciseId : number)
| CloseExerciseSelection
| HandleAddSelectedExercises (now : Z) (selectedExerciseIds : list number)
| HandleAddSet (exerciseId : number)
| HandleSaveNewSet (f : SetForm) (nowIso : string)
| HandleSaveAllChanges
| HandleDiscardChanges (confirmed : bool)
| FetchWorkoutSummary
| FetchWorkoutSummaryWithPendingPreservation (now : Z)
| FireTimer (n : nat).

Definition step (remote : Remote) (a : Action) (st : State) : State :=
  match a with
  | HandleSaveTitle => handleSaveTitle st
  | HandleSaveIntensity => handleSaveIntensity st
  | HandleSaveNotes trimmed => handleSaveNotes trimmed st
  | HandleSaveDuration s e si ei => handleSaveDuration s e si ei st
  | HandleEditSet s => handleEditSet s st
  | HandleUpdateSet f => handleUpdateSet f st
  | HandleDeleteExercise x c => handleDeleteExercise x c st
  | HandleDeleteSet x c => handleDeleteSet x c st
  | HandleAddExercise => handleAddExercise st
  | HandleReplaceExercise x => handleReplaceExercise x st
  | CloseExerciseSelection => closeExerciseSelection st
  | HandleAddSelectedExercises now ids => handleAddSelectedExercises remote now ids st
  | HandleAddSet x => handleAddSet x st
  | HandleSaveNewSet f nowIso => handleSaveNewSet f nowIso st
  | HandleSaveAllChanges => handleSaveAllChanges remote st
  | HandleDiscardChanges c => handleDiscardChanges c st
  | FetchWorkoutSummary => fetchWorkoutSummary remote st
  | FetchWorkoutSummaryWithPendingPreservation now =>
      fetchWorkoutSummaryWithPendingPreservation remote now st
  | FireTimer n => fireTimer n st
  end.

Definition run (remote : Remote) (actions : list Action) (st : State) : State :=
  fold_left (fun s a => step remote a s) actions st.

(** The sets of an exercise for which the render shows the options menu
    with its Edit and Delete buttons. *)
Definition setsWithMenu (pc : PendingChanges.t) (exercise : WorkoutExercise.t)
    : list WorkoutSet.t :=
  filter (setMenuOffered pc) (getDisplaySets pc exercise).

(** The entries written by the recording handlers. *)
Definition setDeleteEntry (setId : number) : PendingSetChange.t :=
  PendingSetChange.make setId PendingSetChange.delete None None.

Definition setEditEntry (f : SetForm) (editing : WorkoutSet.t) : PendingSetChange.t :=
  PendingSetChange.make (WorkoutSet.id editing) PendingSetChange.edit
                        (Some (updatedSetData f)) (Some editing).

Definition exerciseDeleteEntry (exerciseId : number) : PendingExerciseChange.t :=
  PendingExerciseChange.make exerciseId PendingExerciseChange.delete None None.

(** A pending delete is recorded for the set id. *)
Definition pendingSetDelete (pc : PendingChanges.t) (setId : number) : Prop :=
  exists c, JS.get setId (PendingChanges.sets pc) = Some c
            /\ PendingSetChange.is_delete c = true.

(** What the page maintains about new sets: those of the ledger are keyed by
    the exercise they are for; the add-set dialog never targets a negative
    id; the blobs held in [sessionStorage] (written when the page is left,
    from the ledger of that moment) are keyed in the same way. *)
Definition adding_ok (st : State) : Prop :=
  forall x, addingSetToExercise st = Some x -> lt0 x = false.

Definition storage_owned (b : Browser.t) : Prop :=
  forall key parsed l,
    JS.get key (Browser.sessionStorage b) = Some (Parsed parsed) ->
    Blob.pendingChanges parsed = Some l ->
    newSets_owned (JS.of_entries (Blob.newSets l)).

Definition new_sets_invariant (st : State) : Prop :=
  newSets_owned (PendingChanges.newSets (pendingChanges st))
  /\ adding_ok st
  /\ storage_owned (browser st).

(** ** A sample workout, used to run the handlers *)

Module Sample.
Definition set5 : WorkoutSet.t :=
  WorkoutSet.make (Int 5) (Int 3) 1 (Some (100 # 1)) (Some 8) None None None
                  (Some "2024-05-01T10:00:00Z").
Definition set6 : WorkoutSet.t :=
  WorkoutSet.make (Int 6) (Int 3) 2 (Some (100 # 1)) (Some 6) None None None
                  (Some "2024-05-01T10:05:00Z").
Definition bench : WorkoutExercise.t :=
  WorkoutExercise.make (Int 3) (Int 1) (Int 11) 0 "Bench Press" "Strength" "Chest"
                       "Barbell" None [set5; set6].
Definition rows : WorkoutExercise.t :=
  WorkoutExercise.make (Int 7) (Int 1) (Int 12) 1 "Barbell Row" "Strength" "Back"
                       "Barbell" None [].
Definition push_day : WorkoutSummary.t :=
  WorkoutSummary.make (Int 1) (Some "Push day") None "2024-05-01T09:55:00Z"
                      "2024-05-01T10:40:00Z" 45 (Some 3) [bench; rows].

Definition squat (e : number) : Exercise.t :=
  Exercise.make e "Squat" "Strength" "Legs" "Barbell" None.

Definition browser : Browser.t := Browser.make [] [] [] [] [].

(** The page once the workout is loaded, nothing pending. *)
Definition loaded : State :=
  mkState "1" (Some push_day) (Some push_day) false "Push day" "" "" 3 "" false
          None false false None false mode_add None PendingChanges.empty 1 false
          browser.

(** A remote store that accepts everything. *)
Definition accepting : Remote :=
  fun _ r =>
    match r with
    | GetWorkout _ _ => Response true (WorkoutBody push_day)
    | GetExercise e => Response true (ExerciseBody (squat e))
    | _ => Response true NoBody
    end.

Definition form : SetForm := mkSetForm (Some (105 # 1)) 10 None.

(** Set 5 deleted by the user. *)
Definition deleted5 : State := handleDeleteSet (Int 5) true loaded.

(** A squat is added at time 1700 (it is displayed with id -1700), then
    replaced through its menu by exercise 30. *)
Definition added : State :=
  run accepting
      [HandleAddExercise; HandleAddSelectedExercises 1700 [Int 20];
       CloseExerciseSelection] loaded.
Definition added_then_replaced : State :=
  run accepting
      [HandleReplaceExercise (Int (-1700)); HandleAddSelectedExercises 1800 [Int 30];
       CloseExerciseSelection] added.

(** A session with a change of every kind pending: the title saved, set 5
    edited, set 6 deleted, a set added to exercise 3, a squat added,
    exercise 7 deleted. *)
Definition busy : State :=
  run accepting
      [HandleSaveTitle; HandleEditSet set5; HandleUpdateSet form;
       HandleDeleteSet (Int 6) true; HandleAddSet (Int 3);
       HandleSaveNewSet form "2024-05-01T11:00:00Z"; HandleAddExercise;
       HandleAddSelectedExercises 1700 [Int 20]; CloseExerciseSelection;
       HandleDeleteExercise (Int 7) true] loaded.

(** The workout as that session displays it. *)
Definition busy_workout : WorkoutSummary.t :=
  match workout busy with Some w => w | None => push_day end.

(** A store holding the two arrays of sets of the sample workout, and the
    exercises of the workout as objects that refer to them. *)
Definition store : Store.t := [[set6; set5]; []].
Definition bench_ref : WorkoutExercise.ref := WorkoutExercise.with_sets bench 0%nat.
Definition rows_ref : WorkoutExercise.ref := WorkoutExercise.with_sets rows 1%nat.

(** The add-set dialog of exercise 3 is open. *)
Definition adding_to_bench : State := handleAddSet (Int 3) loaded.

(** A remote store that answers the creation of a set with a response that
    is not ok, and one where that request is rejected by the network. *)
Definition refusing_new_sets : Remote :=
  fun sent r =>
    match r with
    | PostSet _ _ => Response false NoBody
    | _ => accepting sent r
    end.
Definition unreachable_for_new_sets : Remote :=
  fun sent r =>
    match r with
    | PostSet _ _ => Rejected (ErrorObj "Failed to fetch")
    | _ => accepting sent r
    end.

(** A hand-off blob for workout 1: an edit of set 5 and a delete of a set 99,
    a delete of exercise 3 and a replacement of an exercise 42, a new set
    for exercise 3 and one for exercise 42, and a new exercise. *)
Definition newSetFor (e : number) : NewSet.t :=
  NewSet.make e 3 (Some (105 # 1)) (Some 10) None None None
              (Some "2024-05-01T11:00:00Z").
Definition blob : Blob.t :=
  Blob.make 1714561200000 "1"
    (Some (Blob.make_ledger
             (Some (WorkoutPatch.make (Some "Heavy push day") None None None None None))
             [(Int 5, setEditEntry form set5); (Int 99, setDeleteEntry (Int 99))]
             [(Int 3, exerciseDeleteEntry (Int 3));
              (Int 42, PendingExerciseChange.make (Int 42) PendingExerciseChange.replace
                                                  (Some (Int 30)) (Some "Squat"))]
             [("3-1", newSetFor (Int 3)); ("42-2", newSetFor (Int 42))]
             [newExerciseEntry 1700 0 (squat (Int 20))]))
    (Some 3).

(** The page coming back from the exercise picker with the blob stored. *)
Definition returning : State :=
  setBrowser (Browser.make [] [] [("workout-1-preservation", Parsed blob)] [] []) loaded.

(** The restoration has run: the valid changes are pending again. *)
Definition restored : State :=
  fetchWorkoutSummaryWithPendingPreservation accepting 1800 returning.
End Sample.

(** ** The rest of the page: save bar, statistics, formatting *)

(** [shouldShowSaveBar()]. *)
Definition shouldShowSaveBar (st : State) : bool :=
  hasPendingChanges st || isRestoring st.


(** [s] without the prefix [p], when it starts with it. *)
Fixpoint strip_prefix (p s : string) : option string :=
  match p, s with
  | EmptyString, _ => Some s
  | String a p', String b s' => if Ascii.eqb a b then strip_prefix p' s' else None
  | String _ _, EmptyString => None
  end.

(** Group 1 of the first match of [/vimeo\.com\/(\d+)/] in [s]: the search
    goes from left to right, and [\d+] takes every digit that follows. *)
Fixpoint vimeo_id (s : string) : option string :=
  let here :=
    match strip_prefix "vimeo.com/" s with
    | Some r =>
        match take_while is_digit r with
        | EmptyString => None
        | ds => Some ds
        end
    | None => None
    end in
  match here, s with
  | Some ds, _ => Some ds
  | None, String _ s' => vimeo_id s'
  | None, EmptyString => None
  end.

(** [getVimeoThumbnailUrl(videoUrl)]. *)
Definition getVimeoThumbnailUrl (videoUrl : option string) : option string :=
  if truthy_string videoUrl
  then match videoUrl with
       | Some url =>
           option_map (fun id => ("https://vumbnail.com/" ++ id ++ ".jpg")%string)
                      (vimeo_id url)
       | None => None
       end
  else None.

(** [const intensityLevels]: the value of a level and its metabolic
    equivalent. *)
Definition intensityLevels : list (Z * Z) := [(1, 2); (2, 3); (3, 5); (4, 7); (5, 9)].

(** [intensityLevels.find(level => level.value === (intensity || 3))?.met || 5]. *)
Definition metValue (intensity_level : option Z) : Z :=
  match find (fun level => fst level =? Z_or intensity_level 3) intensityLevels with
  | Some level => Z_or (Some (snd level)) 5
  | None => 5
  end.

(** [Math.round(x / d)] for integers [x] and [d > 0]: the nearest integer,
    a half going up. *)
Definition round_div (x d : Z) : Z := (2 * x + d) / (2 * d).

(** Truthiness of [number | undefined] holding an integer or a weight. *)
Definition truthy_Z (n : option Z) : bool :=
  match n with Some v => negb (v =? 0) | None => false end.
Definition truthy_Q (q : option Q) : bool :=
  match q with Some v => negb (Qeq_bool v 0) | None => false end.

(** [getDisplaySets(exercise).filter(set => !!set.completed_at)]. *)
Definition completedSets (pc : PendingChanges.t) (exercise : WorkoutExercise.t)
    : list WorkoutSet.t :=
  filter (fun s => truthy_string (WorkoutSet.completed_at s)) (getDisplaySets pc exercise).

(** What [calculateWorkoutStats()] returns. *)
Module Stats.
Record t : Type := make {
  totalVolume : Q;
  totalReps : Z;
  totalSets : Z;
  estimatedCalories : Z;
  duration : Z
}.
End Stats.

(** The statistics of the page.  Weights are doubles: their products and
    sums round, and the conversion to the display unit is a function the
    page receives from [useSettings()]; the three are parameters here. *)
Section Statistics.
Variable times : Q -> Z -> Q.
Variable plus : Q -> Q -> Q.
Variable convertWeightFromStorage : Q -> Q.

(** The body of [completedSets.forEach(set => ...)], on the three running
    totals (volume in lbs, repetitions, sets). *)
Definition count_set (acc : Q * Z) (s : WorkoutSet.t) : Q * Z :=
  let (volume, reps) := acc in
  let reps' :=
    match WorkoutSet.reps s with
    | Some r => if truthy_Z (Some r) then reps + r else reps
    | None => reps
    end in
  let volume' :=
    match WorkoutSet.weight_lbs s, WorkoutSet.reps s with
    | Some w, Some r =>
        if truthy_Q (Some w) && truthy_Z (Some r) then plus volume (times w r) else volume
    | _, _ => volume
    end in
  (volume', reps').

(** The body of [workout.exercises.forEach(exercise => ...)]. *)
Definition count_exercise (pc : PendingChanges.t) (acc : Q * Z * Z)
    (exercise : WorkoutExercise.t) : Q * Z * Z :=
  let '(volume, reps, sets) := acc in
  let completed := completedSets pc exercise in
  let (volume', reps') := fold_left count_set completed (volume, reps) in
  (volume', reps', sets + Z.of_nat (List.length completed)).

(** [calculateWorkoutStats()]. *)
Definition calculateWorkoutStats (st : State) : Stats.t :=
  match workout st with
  | None => Stats.make 0 0 0 0 0
  | Some w =>
      let '(totalVolumeInLbs, totalReps, totalSets) :=
        fold_left (count_exercise (pendingChanges st)) (WorkoutSummary.exercises w)
                  (0%Q, 0, 0) in
      let duration := Z_or (Some (WorkoutSummary.duration_minutes w)) 0 in
      Stats.make (convertWeightFromStorage totalVolumeInLbs) totalReps totalSets
                 (round_div (metValue (WorkoutSummary.intensity_level w) * 70 * duration) 60)
                 duration
  end.
End Statistics.

(** ** The exercise picker ([ExerciseSelectionModal]) *)

Module Picker.
(** The cells of the picker that its selection handlers read and write:
    [selectedExercises] (a [Set], in insertion order) and [addingExercises]. *)
Record t : Type := make {
  selectedExercises : list number;
  addingExercises : bool
}.

(** [set.delete(x)]. *)
Definition Set_delete (x : number) (s : list number) : list number :=
  filter (fun y => if eq_key x y then false else true) s.

(** [toggleSelectExercise(exerciseId)]. *)
Definition toggleSelectExercise (exerciseId : number) (p : t) : t :=
  let prev := selectedExercises p in
  let newSelected :=
    if ids_has prev exerciseId then Set_delete exerciseId prev else prev ++ [exerciseId] in
  make newSelected (addingExercises p).

(** [handleAddSelectedExercises()] of the picker, with its two props: the
    selection is handed to [onAddExercises] as [Array.from(selectedExercises)],
    then the selection is cleared and [onClose] called; [addingExercises] is
    set on entry and reset in the [finally].  The picker does not await
    [onAddExercises]: the handler of the page completes after [onClose] has
    run.  That handler reads the cells of the page from the render it was
    created in and writes the ledger (by a functional update) and the
    browser only, cells that [onClose] does not touch, so the state reached
    is the one of the handler followed by [onClose]. *)
Definition handleAddSelectedExercises {S : Type} (onAddExercises : list number -> S -> S)
    (onClose : S -> S) (p : t) (page : S) : t * S :=
  match selectedExercises p with
  | [] => (p, page)
  | selected => (make [] false, onClose (onAddExercises selected page))
  end.

(** The selection after a series of clicks on exercises. *)
Definition toggles (clicks : list number) (p : t) : t :=
  fold_left (fun q x => toggleSelectExercise x q) clicks p.
End Picker.


(** ** Notions used in the statements (continued) *)

(** The header fields of a workout. *)
Definition same_header (a b : WorkoutSummary.t) : Prop :=
  WorkoutSummary.id a = WorkoutSummary.id b
  /\ WorkoutSummary.name a = WorkoutSummary.name b
  /\ WorkoutSummary.notes a = WorkoutSummary.notes b
  /\ WorkoutSummary.started_at a = WorkoutSummary.started_at b
  /\ WorkoutSummary.completed_at a = WorkoutSummary.completed_at b
  /\ WorkoutSummary.duration_minutes a = WorkoutSummary.duration_minutes b
  /\ WorkoutSummary.intensity_level a = WorkoutSummary.intensity_level b.

(** The header the page displays is the header of the snapshot with the
    pending header patch laid over it. *)
Definition header_overlaid (st : State) : Prop :=
  exists o w,
    originalWorkout st = Some o /\ workout st = Some w
    /\ same_header w (WorkoutPatch.apply o (patch_of (PendingChanges.workout (pendingChanges st)))).

(** [parts.join(sep)]. *)
Fixpoint join_with (sep : string) (parts : list string) : string :=
  match parts with
  | [] => ""
  | [p] => p
  | p :: ps => (p ++ sep ++ join_with sep ps)%string
  end.

(** The distinct elements of a list, by first occurrence. *)
Definition distinct (xs : list string) : list string := unique xs [].

(** The number of times [x] was clicked. *)
Definition clicks_on (x : number) (clicks : list number) : nat :=
  List.length (filter (fun y => if eq_key x y then true else false) clicks).

(** Every new set of the ledger carries a temporary id below [counter]. *)
Definition newSets_below (counter : Z) (m : jsmap string NewSet.t) : Prop :=
  forall key d,
    In (key, d) m ->
    exists e t, 0 <= e /\ t < counter /\ key = newSetKey (Int e) t.

(** The same for the blobs in [sessionStorage], each against the counter
    it carries. *)
Definition storage_below (b : Browser.t) : Prop :=
  forall key parsed l,
    JS.get key (Browser.sessionStorage b) = Some (Parsed parsed) ->
    Blob.pendingChanges parsed = Some l ->
    exists c, Blob.tempSetIdCounter parsed = Some c /\ c <> 0
              /\ newSets_below c (JS.of_entries (Blob.newSets l)).

Definition counter_invariant (st : State) : Prop :=
  newSets_below (tempSetIdCounter st) (PendingChanges.newSets (pendingChanges st))
  /\ adding_ok st
  /\ storage_below (browser st).

(** The repetitions a set counts for in the statistics ([set.reps || 0]). *)
Definition counted_reps (s : WorkoutSet.t) : Z :=
  match WorkoutSet.reps s with
  | Some r => r
  | None => 0
  end.

(** What follows a run of digits: nothing, or a character that is no
    digit. *)
Definition stops (rest : string) : Prop :=
  match rest with
  | EmptyString => True
  | String c _ => is_digit c = false
  end.

(** The character [c] does not occur in [s]. *)
Fixpoint without_char (c : ascii) (s : string) : Prop :=
  match s with
  | EmptyString => True
  | String a s' => a <> c /\ without_char c s'
  end.
(* ================================================================== *)
(** * Part II: properties *)
(* ================================================================== *)

(** ** Insertion-ordered maps *)

Section JsMapFacts.
Context {K V : Type} `{EqKey K}.
Implicit Types (k : K) (v : V) (m : jsmap K V).

Lemma get_set_same k v m : JS.get k (JS.set k v m) = Some v.
Proof.
  induction m as [|[k' v'] m IH]; simpl.
  - destruct (eq_key k k); congruence.
  - destruct (eq_key k k') as [->|Hne]; simpl.
    + destruct (eq_key k' k'); congruence.
    + destruct (eq_key k k'); [contradiction|exact IH].
Qed.

Lemma get_set_other k k' v m : k <> k' -> JS.get k' (JS.set k v m) = JS.get k' m.
Proof.
  intros Hne. induction m as [|[k0 v0] m IH]; simpl.
  - destruct (eq_key k' k); congruence.
  - destruct (eq_key k k0) as [->|Hk]; simpl.
    + destruct (eq_key k' k0); congruence.
    + destruct (eq_key k' k0); [reflexivity|exact IH].
Qed.

Lemma get_None_keys k m : JS.get k m = None <-> ~ In k (JS.keys m).
Proof.
  induction m as [|[k' v'] m IH]; simpl.
  - tauto.
  - destruct (eq_key k k') as [->|Hne].
    + split; [discriminate|intros Hn; exfalso; apply Hn; now left].
    + rewrite IH. split.
      * intros Hn [E|Hin]; [congruence|tauto].
      * tauto.
Qed.

Lemma get_Some_In k v m : JS.get k m = Some v -> In (k, v) m.
Proof.
  induction m as [|[k' v'] m IH]; simpl; [discriminate|].
  destruct (eq_key k k') as [->|Hne].
  - intros [= ->]. now left.
  - intros Hg. right. auto.
Qed.

Lemma In_get_unique k v m : unique_keys m -> In (k, v) m -> JS.get k m = Some v.
Proof.
  unfold unique_keys. induction m as [|[k' v'] m IH]; simpl; [tauto|].
  intros Hnd [E|Hin]; inversion Hnd as [|? ? Hni Hnd']; subst.
  - inversion E; subst. destruct (eq_key k k); congruence.
  - destruct (eq_key k k') as [->|Hne]; [|auto].
    exfalso. apply Hni. change k' with (fst (k', v)). now apply in_map.
Qed.

Lemma keys_set k v m :
  JS.keys (JS.set k v m) = if JS.has k m then JS.keys m else JS.keys m ++ [k].
Proof.
  unfold JS.has. induction m as [|[k' v'] m IH]; simpl; [reflexivity|].
  destruct (eq_key k k') as [->|Hne]; simpl; [reflexivity|].
  rewrite IH. now destruct (JS.get k m).
Qed.

Lemma unique_set k v m : unique_keys m -> unique_keys (JS.set k v m).
Proof.
  unfold unique_keys. intros Hnd. rewrite keys_set. unfold JS.has.
  destruct (JS.get k m) eqn:Hg; [exact Hnd|].
  apply get_None_keys in Hg.
  apply NoDup_app; [exact Hnd|repeat constructor; simpl; tauto|].
  intros x Hx [<-|[]]. contradiction.
Qed.

Lemma keys_delete_incl k m x : In x (JS.keys (JS.delete k m)) -> In x (JS.keys m) /\ x <> k.
Proof.
  induction m as [|[k' v'] m IH]; simpl; [tauto|].
  destruct (eq_key k k') as [->|Hne]; simpl.
  - intros Hin. destruct (IH Hin). tauto.
  - intros [<-|Hin]; [split; [now left|congruence]|]. destruct (IH Hin). tauto.
Qed.

Lemma unique_delete k m : unique_keys m -> unique_keys (JS.delete k m).
Proof.
  unfold unique_keys. induction m as [|[k' v'] m IH]; simpl; [trivial|].
  intros Hnd. inversion Hnd as [|? ? Hni Hnd']; subst.
  destruct (eq_key k k'); simpl; [auto|].
  constructor; [|auto]. intros Hin. apply keys_delete_incl in Hin. tauto.
Qed.

Lemma get_delete_same k m : JS.get k (JS.delete k m) = None.
Proof.
  induction m as [|[k' v'] m IH]; simpl; [reflexivity|].
  destruct (eq_key k k') as [->|Hne]; simpl; [exact IH|].
  destruct (eq_key k k'); [contradiction|exact IH].
Qed.

Lemma get_delete_other k k' m : k <> k' -> JS.get k' (JS.delete k m) = JS.get k' m.
Proof.
  intros Hne. induction m as [|[k0 v0] m IH]; simpl; [reflexivity|].
  destruct (eq_key k k0) as [->|Hk]; simpl.
  - destruct (eq_key k' k0); [congruence|exact IH].
  - destruct (eq_key k' k0); [reflexivity|exact IH].
Qed.

(** With unique keys, the entries for a key are the one [get] finds. *)
Lemma entries_for_get k m :
  unique_keys m ->
  entries_for k m = match JS.get k m with Some v => [(k, v)] | None => [] end.
Proof.
  unfold unique_keys, entries_for.
  induction m as [|[k' v'] m IH]; simpl; [reflexivity|].
  intros Hnd. inversion Hnd as [|? ? Hni Hnd']; subst.
  destruct (eq_key k k') as [->|Hne].
  - f_equal. rewrite (IH Hnd').
    destruct (JS.get k' m) eqn:Hg; [|reflexivity].
    exfalso. apply Hni. apply get_Some_In in Hg.
    change k' with (fst (k', v)). now apply in_map.
  - auto.
Qed.

Lemma entries_for_length k m : unique_keys m -> (List.length (entries_for k m) <= 1)%nat.
Proof.
  intros Hu. rewrite (entries_for_get k m Hu). destruct (JS.get k m); simpl; lia.
Qed.

(** A fold of [set]s keeps the keys unique: [new Map(entries)] and the
    filtering loops of the restoration. *)
Lemma unique_fold_set (P : K -> bool) (es : list (K * V)) acc :
  unique_keys acc ->
  unique_keys (fold_left (fun a kv => if P (fst kv) then JS.set (fst kv) (snd kv) a else a)
                         es acc).
Proof.
  revert acc. induction es as [|[k v] es IH]; simpl; intros acc Hu; [exact Hu|].
  apply IH. destruct (P k); [now apply unique_set|exact Hu].
Qed.

Lemma unique_of_entries (es : list (K * V)) : unique_keys (JS.of_entries es).
Proof.
  unfold JS.of_entries.
  apply (unique_fold_set (fun _ => true) es []). constructor.
Qed.

Lemma unique_keep_valid (P : K -> bool) m : unique_keys (keep_valid P m).
Proof. unfold keep_valid. apply unique_fold_set. constructor. Qed.

(** On a map with unique keys, a fold of [set]s from the empty map that
    skips the keys failing [P] is the filter by [P]. *)
Lemma fold_set_fresh (P : K -> bool) (es : list (K * V)) acc :
  unique_keys (acc ++ es) ->
  fold_left (fun a kv => if P (fst kv) then JS.set (fst kv) (snd kv) a else a) es acc
  = acc ++ filter (fun kv => P (fst kv)) es.
Proof.
  unfold unique_keys, JS.keys.
  revert acc. induction es as [|[k v] es IH]; simpl; intros acc Hu.
  - now rewrite app_nil_r.
  - destruct (P k) eqn:HP.
    + assert (Hset : JS.set k v acc = acc ++ [(k, v)]).
      { rewrite map_app in Hu. simpl in Hu. apply NoDup_remove_2 in Hu.
        assert (Hni : ~ In k (map fst acc)) by (intros Hin; apply Hu, in_or_app; now left).
        clear -Hni. induction acc as [|[k' v'] acc IHa]; simpl; [reflexivity|].
        destruct (eq_key k k') as [->|Hne]; [exfalso; apply Hni; now left|].
        f_equal. apply IHa. intros Hin. apply Hni. now right. }
      rewrite Hset, IH; [now rewrite <- app_assoc|].
      now rewrite <- app_assoc.
    + apply IH. rewrite map_app in *. simpl in Hu.
      eapply NoDup_remove_1; exact Hu.
Qed.

Lemma keep_valid_filter (P : K -> bool) m :
  unique_keys m -> keep_valid P m = filter (fun kv => P (fst kv)) m.
Proof. intros Hu. unfold keep_valid. now rewrite fold_set_fresh. Qed.

Lemma of_entries_unique m : unique_keys m -> JS.of_entries m = m.
Proof.
  intros Hu. unfold JS.of_entries.
  rewrite (fold_set_fresh (fun _ => true) m []); [|exact Hu].
  simpl. clear Hu. induction m as [|a m IH]; simpl; congruence.
Qed.

Lemma get_filter_key (P : K -> bool) k m :
  JS.get k (filter (fun kv => P (fst kv)) m) = if P k then JS.get k m else None.
Proof.
  induction m as [|[k' v'] m IH]; simpl; [now destruct (P k)|].
  destruct (P k') eqn:HP'; simpl.
  - destruct (eq_key k k') as [->|Hne]; [now rewrite HP'|exact IH].
  - destruct (eq_key k k') as [->|Hne]; [now rewrite IH, HP'|exact IH].
Qed.
End JsMapFacts.

(** ** Decimal keys: printing, splitting and parsing *)

Lemma digits_string_of_uint u : digits (NilEmpty.string_of_uint u) = true.
Proof. induction u; simpl; auto. Qed.

(** The decimal form of a non-negative integer: digits, at least one. *)
Lemma showZ_nonneg z :
  0 <= z ->
  exists u, u <> Decimal.Nil /\ showZ z = NilEmpty.string_of_uint u /\ Z.of_uint u = z.
Proof.
  intros Hz. unfold showZ. destruct z as [|p|p]; [| |lia].
  - exists (Decimal.D0 Decimal.Nil). repeat split. discriminate.
  - exists (Pos.to_uint p). split; [apply DecimalPos.Unsigned.to_uint_nonnil|].
    split.
    + simpl. unfold NilZero.string_of_uint.
      pose proof (DecimalPos.Unsigned.to_uint_nonnil p) as Hn.
      destruct (Pos.to_uint p); [congruence|reflexivity..].
    + unfold Z.of_uint. now rewrite DecimalPos.Unsigned.of_to.
Qed.

Lemma showZ_digits z : 0 <= z -> digits (showZ z) = true.
Proof.
  intros Hz. destruct (showZ_nonneg z Hz) as (u & _ & -> & _).
  apply digits_string_of_uint.
Qed.

Lemma showZ_nonempty z : showZ z <> EmptyString.
Proof.
  unfold showZ. destruct z as [|p|p]; simpl; try discriminate.
  unfold NilZero.string_of_uint.
  pose proof (DecimalPos.Unsigned.to_uint_nonnil p) as Hn.
  destruct (Pos.to_uint p); simpl; congruence.
Qed.

Lemma showZ_inj a b : showZ a = showZ b -> a = b.
Proof.
  unfold showZ. intros E. apply DecimalZ.to_int_inj.
  assert (Hn : forall z, Z.to_int z <> Decimal.Pos Decimal.Nil
                         /\ Z.to_int z <> Decimal.Neg Decimal.Nil).
  { intros [|p|p]; simpl; split; try discriminate;
      intros [= Hp]; now apply (DecimalPos.Unsigned.to_uint_nonnil p). }
  pose proof (NilZero.isi (Z.to_int a) (proj1 (Hn a)) (proj2 (Hn a))) as Ha.
  pose proof (NilZero.isi (Z.to_int b) (proj1 (Hn b)) (proj2 (Hn b))) as Hb.
  rewrite E in Ha. congruence.
Qed.

Lemma take_digits_app d rest :
  digits d = true -> ends_part rest -> take_while is_digit (d ++ rest)%string = d.
Proof.
  intros Hd Hr. induction d as [|c d IH]; simpl in *.
  - destruct Hr as [->|[r ->]]; reflexivity.
  - apply andb_true_iff in Hd as [Hc Hd]. rewrite Hc. f_equal. auto.
Qed.

Lemma digit_not_special c :
  is_digit c = true ->
  is_ws c = false /\ c <> "-"%char /\ c <> "+"%char /\ c <> "x"%char /\ c <> "X"%char.
Proof.
  destruct c as [[] [] [] [] [] [] [] []]; vm_compute; intros Hd;
    try discriminate Hd; repeat split; discriminate.
Qed.

Lemma parse_decimal_app u rest :
  u <> Decimal.Nil -> ends_part rest ->
  parse_decimal (NilEmpty.string_of_uint u ++ rest) = Some (Z.of_uint u).
Proof.
  intros Hu Hr. unfold parse_decimal.
  rewrite take_digits_app by (auto using digits_string_of_uint).
  pose proof (NilEmpty.usu u) as Hr'.
  destruct (NilEmpty.string_of_uint u) as [|c s] eqn:Es.
  - destruct u; simpl in Es; congruence.
  - now rewrite Hr'.
Qed.

(** [parseInt] reads back the decimal form of a non-negative integer, also
    when the separator and more text follow. *)
Lemma parseInt_showZ_app z rest :
  0 <= z -> ends_part rest -> parseInt (showZ z ++ rest) = Int z.
Proof.
  intros Hz Hr. destruct (showZ_nonneg z Hz) as (u & Hu & E & Hv).
  pose proof (digits_string_of_uint u) as Hd.
  rewrite E. unfold parseInt.
  destruct (NilEmpty.string_of_uint u) as [|c d] eqn:Es.
  { destruct u; simpl in Es; congruence. }
  simpl in Hd. apply andb_true_iff in Hd as [Hc Hd].
  destruct (digit_not_special c Hc) as (Hws & Hm & Hp & _).
  simpl. rewrite Hws. unfold parse_sign.
  assert (Hsign : (match c with
                   | "-"%char => (true, (d ++ rest)%string)
                   | "+"%char => (false, (d ++ rest)%string)
                   | _ => (false, String c (d ++ rest))
                   end) = (false, String c (d ++ rest))).
  { destruct c as [[] [] [] [] [] [] [] []]; try reflexivity; congruence. }
  rewrite Hsign.
  assert (Hmag : parse_magnitude (String c (d ++ rest)) = parse_decimal (String c (d ++ rest))).
  { unfold parse_magnitude.
    destruct (d ++ rest)%string as [|x r] eqn:Edr.
    - destruct c as [[] [] [] [] [] [] [] []]; reflexivity.
    - assert (Hx : (Ascii.eqb x "x" || Ascii.eqb x "X")%bool = false).
      { destruct d as [|c' d']; simpl in Edr.
        - destruct Hr as [->|[r' ->]]; [discriminate|]. inversion Edr; subst. reflexivity.
        - inversion Edr; subst. simpl in Hd. apply andb_true_iff in Hd as [Hc' _].
          destruct (digit_not_special x Hc') as (_ & _ & _ & Hx1 & Hx2).
          apply orb_false_iff. split; apply Ascii.eqb_neq; assumption. }
      rewrite Hx. destruct c as [[] [] [] [] [] [] [] []]; reflexivity. }
  rewrite Hmag.
  change (String c (d ++ rest)) with ((String c d) ++ rest)%string.
  rewrite <- Es, parse_decimal_app by assumption. now rewrite Hv.
Qed.

Lemma parseInt_showZ z : 0 <= z -> parseInt (showZ z) = Int z.
Proof.
  intros Hz. rewrite <- (parseInt_showZ_app z EmptyString Hz); [|now left].
  f_equal. clear. induction (showZ z); simpl; congruence.
Qed.

Lemma split_digits d : digits d = true -> split "-" d = [d].
Proof.
  induction d as [|c d IH]; simpl; [reflexivity|].
  intros H. apply andb_true_iff in H as [Hc Hd].
  destruct (digit_not_special c Hc) as (_ & Hm & _).
  apply Ascii.eqb_neq in Hm. rewrite Hm, (IH Hd). reflexivity.
Qed.

Lemma split_digits_app d r :
  digits d = true -> split "-" (d ++ String "-" r) = d :: split "-" r.
Proof.
  induction d as [|c d IH]; simpl; [reflexivity|].
  intros H. apply andb_true_iff in H as [Hc Hd].
  destruct (digit_not_special c Hc) as (_ & Hm & _).
  apply Ascii.eqb_neq in Hm. rewrite Hm, (IH Hd). reflexivity.
Qed.

(** The two parts of a key built by [newSetKey]. *)
Lemma split_newSetKey e t :
  0 <= e -> 0 <= t -> split "-" (newSetKey (Int e) t) = [showZ e; showZ t].
Proof.
  intros He Ht. unfold newSetKey. simpl.
  rewrite split_digits_app by now apply showZ_digits.
  now rewrite split_digits by now apply showZ_digits.
Qed.

(** The owner read from a key by the restoration is the exercise id the key
    was built from. *)
Lemma newSetOwner_newSetKey e t : 0 <= e -> newSetOwner (newSetKey (Int e) t) = Int e.
Proof.
  intros He. unfold newSetOwner, newSetKey, parseInt_part. simpl.
  rewrite split_digits_app by now apply showZ_digits. simpl.
  now apply parseInt_showZ.
Qed.

Lemma prefix_iff p s : String.prefix p s = true <-> exists r, s = (p ++ r)%string.
Proof.
  revert s. induction p as [|a p IH]; intros s.
  - split; [intros _; now exists s|]. now destruct s.
  - destruct s as [|b s]; cbn [String.prefix append].
    + split; [discriminate|intros [r [=]]].
    + destruct (ascii_dec a b) as [->|Hne].
      * rewrite IH. split; intros [r Hr]; exists r; congruence.
      * split; [discriminate|intros [r [= ? _]]; congruence].
Qed.

Lemma digits_sep_eq d d' r r' :
  digits d = true -> digits d' = true ->
  (d ++ String "-" r = d' ++ String "-" r')%string -> d = d'.
Proof.
  revert d'. induction d as [|c d IH]; intros [|c' d'] Hd Hd' E; cbn [append] in E.
  - reflexivity.
  - injection E as E1 _. cbn [digits] in Hd'. apply andb_true_iff in Hd' as [Hc' _].
    destruct (digit_not_special c' Hc') as (_ & Hm & _). congruence.
  - injection E as E1 _. cbn [digits] in Hd. apply andb_true_iff in Hd as [Hc _].
    destruct (digit_not_special c Hc) as (_ & Hm & _). congruence.
  - injection E as E1 E2. cbn [digits] in Hd, Hd'.
    apply andb_true_iff in Hd as [_ Hd]. apply andb_true_iff in Hd' as [_ Hd'].
    f_equal; eauto.
Qed.

Lemma append_assoc_string (a b c : string) : ((a ++ b) ++ c = a ++ (b ++ c))%string.
Proof. induction a as [|x a IH]; cbn [append]; congruence. Qed.

(** A key built for exercise [e] is selected by [getDisplaySets] for the
    exercise with that id and for no other. *)
Lemma new_set_of_newSetKey x e t d :
  0 <= e -> new_set_of x (newSetKey (Int e) t, d) = true <-> x = Int e.
Proof.
  intros He. unfold new_set_of, startsWith, newSetKey. cbn [fst toString].
  rewrite prefix_iff. split.
  - intros [r Hr]. rewrite append_assoc_string in Hr. cbn [append] in Hr.
    pose proof (showZ_digits e He) as Hd.
    destruct x as [|e'].
    + destruct (showZ e) as [|c s] eqn:Es; [now apply showZ_nonempty in Es|].
      cbn [append digits] in Hr, Hd. injection Hr as -> _. discriminate Hd.
    + destruct (Z.lt_ge_cases e' 0) as [Hneg|Hpos].
      * exfalso. destruct (showZ e) as [|c s] eqn:Es; [now apply showZ_nonempty in Es|].
        destruct e' as [|p|p]; try lia.
        cbn [append digits] in Hr, Hd. unfold showZ in Hr. cbn in Hr.
        injection Hr as -> _. discriminate Hd.
      * f_equal. apply showZ_inj.
        eapply digits_sep_eq; [| |symmetry; exact Hr]; now apply showZ_digits.
  - intros ->. exists (showZ t). rewrite append_assoc_string. reflexivity.
Qed.

(** ** The ledger holds one entry per key *)

Lemma ledger_unique_empty : ledger_unique PendingChanges.empty.
Proof. repeat split; constructor. Qed.

Lemma ledger_unique_reconcile saved data : ledger_unique (reconcile saved data).
Proof. repeat split; apply unique_keep_valid. Qed.

(** Case analysis on the tests a handler makes. *)
Ltac break_match :=
  match goal with
  | |- context [match ?x with _ => _ end] =>
      let E := fresh "E" in destruct x eqn:E
  | |- context [if ?x then _ else _] =>
      let E := fresh "E" in destruct x eqn:E
  end.

Ltac break_match_hyp H :=
  match type of H with
  | context [match ?x with _ => _ end] =>
      let E := fresh "E" in destruct x eqn:E
  | context [if ?x then _ else _] =>
      let E := fresh "E" in destruct x eqn:E
  end.

Ltac unique_tac :=
  repeat break_match; cbn;
  try assumption;
  try apply ledger_unique_empty;
  try apply ledger_unique_reconcile;
  try (match goal with
       | H : ledger_unique _ |- _ =>
           let a := fresh in let b := fresh in let c := fresh in let d := fresh in
           destruct H as (a & b & c & d); cbn in a, b, c, d;
           repeat split; cbn;
           auto using @unique_set, @unique_delete, @unique_of_entries
       end).

Lemma ledger_unique_header q st :
  ledger_unique (pendingChanges st) -> ledger_unique (pendingChanges (recordHeaderPatch q st)).
Proof. intros H. exact H. Qed.

Lemma ledger_unique_fetchWorkoutSummary remote st :
  ledger_unique (pendingChanges st) ->
  ledger_unique (pendingChanges (fetchWorkoutSummary remote st)).
Proof. intros H. unfold fetchWorkoutSummary, Browser.fetch. unique_tac. Qed.

Lemma ledger_unique_step remote a st :
  ledger_unique (pendingChanges st) -> ledger_unique (pendingChanges (step remote a st)).
Proof.
  intros H. destruct a; cbn [step].
  - exact H.
  - exact H.
  - exact H.
  - unfold handleSaveDuration. unique_tac.
  - exact H.
  - unfold handleUpdateSet. unique_tac.
  - unfold handleDeleteExercise. unique_tac.
  - unfold handleDeleteSet. unique_tac.
  - unfold handleAddExercise. unique_tac.
  - unfold handleReplaceExercise. unique_tac.
  - exact H.
  - unfold handleAddSelectedExercises. unique_tac.
  - unfold handleAddSet. unique_tac.
  - unfold handleSaveNewSet. unique_tac.
  - unfold handleSaveAllChanges. repeat break_match; cbn -[fetchWorkoutSummary];
      try assumption.
    apply ledger_unique_fetchWorkoutSummary, ledger_unique_empty.
  - unfold handleDiscardChanges. unique_tac.
  - now apply ledger_unique_fetchWorkoutSummary.
  - unfold fetchWorkoutSummaryWithPendingPreservation, Browser.fetch. unique_tac.
  - exact H.
Qed.

Lemma ledger_unique_run remote actions st :
  ledger_unique (pendingChanges st) ->
  ledger_unique (pendingChanges (run remote actions st)).
Proof.
  unfold run. revert st. induction actions as [|a l IH]; intros st H; simpl.
  - exact H.
  - apply IH. now apply ledger_unique_step.
Qed.

(** C8.  Every recording keeps one entry per id, and the latest write is the
    entry: from a ledger without repeated keys, whatever happens next leaves
    at most one entry per set id and per exercise id; a delete of a set
    leaves exactly the delete entry for its id (whatever was pending for
    it, an edit included), an edit exactly the edit entry, and a delete of
    a persisted exercise exactly the delete entry. *)
Theorem ledger_one_entry_per_id (remote : Remote) (st : State) :
  ledger_unique (pendingChanges st) ->
  (forall a k,
      (List.length (entries_for k (PendingChanges.sets (pendingChanges (step remote a st))))
       <= 1)%nat
      /\ (List.length
            (entries_for k (PendingChanges.exercises (pendingChanges (step remote a st))))
          <= 1)%nat)
  /\ (forall setId,
         workout st <> None ->
         entries_for setId
           (PendingChanges.sets (pendingChanges (handleDeleteSet setId true st)))
         = [(setId, setDeleteEntry setId)])
  /\ (forall f editing,
         editingSet st = Some editing ->
         entries_for (WorkoutSet.id editing)
           (PendingChanges.sets (pendingChanges (handleUpdateSet f st)))
         = [(WorkoutSet.id editing, setEditEntry f editing)])
  /\ (forall exerciseId,
         workout st <> None -> lt0 exerciseId = false ->
         entries_for exerciseId
           (PendingChanges.exercises
              (pendingChanges (handleDeleteExercise exerciseId true st)))
         = [(exerciseId, exerciseDeleteEntry exerciseId)]).
Proof.
  intros Hu. split; [|split; [|split]].
  - intros a k.
    destruct (ledger_unique_step remote a st Hu) as (Hs & He & _).
    split; now apply entries_for_length.
  - intros setId Hw.
    pose proof (ledger_unique_step remote (HandleDeleteSet setId true) st Hu) as (Hs & _).
    cbn [step] in Hs. rewrite entries_for_get by exact Hs.
    unfold handleDeleteSet. destruct (workout st); [|congruence].
    cbn. now rewrite get_set_same.
  - intros f editing He.
    pose proof (ledger_unique_step remote (HandleUpdateSet f) st Hu) as (Hs & _).
    cbn [step] in Hs. rewrite entries_for_get by exact Hs.
    unfold handleUpdateSet. rewrite He. cbn. now rewrite get_set_same.
  - intros exerciseId Hw Hneg.
    pose proof (ledger_unique_step remote (HandleDeleteExercise exerciseId true) st Hu)
      as (_ & He & _).
    cbn [step] in He. rewrite entries_for_get by exact He.
    unfold handleDeleteExercise. destruct (workout st); [|congruence].
    rewrite Hneg. cbn. now rewrite get_set_same.
Qed.

(** The statement above at the sample workout with an edit of set 5
    pending: deleting set 5 leaves the delete alone. *)
Lemma ledger_one_entry_per_id_witness :
  entries_for (Int 5)
    (PendingChanges.sets
       (pendingChanges
          (handleDeleteSet (Int 5) true
             (handleUpdateSet Sample.form (handleEditSet Sample.set5 Sample.loaded)))))
  = [(Int 5, setDeleteEntry (Int 5))].
Proof.
  refine (proj1 (proj2 (ledger_one_entry_per_id Sample.accepting
            (handleUpdateSet Sample.form (handleEditSet Sample.set5 Sample.loaded)) _))
            (Int 5) _).
  - repeat split; repeat constructor; simpl; tauto.
  - discriminate.
Defined.

(** ** Editing a set whose delete is pending *)

(** C4, as stated, fails on [handleUpdateSet]: with the delete of set 5
    pending, updating set 5 replaces the delete entry by the edit entry. *)
Lemma edit_after_delete_overwrites :
  JS.get (Int 5) (PendingChanges.sets (pendingChanges Sample.deleted5))
  = Some (setDeleteEntry (Int 5))
  /\ JS.get (Int 5)
       (PendingChanges.sets
          (pendingChanges
             (handleUpdateSet Sample.form (handleEditSet Sample.set5 Sample.deleted5))))
     = Some (setEditEntry Sample.form Sample.set5).
Proof. split; reflexivity. Qed.

Lemma isPendingDelete_iff pc s :
  isPendingDelete pc s = true <-> pendingSetDelete pc (WorkoutSet.id s).
Proof.
  unfold isPendingDelete, pendingSetDelete, JS.has.
  destruct (JS.get (WorkoutSet.id s) (PendingChanges.sets pc)) as [c|]; simpl.
  - split; [intros Hd; now exists c|intros (c' & [= <-] & Hd); exact Hd].
  - split; [discriminate|intros (c' & [=] & _)].
Qed.

(** C4, amended.  [handleUpdateSet] makes no test on what is pending: it
    always leaves the edit entry for the edited id.  What keeps an edit
    away from a set whose delete is pending is the render: such a set has no
    options menu, hence no Edit button; and a set of the workout whose
    delete is pending is not displayed at all. *)
Theorem edit_after_delete_gated :
  (forall f st editing,
      editingSet st = Some editing ->
      JS.get (WorkoutSet.id editing)
             (PendingChanges.sets (pendingChanges (handleUpdateSet f st)))
      = Some (setEditEntry f editing))
  /\ (forall pc exercise s,
         In s (setsWithMenu pc exercise) -> ~ pendingSetDelete pc (WorkoutSet.id s))
  /\ (forall pc exercise s,
         In s (filter (not_set_deleted pc)
                      (map (apply_set_edit pc) (WorkoutExercise.sets exercise))) ->
         ~ pendingSetDelete pc (WorkoutSet.id s)).
Proof.
  split; [|split].
  - intros f st editing He. unfold handleUpdateSet. rewrite He. cbn.
    now rewrite get_set_same.
  - intros pc exercise s Hin Hd. unfold setsWithMenu in Hin.
    apply filter_In in Hin as [_ Hm]. unfold setMenuOffered in Hm.
    apply isPendingDelete_iff in Hd. rewrite Hd in Hm. discriminate.
  - intros pc exercise s Hin (c & Hg & Hd).
    apply filter_In in Hin as [_ Hn]. unfold not_set_deleted in Hn.
    rewrite Hg, Hd in Hn. discriminate.
Qed.

(** The menu test at the sample workout: with the delete of set 5 pending, the
    sets of the bench press that show a menu are set 6 alone. *)
Lemma edit_after_delete_gated_witness :
  setsWithMenu (pendingChanges Sample.deleted5) Sample.bench = [Sample.set6]
  /\ ~ pendingSetDelete (pendingChanges Sample.deleted5) (WorkoutSet.id Sample.set6).
Proof.
  split; [reflexivity|].
  apply (proj1 (proj2 edit_after_delete_gated) _ Sample.bench). now left.
Defined.

(** ** Pending-new exercises *)

(** C9.  [handleAddSet] on a negative exercise id only raises the alert: the
    ledger, the target of the add-set dialog and the dialog flag stay as
    they were, so that a following [handleSaveNewSet] (the dialog being
    closed) records nothing. *)
Theorem add_set_to_pending_exercise_rejected (exerciseId : number) (st : State) :
  lt0 exerciseId = true ->
  handleAddSet exerciseId st
  = alert "Please save all changes first before adding sets to new exercises." st
  /\ pendingChanges (handleAddSet exerciseId st) = pendingChanges st
  /\ addingSetToExercise (handleAddSet exerciseId st) = addingSetToExercise st
  /\ showAddSetDialog (handleAddSet exerciseId st) = showAddSetDialog st
  /\ (forall f nowIso,
         addingSetToExercise st = None ->
         pendingChanges (handleSaveNewSet f nowIso (handleAddSet exerciseId st))
         = pendingChanges st).
Proof.
  intros Hneg. unfold handleAddSet. rewrite Hneg.
  repeat split. intros f nowIso Hnone.
  unfold handleSaveNewSet. cbn. now rewrite Hnone.
Qed.

(** At the sample workout with a squat pending (displayed with id -1700). *)
Lemma add_set_to_pending_exercise_rejected_witness :
  PendingChanges.newSets
    (pendingChanges
       (handleSaveNewSet Sample.form "2024-05-01T11:00:00Z"
          (handleAddSet (Int (-1700)) Sample.added)))
  = [].
Proof.
  pose proof (add_set_to_pending_exercise_rejected (Int (-1700)) Sample.added eq_refl)
    as (_ & _ & _ & _ & H).
  rewrite (H Sample.form "2024-05-01T11:00:00Z" eq_refl). reflexivity.
Defined.

(** Deleting a pending-new exercise removes the entry of [newExercises]
    keyed by the decimal form of the absolute value of its id, and records
    nothing in [exercises]. *)
Lemma delete_pending_exercise_removes_create exerciseId st :
  workout st <> None -> lt0 exerciseId = true ->
  pendingChanges (handleDeleteExercise exerciseId true st)
  = PendingChanges.with_newExercises (pendingChanges st)
      (JS.delete (toString (JS.abs exerciseId))
                 (PendingChanges.newExercises (pendingChanges st)))
  /\ JS.get (toString (JS.abs exerciseId))
            (PendingChanges.newExercises
               (pendingChanges (handleDeleteExercise exerciseId true st)))
     = None.
Proof.
  intros Hw Hneg. unfold handleDeleteExercise.
  destruct (workout st); [|congruence]. rewrite Hneg. cbn.
  split; [reflexivity|apply get_delete_same].
Qed.

(** The id under which a new exercise is displayed leads back to its key. *)
Lemma new_exercise_key_roundtrip now index exercise :
  0 < now + Z.of_nat index ->
  toString (JS.abs (neg (parseInt (fst (newExerciseEntry now index exercise)))))
  = fst (newExerciseEntry now index exercise).
Proof.
  intros Hpos. cbn [newExerciseEntry fst toString].
  rewrite parseInt_showZ by lia. cbn [neg JS.abs toString].
  f_equal. lia.
Qed.

(** C10 at its failing input.  A pending-new exercise (id -1700) is replaced
    through its menu and then deleted: the create entry is gone, but the
    ledger still holds the replace entry recorded for the negative id, and
    saving sends it to the remote store. *)
Lemma replace_of_pending_exercise_survives_delete :
  PendingChanges.newExercises
    (pendingChanges (handleDeleteExercise (Int (-1700)) true Sample.added_then_replaced))
  = []
  /\ PendingChanges.exercises
       (pendingChanges (handleDeleteExercise (Int (-1700)) true Sample.added_then_replaced))
     = [(Int (-1700),
         PendingExerciseChange.make (Int (-1700)) PendingExerciseChange.replace
                                    (Some (Int 30)) (Some "Squat"))]
  /\ In (PutReplaceExercise (Int (-1700)) (Int 30))
        (Browser.requests
           (browser
              (handleSaveAllChanges Sample.accepting
                 (handleDeleteExercise (Int (-1700)) true Sample.added_then_replaced)))).
Proof. vm_compute. repeat split. right. right. now left. Qed.

(** ** Restoration drops what the fresh data no longer holds *)

Lemma strict_eq_true a b : strict_eq a b = true <-> a = b /\ a <> NaN.
Proof.
  destruct a as [|x], b as [|y]; simpl; try (split; [discriminate|intros [] ; congruence]).
  rewrite Z.eqb_eq. split; [intros ->; split; [reflexivity|discriminate]|].
  intros [[= ->] _]. reflexivity.
Qed.

Lemma set_exists_true data k :
  set_exists data k = true <-> snapshot_has_set data k /\ k <> NaN.
Proof.
  unfold set_exists, snapshot_has_set. rewrite existsb_exists. split.
  - intros (ex & Hex & Hs). apply existsb_exists in Hs as (s & Hs & E).
    apply strict_eq_true in E as [E Hn]. split; [now exists ex, s|congruence].
  - intros ((ex & s & Hex & Hs & E) & Hn). exists ex. split; [exact Hex|].
    apply existsb_exists. exists s. split; [exact Hs|].
    apply strict_eq_true. split; congruence.
Qed.

Lemma ids_has_true data k :
  ids_has (currentExerciseIds data) k = true <-> snapshot_has_exercise data k.
Proof.
  unfold ids_has, currentExerciseIds, snapshot_has_exercise. rewrite existsb_exists.
  split.
  - intros (y & Hy & E). destruct (eq_key k y) as [->|]; [|discriminate].
    apply in_map_iff in Hy as (ex & E' & Hex). now exists ex.
  - intros (ex & Hex & E). exists k. split.
    + rewrite <- E. now apply in_map.
    + destruct (eq_key k k); congruence.
Qed.

Lemma ledger_unique_of_blob l : ledger_unique (ledger_of_blob l).
Proof. repeat split; apply unique_of_entries. Qed.

Lemma ledger_unique_copy pc : ledger_unique (ledger_copy pc).
Proof. repeat split; apply unique_of_entries. Qed.

(** What the restoration preserves has no repeated key. *)
Lemma loadPreservation_unique st saved counter b :
  loadPreservation st = (SavedLedger saved, counter, b) -> ledger_unique saved.
Proof.
  unfold loadPreservation. intros H.
  repeat break_match_hyp H; inversion H; subst;
    auto using ledger_unique_of_blob, ledger_unique_copy.
Qed.

(** The filtering of a ledger without repeated keys, entry by entry. *)
Lemma reconcile_entries saved data :
  ledger_unique saved ->
  newSets_owned (PendingChanges.newSets saved) ->
  (forall k c, k <> NaN ->
      In (k, c) (PendingChanges.sets (reconcile saved data))
      <-> In (k, c) (PendingChanges.sets saved) /\ snapshot_has_set data k)
  /\ (forall c, ~ In (NaN, c) (PendingChanges.sets (reconcile saved data)))
  /\ (forall k c,
         In (k, c) (PendingChanges.exercises (reconcile saved data))
         <-> In (k, c) (PendingChanges.exercises saved) /\ snapshot_has_exercise data k)
  /\ (forall key d,
         In (key, d) (PendingChanges.newSets (reconcile saved data))
         <-> In (key, d) (PendingChanges.newSets saved)
             /\ snapshot_has_exercise data (NewSet.workout_exercise_id d))
  /\ PendingChanges.newExercises (reconcile saved data) = PendingChanges.newExercises saved
  /\ PendingChanges.workout (reconcile saved data) = PendingChanges.workout saved.
Proof.
  intros (Hs & He & Hn & Hx) Hown. unfold reconcile. cbn.
  rewrite !keep_valid_filter by assumption.
  split; [|split; [|split; [|split; [|split]]]].
  - intros k c Hk. rewrite filter_In. cbn. rewrite set_exists_true. tauto.
  - intros c Hin. apply filter_In in Hin as [_ Hv]. cbn in Hv.
    apply set_exists_true in Hv as [_ Hv]. congruence.
  - intros k c. rewrite filter_In. cbn. rewrite ids_has_true. tauto.
  - intros key d. rewrite filter_In. cbn. split.
    + intros [Hin Hv]. split; [exact Hin|].
      destruct (Hown _ _ Hin) as (e & t & He0 & -> & ->).
      rewrite newSetOwner_newSetKey in Hv by assumption. now apply ids_has_true in Hv.
    + intros [Hin Hv]. split; [exact Hin|].
      destruct (Hown _ _ Hin) as (e & t & He0 & -> & Ho).
      rewrite newSetOwner_newSetKey by assumption. apply ids_has_true. now rewrite <- Ho.
  - clear. induction (PendingChanges.newExercises saved) as [|a m IH]; cbn; congruence.
  - reflexivity.
Qed.

Lemma loadPreservation_browser st saved counter b :
  loadPreservation st = (saved, counter, b) ->
  Browser.alerts b = Browser.alerts (browser st)
  /\ Browser.navigations b = Browser.navigations (browser st)
  /\ Browser.requests b = Browser.requests (browser st)
  /\ Browser.sessionStorage b = Browser.sessionStorage (browser st).
Proof.
  unfold loadPreservation. intros H.
  repeat break_match_hyp H; inversion H; subst; repeat split.
Qed.

(** ** New sets are keyed by the exercise they are for *)

Lemma In_set {K V : Type} `{EqKey K} (k : K) (v : V) (m : jsmap K V) kv :
  In kv (JS.set k v m) -> kv = (k, v) \/ In kv m.
Proof.
  induction m as [|[k' v'] m IH]; cbn.
  - intros [<-|[]]. now left.
  - destruct (eq_key k k').
    + intros [<-|Hin]; [now left|right; now right].
    + intros [<-|Hin]; [right; now left|].
      destruct (IH Hin); [now left|right; now right].
Qed.

Lemma In_fold_set {K V : Type} `{EqKey K} (P : K -> bool) (es acc : jsmap K V) kv :
  In kv (fold_left (fun a x => if P (fst x) then JS.set (fst x) (snd x) a else a) es acc) ->
  In kv acc \/ In kv es.
Proof.
  revert acc. induction es as [|[k v] es IH]; cbn; intros acc Hin; [now left|].
  apply IH in Hin as [Hin|Hin]; [|right; now right].
  destruct (P k); [|now left].
  apply In_set in Hin as [->|Hin]; [right; now left|now left].
Qed.

Lemma In_of_entries {K V : Type} `{EqKey K} (es : jsmap K V) kv :
  In kv (JS.of_entries es) -> In kv es.
Proof.
  intros Hin. apply (In_fold_set (fun _ => true)) in Hin as [[]|Hin]. exact Hin.
Qed.

Lemma In_keep_valid {K V : Type} `{EqKey K} (P : K -> bool) (m : jsmap K V) kv :
  In kv (keep_valid P m) -> In kv m.
Proof. intros Hin. apply In_fold_set in Hin as [[]|Hin]. exact Hin. Qed.

Lemma In_delete {K V : Type} `{EqKey K} (k : K) (m : jsmap K V) kv :
  In kv (JS.delete k m) -> In kv m.
Proof.
  induction m as [|[k' v'] m IH]; cbn; [tauto|].
  destruct (eq_key k k'); [intros Hin; right; auto|].
  intros [<-|Hin]; [now left|right; auto].
Qed.

Lemma newSets_owned_incl (m m' : jsmap string NewSet.t) :
  (forall kv, In kv m' -> In kv m) -> newSets_owned m -> newSets_owned m'.
Proof. intros Hincl Hm key d Hin. apply Hm, Hincl, Hin. Qed.

Lemma newSets_owned_nil : newSets_owned [].
Proof. intros key d []. Qed.

(** What the restoration preserves is keyed as the ledger and the blobs
    are. *)
Lemma loadPreservation_owned st saved counter b :
  new_sets_invariant st ->
  loadPreservation st = (SavedLedger saved, counter, b) ->
  newSets_owned (PendingChanges.newSets saved) /\ storage_owned b.
Proof.
  intros (Hn & _ & Hs) Hload.
  pose proof (loadPreservation_browser _ _ _ _ Hload) as (_ & _ & _ & Hst).
  split.
  - unfold loadPreservation in Hload.
    repeat break_match_hyp Hload; inversion Hload; subst; cbn;
      first [eapply Hs; eassumption
            |eapply newSets_owned_incl; [apply In_of_entries|exact Hn]].
  - intros key parsed l Hg Hl. rewrite Hst in Hg. eapply Hs; eassumption.
Qed.

Lemma storage_owned_same b b' :
  Browser.sessionStorage b' = Browser.sessionStorage b -> storage_owned b -> storage_owned b'.
Proof. intros E Hs key parsed l Hg. rewrite E in Hg. now apply (Hs key). Qed.

Lemma storage_owned_fire n b : storage_owned b -> storage_owned (Browser.fire n b).
Proof.
  intros Hs. unfold Browser.fire.
  destruct (nth_error (Browser.timers b) n) as [[d [key]]|]; [|exact Hs].
  intros k parsed l Hg. cbn in Hg.
  destruct (string_dec key k) as [->|Hne].
  - now rewrite get_delete_same in Hg.
  - rewrite get_delete_other in Hg by exact Hne. now apply (Hs k).
Qed.

(** C1.  The restoration, when the fresh workout arrives, leaves in the
    ledger exactly the preserved entries whose target is in the fresh data:
    a set change is kept iff some exercise of the fresh data contains a set
    with that id, an exercise change iff the fresh data has an exercise
    with that id, a new set iff the exercise it is created for is there;
    new exercises and the header patch are kept as they are.  Nothing is
    reported: no alert, no navigation.  The page is taken in a state where
    new sets are keyed as [handleSaveNewSet] keys them, which every action
    of the page preserves. *)
Theorem restoration_drops_stale_entries (remote : Remote) (now : Z) (st : State)
    (saved : PendingChanges.t) (counter : Z) (b : Browser.t) (data : WorkoutSummary.t) :
  new_sets_invariant st ->
  loadPreservation (setIsRestoring true st) = (SavedLedger saved, counter, b) ->
  remote (Browser.requests b) (GetWorkout (routeId st) (Some now))
  = Response true (WorkoutBody data) ->
  let st' := fetchWorkoutSummaryWithPendingPreservation remote now st in
  let valid := pendingChanges st' in
  (forall k c, k <> NaN ->
      In (k, c) (PendingChanges.sets valid)
      <-> In (k, c) (PendingChanges.sets saved) /\ snapshot_has_set data k)
  /\ (forall c, ~ In (NaN, c) (PendingChanges.sets valid))
  /\ (forall k c,
         In (k, c) (PendingChanges.exercises valid)
         <-> In (k, c) (PendingChanges.exercises saved) /\ snapshot_has_exercise data k)
  /\ (forall key d,
         In (key, d) (PendingChanges.newSets valid)
         <-> In (key, d) (PendingChanges.newSets saved)
             /\ snapshot_has_exercise data (NewSet.workout_exercise_id d))
  /\ PendingChanges.newExercises valid = PendingChanges.newExercises saved
  /\ PendingChanges.workout valid = PendingChanges.workout saved
  /\ Browser.alerts (browser st') = Browser.alerts (browser st)
  /\ Browser.navigations (browser st') = Browser.navigations (browser st).
Proof.
  intros Hinv Hload Hfetch st' valid.
  pose proof (loadPreservation_unique _ _ _ _ Hload) as Hu.
  pose proof (loadPreservation_browser _ _ _ _ Hload) as (Ha & Hn & _ & _).
  destruct (loadPreservation_owned (setIsRestoring true st) _ _ _ Hinv Hload) as (Hown & _).
  assert (Hst' : pendingChanges st' = reconcile saved data
                 /\ Browser.alerts (browser st') = Browser.alerts b
                 /\ Browser.navigations (browser st') = Browser.navigations b).
  { subst st'. unfold fetchWorkoutSummaryWithPendingPreservation.
    rewrite Hload. unfold Browser.fetch. cbn [routeId setIsRestoring].
    rewrite Hfetch. repeat split. }
  destruct Hst' as (Hpc & Ha' & Hn').
  subst valid. rewrite Hpc.
  destruct (reconcile_entries saved data Hu Hown) as (H1 & H2 & H3 & H4 & H5 & H6).
  change (browser (setIsRestoring true st)) with (browser st) in Ha, Hn.
  repeat (split; [assumption|]). split; congruence.
Qed.

Lemma sample_returning_invariant : new_sets_invariant Sample.returning.
Proof.
  split; [apply newSets_owned_nil|split; [intros x [=]|]].
  intros key parsed l Hg Hl. cbn in Hg.
  destruct (eq_key key "workout-1-preservation"); [|discriminate].
  injection Hg as <-. injection Hl as <-.
  intros k d Hin. vm_compute in Hin.
  destruct Hin as [E|[E|[]]]; inversion E; subst.
  - exists 3, 1. repeat split. lia.
  - exists 42, 2. repeat split. lia.
Qed.

(** At the sample page coming back with its blob: the edit of set 5, the
    delete of exercise 3 and the new set for exercise 3 stay; the delete of
    set 99, the replacement of exercise 42 and the new set for exercise 42
    go; nothing is reported. *)
Lemma restoration_drops_stale_entries_witness :
  JS.keys (PendingChanges.sets
             (pendingChanges
                (fetchWorkoutSummaryWithPendingPreservation Sample.accepting 1800
                                                            Sample.returning)))
  = [Int 5]
  /\ JS.keys (PendingChanges.newSets
                (pendingChanges
                   (fetchWorkoutSummaryWithPendingPreservation Sample.accepting 1800
                                                               Sample.returning)))
     = ["3-1"]
  /\ ~ In (Int 99, setDeleteEntry (Int 99))
          (PendingChanges.sets
             (pendingChanges
                (fetchWorkoutSummaryWithPendingPreservation Sample.accepting 1800
                                                            Sample.returning)))
  /\ Browser.alerts
       (browser (fetchWorkoutSummaryWithPendingPreservation Sample.accepting 1800
                                                            Sample.returning))
     = [].
Proof.
  pose proof (restoration_drops_stale_entries Sample.accepting 1800 Sample.returning
                _ _ _ Sample.push_day sample_returning_invariant eq_refl eq_refl) as H.
  cbv zeta in H. destruct H as (Hsets & _ & _ & _ & _ & _ & Ha & _).
  split; [vm_compute; reflexivity|]. split; [vm_compute; reflexivity|].
  split; [|exact Ha].
  intros Hin. apply Hsets in Hin as [_ (ex & s & Hex & Hs & E)]; [|discriminate].
  destruct Hex as [<-|[<-|[]]]; cbn in Hs.
  - destruct Hs as [<-|[<-|[]]]; discriminate E.
  - destruct Hs.
Defined.

(** ** Saving: order of the operations and failure *)

Lemma bind_ret_l {A : Type} (k : unit -> Act A) b : bind (ret tt) k b = k tt b.
Proof. reflexivity. Qed.

Lemma issue_app remote ops1 ops2 b :
  issue remote (ops1 ++ ops2) b = (issue remote ops1 ;; issue remote ops2) b.
Proof.
  revert b. induction ops1 as [|[r msg] ops1 IH]; intros b; cbn [issue app].
  - reflexivity.
  - unfold bind. destruct (request remote r msg b) as [[[]|e] b1].
    + rewrite IH. reflexivity.
    + reflexivity.
Qed.

Lemma for_of_issue {X : Type} remote (ops : X -> list (Request * string))
    (body : X -> Act unit) (xs : list X) b :
  (forall x b', body x b' = issue remote (ops x) b') ->
  for_of xs body b = issue remote (flat_map ops xs) b.
Proof.
  intros Hbody. revert b. induction xs as [|x xs IH]; intros b; cbn [for_of flat_map].
  - reflexivity.
  - rewrite issue_app. unfold bind. rewrite Hbody.
    destruct (issue remote (ops x) b) as [[[]|e] b1]; [apply IH|reflexivity].
Qed.

Lemma issue_one remote r msg b : issue remote [(r, msg)] b = request remote r msg b.
Proof.
  cbn [issue]. unfold bind, ret. now destruct (request remote r msg b) as [[[]|e] b1].
Qed.

Lemma seq_issue remote (m rest : Act unit) ops1 ops2 b :
  (forall b', m b' = issue remote ops1 b') ->
  (forall b', rest b' = issue remote ops2 b') ->
  (m ;; rest) b = issue remote (ops1 ++ ops2) b.
Proof.
  intros Hm Hrest. rewrite issue_app. unfold bind. rewrite Hm.
  destruct (issue remote ops1 b) as [[[]|e] b1]; [apply Hrest|reflexivity].
Qed.

(** The [try] block of the save sends the plan. *)
Lemma saveAll_issue remote w pc b : saveAll remote w pc b = issue remote (plan w pc) b.
Proof.
  unfold saveAll, plan.
  apply seq_issue.
  { intros b'. unfold saveWorkoutChanges, headerOps.
    destruct (PendingChanges.workout pc) as [p|]; [|reflexivity].
    destruct (0 <? WorkoutPatch.key_count p)%nat; [now rewrite issue_one|reflexivity]. }
  intros b1. apply seq_issue.
  { intros b'. apply for_of_issue. intros [k c] b''. unfold saveSetChange, setOps.
    cbn [fst snd].
    destruct (PendingSetChange.type c); [now rewrite issue_one..|reflexivity]. }
  intros b2. apply seq_issue.
  { intros b'. apply for_of_issue. intros [k c] b''. unfold saveNewSet, newSetOps.
    now rewrite issue_one. }
  intros b3. apply seq_issue.
  { intros b'. apply for_of_issue. intros [k c] b''.
    unfold saveNewExercise, newExerciseOps. now rewrite issue_one. }
  intros b4. apply for_of_issue.
  intros [k c] b'. unfold saveExerciseChange, exerciseOps. cbn [fst snd].
  destruct (PendingExerciseChange.type c); [now rewrite issue_one|].
  destruct (PendingExerciseChange.newExerciseId c) as [n|]; [|reflexivity].
  destruct (truthy n); [now rewrite issue_one|reflexivity].
Qed.

(** What sending a list of operations does: all are sent and accepted, or
    the operations before the first failure are sent, then the failing one,
    and nothing after it. *)
Lemma issue_spec remote ops b :
  match issue remote ops b with
  | (Returned _, b') =>
      Browser.requests b' = Browser.requests b ++ map fst ops
      /\ same_but_requests b b'
  | (Threw e, b') =>
      same_but_requests b b'
      /\ exists done r msg rest,
           ops = done ++ (r, msg) :: rest
           /\ Browser.requests b' = Browser.requests b ++ map fst done ++ [r]
           /\ fails_with remote (Browser.requests b ++ map fst done) r msg e
  end.
Proof.
  revert b. induction ops as [|[r msg] ops IH]; intros b; cbn [issue].
  - cbn. rewrite app_nil_r. repeat split.
  - unfold bind, request, Browser.fetch.
    destruct (remote (Browser.requests b) r) as [[|] body|e'] eqn:Er.
    + specialize (IH (Browser.with_requests b (Browser.requests b ++ [r]))).
      destruct (issue remote ops _) as [[[]|e] b'].
      * destruct IH as (Hr & Ha & Hn & Hs & Ht). cbn in Hr, Ha, Hn, Hs, Ht.
        split; [|now repeat split].
        rewrite Hr. cbn [map fst]. now rewrite <- app_assoc.
      * destruct IH as ((Ha & Hn & Hs & Ht) & done & r' & msg' & rest & -> & Hr & Hf).
        cbn in Hr, Ha, Hn, Hs, Ht, Hf.
        split; [now repeat split|].
        exists ((r, msg) :: done), r', msg', rest. split; [reflexivity|].
        cbn [map fst app]. split.
        -- rewrite Hr. now rewrite <- !app_assoc.
        -- rewrite <- app_assoc in Hf. exact Hf.
    + split; [now repeat split|].
      exists [], r, msg, ops. cbn. rewrite app_nil_r.
      repeat split. unfold fails_with. now rewrite Er.
    + split; [now repeat split|].
      exists [], r, msg, ops. cbn. rewrite app_nil_r.
      repeat split. unfold fails_with. now rewrite Er.
Qed.

Lemma sorted_app {A : Type} (R : A -> A -> Prop) (l1 l2 : list A) :
  StronglySorted R l1 -> StronglySorted R l2 ->
  (forall x y, In x l1 -> In y l2 -> R x y) ->
  StronglySorted R (l1 ++ l2).
Proof.
  intros H1 H2 H12. induction H1 as [|a l1 Hs IH Hf]; cbn; [exact H2|].
  constructor.
  - apply IH. intros x y Hx Hy. apply H12; [now right|exact Hy].
  - apply Forall_app. split; [exact Hf|].
    apply Forall_forall. intros y Hy. apply H12; [now left|exact Hy].
Qed.

Lemma same_stage_sorted (n : nat) (l : list Request) :
  Forall (fun r => stage r = n) l ->
  StronglySorted (fun r1 r2 => (stage r1 <= stage r2)%nat) l.
Proof.
  induction 1 as [|r l Hr Hl IH]; constructor; [exact IH|].
  eapply Forall_impl; [|exact Hl]. cbn. intros r' Hr'. lia.
Qed.

Lemma stage_flat_map {X : Type} (ops : X -> list (Request * string)) (n : nat) xs :
  (forall x, Forall (fun r => stage r = n) (map fst (ops x))) ->
  Forall (fun r => stage r = n) (map fst (flat_map ops xs)).
Proof.
  intros H. induction xs as [|x xs IH]; cbn; [constructor|].
  rewrite map_app. apply Forall_app. auto.
Qed.

(** The five blocks of the plan, each of one stage. *)
Lemma plan_stages w pc :
  Forall (fun r => stage r = 1%nat) (map fst (headerOps w pc))
  /\ (List.length (headerOps w pc) <= 1)%nat
  /\ Forall (fun r => stage r = 2%nat) (map fst (flat_map setOps (PendingChanges.sets pc)))
  /\ Forall (fun r => stage r = 3%nat)
            (map fst (flat_map newSetOps (PendingChanges.newSets pc)))
  /\ Forall (fun r => stage r = 4%nat)
            (map fst (flat_map (newExerciseOps w) (PendingChanges.newExercises pc)))
  /\ Forall (fun r => stage r = 5%nat)
            (map fst (flat_map exerciseOps (PendingChanges.exercises pc))).
Proof.
  split; [|split; [|split; [|split; [|split]]]].
  - unfold headerOps. repeat break_match; repeat constructor.
  - unfold headerOps. repeat break_match; cbn; lia.
  - apply stage_flat_map. intros [k c]. unfold setOps. cbn [fst snd].
    destruct (PendingSetChange.type c); repeat constructor.
  - apply stage_flat_map. intros [k c]. repeat constructor.
  - apply stage_flat_map. intros [k c]. repeat constructor.
  - apply stage_flat_map. intros [k c]. unfold exerciseOps. cbn [fst snd].
    repeat break_match; repeat constructor.
Qed.

Lemma plannedRequests_blocks w pc :
  plannedRequests w pc
  = map fst (headerOps w pc)
    ++ map fst (flat_map setOps (PendingChanges.sets pc))
    ++ map fst (flat_map newSetOps (PendingChanges.newSets pc))
    ++ map fst (flat_map (newExerciseOps w) (PendingChanges.newExercises pc))
    ++ map fst (flat_map exerciseOps (PendingChanges.exercises pc)).
Proof. unfold plannedRequests, plan. now rewrite !map_app. Qed.

Lemma block_sorted (n : nat) (l rest : list Request) :
  Forall (fun r => stage r = n) l ->
  StronglySorted (fun r1 r2 => (stage r1 <= stage r2)%nat) rest ->
  Forall (fun r => (n <= stage r)%nat) rest ->
  StronglySorted (fun r1 r2 => (stage r1 <= stage r2)%nat) (l ++ rest).
Proof.
  intros Hl Hs Hb. apply sorted_app; [now apply (same_stage_sorted n)|exact Hs|].
  intros x y Hx Hy.
  apply (proj1 (Forall_forall _ _) Hl) in Hx.
  apply (proj1 (Forall_forall _ _) Hb) in Hy. lia.
Qed.

Lemma stage_at_least (n m : nat) (l : list Request) :
  (n <= m)%nat -> Forall (fun r => stage r = m) l -> Forall (fun r => (n <= stage r)%nat) l.
Proof. intros Hnm. apply Forall_impl. intros r Hr. lia. Qed.

Lemma plan_sorted w pc :
  StronglySorted (fun r1 r2 => (stage r1 <= stage r2)%nat) (plannedRequests w pc).
Proof.
  rewrite plannedRequests_blocks.
  destruct (plan_stages w pc) as (H1 & _ & H2 & H3 & H4 & H5).
  apply (block_sorted 1); [exact H1| |].
  - apply (block_sorted 2); [exact H2| |].
    + apply (block_sorted 3); [exact H3| |].
      * apply (block_sorted 4); [exact H4| |].
        -- now apply (same_stage_sorted 5).
        -- apply (stage_at_least 4 5); [lia|exact H5].
      * apply Forall_app. split;
          [apply (stage_at_least 3 4); [lia|exact H4]
          |apply (stage_at_least 3 5); [lia|exact H5]].
    + repeat (apply Forall_app; split);
        [apply (stage_at_least 2 3); [lia|exact H3]
        |apply (stage_at_least 2 4); [lia|exact H4]
        |apply (stage_at_least 2 5); [lia|exact H5]].
  - repeat (apply Forall_app; split);
      [apply (stage_at_least 1 2); [lia|exact H2]
      |apply (stage_at_least 1 3); [lia|exact H3]
      |apply (stage_at_least 1 4); [lia|exact H4]
      |apply (stage_at_least 1 5); [lia|exact H5]].
Qed.

Lemma fetchWorkoutSummary_effects remote st :
  Browser.requests (browser (fetchWorkoutSummary remote st))
  = Browser.requests (browser st) ++ [GetWorkout (routeId st) None]
  /\ Browser.sessionStorage (browser (fetchWorkoutSummary remote st))
     = Browser.sessionStorage (browser st)
  /\ Browser.timers (browser (fetchWorkoutSummary remote st)) = Browser.timers (browser st)
  /\ Browser.alerts (browser (fetchWorkoutSummary remote st)) = Browser.alerts (browser st).
Proof. unfold fetchWorkoutSummary, Browser.fetch. repeat break_match; repeat split. Qed.

Lemma fetchWorkoutSummary_clears remote st :
  pendingChanges st = PendingChanges.empty ->
  pendingChanges (fetchWorkoutSummary remote st) = PendingChanges.empty.
Proof.
  intros H. unfold fetchWorkoutSummary, Browser.fetch.
  repeat break_match; cbn; (reflexivity || exact H).
Qed.

Lemma handleSaveAllChanges_success remote st w b' :
  workout st = Some w ->
  hasPendingChanges st = true ->
  saveAll remote w (pendingChanges st) (browser st) = (Returned tt, b') ->
  pendingChanges (handleSaveAllChanges remote st) = PendingChanges.empty
  /\ Browser.requests (browser (handleSaveAllChanges remote st))
     = Browser.requests (browser st) ++ plannedRequests w (pendingChanges st)
       ++ [GetWorkout (routeId st) None]
  /\ Browser.alerts (browser (handleSaveAllChanges remote st))
     = Browser.alerts (browser st) ++ ["All changes saved successfully!"].
Proof.
  intros Hw Hp Hsave.
  pose proof (issue_spec remote (plan w (pendingChanges st)) (browser st)) as Hspec.
  rewrite <- saveAll_issue, Hsave in Hspec. destruct Hspec as (Hr & Ha & _).
  unfold handleSaveAllChanges. rewrite Hw, Hp. cbn [negb].
  change (saveAll remote w (pendingChanges (setIsSaving true st))
                  (browser (setIsSaving true st)))
    with (saveAll remote w (pendingChanges st) (browser st)).
  rewrite Hsave. cbn -[fetchWorkoutSummary].
  destruct (fetchWorkoutSummary_effects remote
              (setPendingChanges PendingChanges.empty
                 (setBrowser b' (setIsSaving true st)))) as (Hreq & _ & _ & Ha').
  split; [now apply fetchWorkoutSummary_clears|]. split.
  - rewrite Hreq. cbn. rewrite Hr. now rewrite <- app_assoc.
  - rewrite Ha'. cbn. now rewrite Ha.
Qed.

(** C2.  A save whose operations all succeed sends exactly the planned
    operations and then the refetch; the planned operations are five blocks,
    the header patch (at most one request), the set edits and deletes, the
    set creations, the exercise creations, the exercise deletes and
    replacements, in that order: stages never decrease along the requests. *)
Theorem commit_stages_in_order (remote : Remote) (st : State) (w : WorkoutSummary.t)
    (b' : Browser.t) :
  workout st = Some w ->
  hasPendingChanges st = true ->
  saveAll remote w (pendingChanges st) (browser st) = (Returned tt, b') ->
  let pc := pendingChanges st in
  let issued := plannedRequests w pc in
  Browser.requests (browser (handleSaveAllChanges remote st))
  = Browser.requests (browser st) ++ issued ++ [GetWorkout (routeId st) None]
  /\ issued
     = map fst (headerOps w pc)
       ++ map fst (flat_map setOps (PendingChanges.sets pc))
       ++ map fst (flat_map newSetOps (PendingChanges.newSets pc))
       ++ map fst (flat_map (newExerciseOps w) (PendingChanges.newExercises pc))
       ++ map fst (flat_map exerciseOps (PendingChanges.exercises pc))
  /\ (List.length (headerOps w pc) <= 1)%nat
  /\ Forall (fun r => stage r = 1%nat) (map fst (headerOps w pc))
  /\ Forall (fun r => stage r = 2%nat) (map fst (flat_map setOps (PendingChanges.sets pc)))
  /\ Forall (fun r => stage r = 3%nat)
            (map fst (flat_map newSetOps (PendingChanges.newSets pc)))
  /\ Forall (fun r => stage r = 4%nat)
            (map fst (flat_map (newExerciseOps w) (PendingChanges.newExercises pc)))
  /\ Forall (fun r => stage r = 5%nat)
            (map fst (flat_map exerciseOps (PendingChanges.exercises pc)))
  /\ StronglySorted (fun r1 r2 => (stage r1 <= stage r2)%nat) issued.
Proof.
  intros Hw Hp Hsave pc issued. subst pc issued.
  destruct (plan_stages w (pendingChanges st)) as (H1 & Hlen & H2 & H3 & H4 & H5).
  split; [|split; [apply plannedRequests_blocks|]].
  - apply (handleSaveAllChanges_success remote st w b' Hw Hp Hsave).
  - repeat (split; [assumption|]). apply plan_sorted.
Qed.

(** The save of the sample session with a change of every kind pending,
    against the store that accepts everything: six operations, of stages
    1, 2, 2, 3, 4, 5. *)
Lemma commit_stages_in_order_witness :
  map stage (plannedRequests Sample.busy_workout (pendingChanges Sample.busy))
  = [1; 2; 2; 3; 4; 5]%nat
  /\ StronglySorted (fun r1 r2 => (stage r1 <= stage r2)%nat)
                    (plannedRequests Sample.busy_workout (pendingChanges Sample.busy)).
Proof.
  split; [reflexivity|].
  destruct (saveAll Sample.accepting Sample.busy_workout (pendingChanges Sample.busy)
                    (browser Sample.busy)) as [[[]|e] b'] eqn:E.
  - apply (commit_stages_in_order Sample.accepting Sample.busy Sample.busy_workout b'
             eq_refl eq_refl E).
  - vm_compute in E. discriminate E.
Defined.

Lemma plan_names w pc : Forall names_operation (plan w pc).
Proof.
  unfold plan. repeat (apply Forall_app; split).
  - unfold headerOps. repeat break_match; repeat constructor.
  - apply Forall_flat_map, Forall_forall. intros [k c] _. unfold setOps. cbn [fst snd].
    destruct (PendingSetChange.type c); repeat constructor.
  - apply Forall_flat_map, Forall_forall. intros [k c] _. repeat constructor.
  - apply Forall_flat_map, Forall_forall. intros [k c] _.
    constructor; [|constructor]. cbn. now eexists.
  - apply Forall_flat_map, Forall_forall. intros [k c] _. unfold exerciseOps.
    cbn [fst snd]. repeat break_match; repeat constructor.
Qed.

(** C3, as stated, fails when the request itself is rejected: the creation
    of the new set of the sample session being rejected by the network, the
    report is the rejection's message and names no operation. *)
Lemma rejected_request_reported_without_operation :
  Browser.alerts (browser (handleSaveAllChanges Sample.unreachable_for_new_sets Sample.busy))
  = ["Failed to save changes: Failed to fetch"]
  /\ pendingChanges (handleSaveAllChanges Sample.unreachable_for_new_sets Sample.busy)
     = pendingChanges Sample.busy.
Proof. vm_compute. split; reflexivity. Qed.

(** C3, amended.  When an operation of a save fails, nothing is sent after
    it, the ledger is what it was (no entry of any stage removed), nothing is
    refetched, and one alert is raised.  When the store answered the
    operation with a response that is not ok, the alert carries the message
    of that operation, which names it and its target; when the request was
    rejected, the alert carries what the rejection threw (its message, or
    "Unknown error"). *)
Theorem failed_commit_keeps_ledger (remote : Remote) (st : State) (w : WorkoutSummary.t)
    (e : Thrown) (b' : Browser.t) :
  workout st = Some w ->
  hasPendingChanges st = true ->
  saveAll remote w (pendingChanges st) (browser st) = (Threw e, b') ->
  let st' := handleSaveAllChanges remote st in
  pendingChanges st' = pendingChanges st
  /\ workout st' = workout st
  /\ originalWorkout st' = originalWorkout st
  /\ Browser.alerts (browser st')
     = Browser.alerts (browser st) ++ [("Failed to save changes: " ++ error_message e)%string]
  /\ exists done r msg rest,
       plan w (pendingChanges st) = done ++ (r, msg) :: rest
       /\ Browser.requests (browser st')
          = Browser.requests (browser st) ++ map fst done ++ [r]
       /\ names_operation (r, msg)
       /\ match remote (Browser.requests (browser st) ++ map fst done) r with
          | Response true _ => False
          | Response false _ => error_message e = msg
          | Rejected thrown => e = thrown
          end.
Proof.
  intros Hw Hp Hsave st'.
  pose proof (issue_spec remote (plan w (pendingChanges st)) (browser st)) as Hspec.
  rewrite <- saveAll_issue, Hsave in Hspec.
  destruct Hspec as ((Ha & _) & done & r & msg & rest & Hplan & Hr & Hf).
  assert (Hst' : st' = setIsSaving false
                         (alert ("Failed to save changes: " ++ error_message e)
                                (setBrowser b' (setIsSaving true st)))).
  { subst st'. unfold handleSaveAllChanges. rewrite Hw, Hp. cbn [negb].
    change (saveAll remote w (pendingChanges (setIsSaving true st))
                    (browser (setIsSaving true st)))
      with (saveAll remote w (pendingChanges st) (browser st)).
    now rewrite Hsave. }
  rewrite Hst'. cbn. rewrite Ha.
  repeat (split; [reflexivity|]).
  exists done, r, msg, rest. repeat split; try assumption.
  - pose proof (plan_names w (pendingChanges st)) as Hn. rewrite Hplan in Hn.
    apply Forall_app in Hn as [_ Hn]. now inversion Hn.
  - unfold fails_with in Hf.
    destruct (remote (Browser.requests (browser st) ++ map fst done) r) as [[|] ?|?];
      [exact Hf|now subst e|exact Hf].
Qed.

(** The save of the sample session against the store that refuses the
    creation of a set: the header patch and the two set operations were
    sent, then the creation; the alert names it; the ledger is whole. *)
Lemma failed_commit_keeps_ledger_witness :
  pendingChanges (handleSaveAllChanges Sample.refusing_new_sets Sample.busy)
  = pendingChanges Sample.busy
  /\ Browser.alerts (browser (handleSaveAllChanges Sample.refusing_new_sets Sample.busy))
     = ["Failed to save changes: Failed to create new set for exercise 3"].
Proof.
  destruct (saveAll Sample.refusing_new_sets Sample.busy_workout
                    (pendingChanges Sample.busy) (browser Sample.busy))
    as [[[]|e] b'] eqn:E.
  - vm_compute in E. discriminate E.
  - pose proof (failed_commit_keeps_ledger Sample.refusing_new_sets Sample.busy
                  Sample.busy_workout e b' eq_refl eq_refl E) as (Hpc & _ & _ & Ha & _).
    split; [exact Hpc|]. rewrite Ha.
    vm_compute in E. injection E as <- _. reflexivity.
Defined.

(** ** The hand-off blob *)

(** C7, as stated, fails: the sample page restored from its blob saves all
    its changes successfully, and the blob is still in [sessionStorage]. *)
Lemma commit_keeps_blob :
  Browser.alerts (browser (handleSaveAllChanges Sample.accepting Sample.restored))
  = ["All changes saved successfully!"]
  /\ pendingChanges (handleSaveAllChanges Sample.accepting Sample.restored)
     = PendingChanges.empty
  /\ JS.get "workout-1-preservation"
            (Browser.sessionStorage
               (browser (handleSaveAllChanges Sample.accepting Sample.restored)))
     = Some (Parsed Sample.blob).
Proof. vm_compute. repeat split; reflexivity. Qed.

Lemma handleSaveAllChanges_storage remote st :
  Browser.sessionStorage (browser (handleSaveAllChanges remote st))
  = Browser.sessionStorage (browser st)
  /\ Browser.timers (browser (handleSaveAllChanges remote st)) = Browser.timers (browser st).
Proof.
  unfold handleSaveAllChanges.
  destruct (workout st) as [w|]; [|now split].
  destruct (negb (hasPendingChanges st)); [now split|].
  pose proof (issue_spec remote (plan w (pendingChanges st)) (browser st)) as Hspec.
  rewrite <- saveAll_issue in Hspec.
  change (saveAll remote w (pendingChanges (setIsSaving true st))
                  (browser (setIsSaving true st)))
    with (saveAll remote w (pendingChanges st) (browser st)).
  destruct (saveAll remote w (pendingChanges st) (browser st)) as [[[]|e] b'].
  - destruct Hspec as (_ & _ & _ & Hs & Ht). cbn -[fetchWorkoutSummary].
    destruct (fetchWorkoutSummary_effects remote
                (setPendingChanges PendingChanges.empty
                   (setBrowser b' (setIsSaving true st)))) as (_ & Hs' & Ht' & _).
    rewrite Hs', Ht'. cbn. now split.
  - destruct Hspec as ((_ & _ & Hs & Ht) & _). cbn. now split.
Qed.

(** C7, amended.  A save never touches [sessionStorage] nor the timers; when
    all its operations succeed it clears the ledger, refetches the workout
    and reports success.  The blob is discarded by the delayed clear alone:
    a restoration that reads a blob with a ledger leaves it stored and
    registers its removal after the grace period of 30000 ms; when that
    timer fires the blob is gone. *)
Theorem blob_discarded_by_delayed_clear_only (remote : Remote) (st : State) :
  Browser.sessionStorage (browser (handleSaveAllChanges remote st))
  = Browser.sessionStorage (browser st)
  /\ Browser.timers (browser (handleSaveAllChanges remote st)) = Browser.timers (browser st)
  /\ (forall w b',
         workout st = Some w ->
         hasPendingChanges st = true ->
         saveAll remote w (pendingChanges st) (browser st) = (Returned tt, b') ->
         pendingChanges (handleSaveAllChanges remote st) = PendingChanges.empty
         /\ Browser.requests (browser (handleSaveAllChanges remote st))
            = Browser.requests (browser st) ++ plannedRequests w (pendingChanges st)
              ++ [GetWorkout (routeId st) None]
         /\ Browser.alerts (browser (handleSaveAllChanges remote st))
            = Browser.alerts (browser st) ++ ["All changes saved successfully!"])
  /\ (forall now parsed l,
         JS.get (preservationKey st) (Browser.sessionStorage (browser st))
         = Some (Parsed parsed) ->
         Blob.pendingChanges parsed = Some l ->
         let st' := fetchWorkoutSummaryWithPendingPreservation remote now st in
         Browser.sessionStorage (browser st') = Browser.sessionStorage (browser st)
         /\ Browser.timers (browser st')
            = Browser.timers (browser st)
              ++ [mkTimer 30000 (RemoveItem (preservationKey st))]
         /\ JS.get (preservationKey st)
                   (Browser.sessionStorage
                      (browser (fireTimer (List.length (Browser.timers (browser st))) st')))
            = None).
Proof.
  destruct (handleSaveAllChanges_storage remote st) as (Hs & Ht).
  split; [exact Hs|]. split; [exact Ht|]. split.
  - intros w b' Hw Hp Hsave.
    apply (handleSaveAllChanges_success remote st w b' Hw Hp Hsave).
  - intros now parsed l Hget Hl st'.
    assert (Hb : Browser.sessionStorage (browser st') = Browser.sessionStorage (browser st)
                 /\ Browser.timers (browser st')
                    = Browser.timers (browser st)
                      ++ [mkTimer 30000 (RemoveItem (preservationKey st))]).
    { subst st'. unfold fetchWorkoutSummaryWithPendingPreservation, loadPreservation.
      change (preservationKey (setIsRestoring true st)) with (preservationKey st).
      change (browser (setIsRestoring true st)) with (browser st).
      rewrite Hget, Hl. unfold Browser.fetch.
      repeat break_match; cbn; split; reflexivity. }
    destruct Hb as (Hs' & Ht'). split; [exact Hs'|]. split; [exact Ht'|].
    unfold fireTimer, Browser.fire. cbn [browser setBrowser]. rewrite Ht'.
    rewrite nth_error_app2 by lia. rewrite Nat.sub_diag. cbn [nth_error].
    unfold Browser.removeItem. cbn. apply get_delete_same.
Qed.

(** At the sample page: the restoration keeps the blob and registers its
    removal; the timer fired, the blob is gone. *)
Lemma blob_discarded_by_delayed_clear_only_witness :
  Browser.timers (browser Sample.restored)
  = [mkTimer 30000 (RemoveItem "workout-1-preservation")]
  /\ JS.get "workout-1-preservation"
            (Browser.sessionStorage (browser (fireTimer 0 Sample.restored)))
     = None.
Proof.
  pose proof (proj2 (proj2 (proj2 (blob_discarded_by_delayed_clear_only
                                     Sample.accepting Sample.returning)))
                1800 Sample.blob _ eq_refl eq_refl) as H.
  cbv zeta in H. destruct H as (_ & Ht & Hg). split; [exact Ht|exact Hg].
Defined.

(** ** The keys of new sets, across the actions of the page *)

Lemma fetchExercise_storage remote x b :
  Browser.sessionStorage (snd (fetchExercise remote x b)) = Browser.sessionStorage b.
Proof. unfold fetchExercise, Browser.fetch. repeat break_match; reflexivity. Qed.

Lemma fetchExercises_storage remote ids b :
  Browser.sessionStorage (snd (fetchExercises remote ids b)) = Browser.sessionStorage b.
Proof.
  revert b. induction ids as [|x ids IH]; intros b; cbn [fetchExercises]; [reflexivity|].
  pose proof (fetchExercise_storage remote x b) as H1.
  destruct (fetchExercise remote x b) as [r b1]. cbn [snd] in H1.
  specialize (IH b1). destruct (fetchExercises remote ids b1) as [rs b2].
  cbn [snd] in *. congruence.
Qed.

Lemma adding_truthy_positive x :
  lt0 x = false -> truthy x = true -> exists e, x = Int e /\ 0 < e.
Proof.
  destruct x as [|e]; cbn; [discriminate|]. intros Hl Ht.
  apply Z.ltb_ge in Hl. apply negb_true_iff, Z.eqb_neq in Ht.
  exists e. split; [reflexivity|lia].
Qed.

Lemma fetchWorkoutSummary_ledger remote st :
  (pendingChanges (fetchWorkoutSummary remote st) = pendingChanges st
   \/ pendingChanges (fetchWorkoutSummary remote st) = PendingChanges.empty)
  /\ addingSetToExercise (fetchWorkoutSummary remote st) = addingSetToExercise st.
Proof.
  unfold fetchWorkoutSummary, Browser.fetch.
  repeat break_match; cbn; split; auto.
Qed.

Lemma handleSaveAllChanges_ledger remote st :
  (pendingChanges (handleSaveAllChanges remote st) = pendingChanges st
   \/ pendingChanges (handleSaveAllChanges remote st) = PendingChanges.empty)
  /\ addingSetToExercise (handleSaveAllChanges remote st) = addingSetToExercise st.
Proof.
  unfold handleSaveAllChanges.
  repeat break_match; cbn -[fetchWorkoutSummary]; try (split; [now left|reflexivity]).
  split.
  - right. now apply fetchWorkoutSummary_clears.
  - now rewrite (proj2 (fetchWorkoutSummary_ledger _ _)).
Qed.

Lemma new_sets_invariant_cleared st st' :
  new_sets_invariant st ->
  (pendingChanges st' = pendingChanges st \/ pendingChanges st' = PendingChanges.empty) ->
  addingSetToExercise st' = addingSetToExercise st ->
  Browser.sessionStorage (browser st') = Browser.sessionStorage (browser st) ->
  new_sets_invariant st'.
Proof.
  intros (Hn & Ha & Hs) Hpc Had Hst. split; [|split].
  - destruct Hpc as [->| ->]; [exact Hn|apply newSets_owned_nil].
  - intros x Hx. rewrite Had in Hx. now apply Ha.
  - now apply (storage_owned_same (browser st)).
Qed.

Lemma fetchWorkoutSummary_new_sets remote st :
  new_sets_invariant st -> new_sets_invariant (fetchWorkoutSummary remote st).
Proof.
  intros Hinv.
  destruct (fetchWorkoutSummary_effects remote st) as (_ & Hst & _ & _).
  destruct (fetchWorkoutSummary_ledger remote st) as (Hpc & Had).
  now apply (new_sets_invariant_cleared st).
Qed.

(** Whatever happens to the page, the new sets stay keyed by the exercise
    they are for. *)
Lemma new_sets_invariant_step remote a st :
  new_sets_invariant st -> new_sets_invariant (step remote a st).
Proof.
  intros Hinv. pose proof Hinv as (Hn & Ha & Hs). destruct a; cbn [step].
  - exact Hinv.
  - exact Hinv.
  - exact Hinv.
  - unfold handleSaveDuration. repeat break_match; exact Hinv.
  - exact Hinv.
  - unfold handleUpdateSet. repeat break_match; exact Hinv.
  - unfold handleDeleteExercise. repeat break_match; exact Hinv.
  - unfold handleDeleteSet. repeat break_match; exact Hinv.
  - unfold handleAddExercise. repeat break_match; exact Hinv.
  - unfold handleReplaceExercise. repeat break_match; exact Hinv.
  - exact Hinv.
  - unfold handleAddSelectedExercises.
    destruct (workout st); [|exact Hinv].
    destruct selectedExerciseIds as [|x others]; [exact Hinv|].
    destruct (is_replacing st).
    + destruct others; [|exact Hinv].
      pose proof (fetchExercise_storage remote x (browser st)) as Hst.
      destruct (fetchExercise remote x (browser st)) as [[ex|] b]; cbn [snd] in Hst;
        (split; [exact Hn|split; [exact Ha|now apply (storage_owned_same (browser st))]]).
    + pose proof (fetchExercises_storage remote (x :: others) (browser st)) as Hst.
      destruct (fetchExercises remote (x :: others) (browser st)) as [[exs|] b];
        cbn [snd] in Hst;
        (split; [exact Hn|split; [exact Ha|now apply (storage_owned_same (browser st))]]).
  - unfold handleAddSet. destruct (lt0 exerciseId) eqn:E; [exact Hinv|].
    split; [exact Hn|split; [|exact Hs]].
    intros x [= <-]. exact E.
  - unfold handleSaveNewSet.
    destruct (addingSetToExercise st) as [adding|] eqn:Ead; [|exact Hinv].
    destruct (truthy adding) eqn:Et; cbn [negb]; [|exact Hinv].
    destruct (workout st) as [w|]; [|exact Hinv].
    destruct (find _ (WorkoutSummary.exercises w)) as [exercise|]; [|exact Hinv].
    split; [|split; [intros x [=]|exact Hs]].
    cbn. intros key d Hin. apply In_set in Hin as [[= -> ->]|Hin]; [|now apply Hn].
    destruct (adding_truthy_positive adding (Ha _ Ead) Et) as (e & -> & He).
    exists e, (tempSetIdCounter st). repeat split. lia.
  - destruct (handleSaveAllChanges_storage remote st) as (Hst & _).
    destruct (handleSaveAllChanges_ledger remote st) as (Hpc & Had).
    now apply (new_sets_invariant_cleared st).
  - unfold handleDiscardChanges. repeat break_match; try exact Hinv;
      (split; [apply newSets_owned_nil|split; [exact Ha|exact Hs]]).
  - now apply fetchWorkoutSummary_new_sets.
  - unfold fetchWorkoutSummaryWithPendingPreservation.
    destruct (loadPreservation (setIsRestoring true st)) as [[saved counter] b] eqn:El.
    pose proof (loadPreservation_browser _ _ _ _ El) as (_ & _ & _ & Hst).
    assert (Hsb : storage_owned b) by now apply (storage_owned_same (browser st)).
    unfold Browser.fetch.
    destruct saved as [pc|].
    + destruct (loadPreservation_owned _ _ _ _ Hinv El) as (Hown & _).
      repeat break_match; cbn; (split; [|split; [exact Ha|exact Hsb]]);
        first [exact Hn|eapply newSets_owned_incl; [apply In_keep_valid|exact Hown]].
    + repeat break_match; cbn; (split; [exact Hn|split; [exact Ha|exact Hsb]]).
  - split; [exact Hn|split; [exact Ha|]]. now apply storage_owned_fire.
Qed.

Lemma new_sets_invariant_run remote actions st :
  new_sets_invariant st -> new_sets_invariant (run remote actions st).
Proof.
  unfold run. revert st. induction actions as [|a l IH]; intros st H; cbn.
  - exact H.
  - apply IH. now apply new_sets_invariant_step.
Qed.

(** ** The set projection: order and sequence numbers *)

Lemma insert_perm x l : Permutation (insert_by_set_number x l) (x :: l).
Proof.
  induction l as [|y l IH]; cbn; [reflexivity|].
  destruct (WorkoutSet.set_number x <=? WorkoutSet.set_number y); [reflexivity|].
  rewrite IH. apply perm_swap.
Qed.

Lemma sort_perm l : Permutation (sort_by_set_number l) l.
Proof.
  induction l as [|x l IH]; cbn; [reflexivity|].
  rewrite insert_perm. now constructor.
Qed.

Lemma insert_sorted x l :
  StronglySorted by_set_number l -> StronglySorted by_set_number (insert_by_set_number x l).
Proof.
  induction 1 as [|y l Hs IH Hf]; cbn; [repeat constructor|].
  destruct (WorkoutSet.set_number x <=? WorkoutSet.set_number y) eqn:E.
  - apply Z.leb_le in E. constructor; [now constructor|].
    constructor; [exact E|].
    eapply Forall_impl; [|exact Hf]. unfold by_set_number. intros z Hz. lia.
  - apply Z.leb_gt in E. constructor; [exact IH|].
    apply (Permutation_Forall (Permutation_sym (insert_perm x l))).
    constructor; [unfold by_set_number; lia|exact Hf].
Qed.

Lemma sort_sorted l : StronglySorted by_set_number (sort_by_set_number l).
Proof. induction l as [|x l IH]; cbn; [constructor|now apply insert_sorted]. Qed.

Lemma Math_max_ge x xs : x <= Math_max x xs /\ Forall (fun y => y <= Math_max x xs) xs.
Proof.
  unfold Math_max. revert x. induction xs as [|y xs IH]; intros x; cbn.
  - split; [lia|constructor].
  - destruct (IH (Z.max x y)) as [H1 H2]. split; [lia|].
    constructor; [lia|exact H2].
Qed.

(** The number given to a new set is above every displayed number. *)
Lemma nextSetNumber_above l :
  Forall (fun s => WorkoutSet.set_number s < nextSetNumber l) l.
Proof.
  unfold nextSetNumber. destruct l as [|s l]; [constructor|]. cbn [map].
  destruct (Math_max_ge (WorkoutSet.set_number s) (map WorkoutSet.set_number l))
    as [H1 H2].
  constructor; [lia|].
  apply Forall_forall. intros s' Hs'.
  pose proof (proj1 (Forall_forall _ _) H2 (WorkoutSet.set_number s')
                (in_map WorkoutSet.set_number l s' Hs')) as H3.
  cbn beta in H3. lia.
Qed.

Lemma set_fresh {K V : Type} `{EqKey K} (k : K) (v : V) (m : jsmap K V) :
  JS.get k m = None -> JS.set k v m = m ++ [(k, v)].
Proof.
  induction m as [|[k' v'] m IH]; cbn; [reflexivity|].
  destruct (eq_key k k'); [discriminate|]. intros Hg. now rewrite IH.
Qed.

(** C5, as stated, fails: with the first set of the sample exercise
    deleted, the projection is the second set alone, whose sequence number
    is 2; nothing renumbers it. *)
Lemma projection_minimum_not_one :
  map WorkoutSet.set_number (getDisplaySets (pendingChanges Sample.deleted5) Sample.bench)
  = [2].
Proof. vm_compute. reflexivity. Qed.

Lemma projection_ignores_newSets pc m :
  not_set_deleted (PendingChanges.with_newSets pc m) = not_set_deleted pc
  /\ apply_set_edit (PendingChanges.with_newSets pc m) = apply_set_edit pc
  /\ PendingChanges.newSets (PendingChanges.with_newSets pc m) = m.
Proof. repeat split. Qed.

(** What [handleSaveNewSet] records, and what it does to the projection of
    the exercise the set is added to. *)
Lemma handleSaveNewSet_display f nowIso st e w exercise :
  addingSetToExercise st = Some (Int e) -> 0 < e ->
  workout st = Some w ->
  find (fun ex => strict_eq (WorkoutExercise.id ex) (Int e)) (WorkoutSummary.exercises w)
  = Some exercise ->
  JS.get (newSetKey (Int e) (tempSetIdCounter st))
         (PendingChanges.newSets (pendingChanges st)) = None ->
  exists s,
    WorkoutSet.set_number s = nextSetNumber (getDisplaySets (pendingChanges st) exercise)
    /\ Permutation
         (getDisplaySets (pendingChanges (handleSaveNewSet f nowIso st)) exercise)
         (s :: getDisplaySets (pendingChanges st) exercise).
Proof.
  intros Ha He Hw Hfind Hfresh.
  assert (Hid : WorkoutExercise.id exercise = Int e).
  { apply find_some in Hfind as [_ Hs]. apply strict_eq_true in Hs. tauto. }
  unfold handleSaveNewSet. rewrite Ha. cbn [truthy].
  assert (Hnz : (e =? 0) = false) by (apply Z.eqb_neq; lia).
  rewrite Hnz. cbn [negb]. rewrite Hw, Hfind. cbn.
  rewrite (set_fresh _ _ _ Hfresh).
  set (d := NewSet.make _ _ _ _ _ _ _ _).
  exists (new_set_display (newSetKey (Int e) (tempSetIdCounter st), d)).
  split; [reflexivity|].
  unfold getDisplaySets at 1. rewrite sort_perm. unfold newSetsForExercise.
  destruct (projection_ignores_newSets (pendingChanges st)
              (PendingChanges.newSets (pendingChanges st)
               ++ [(newSetKey (Int e) (tempSetIdCounter st), d)])) as (E1 & E2 & E3).
  rewrite E1, E2, E3.
  rewrite filter_app, map_app. cbn [filter].
  rewrite Hid, (proj2 (new_set_of_newSetKey (Int e) e (tempSetIdCounter st) d
                         (Z.lt_le_incl _ _ He)) eq_refl).
  cbn [map]. rewrite app_assoc.
  rewrite <- Permutation_cons_append. constructor.
  unfold getDisplaySets. rewrite sort_perm. unfold newSetsForExercise.
  now rewrite Hid.
Qed.

(** C5, amended.  The projection is the undeleted sets of the exercise (with
    their edits) and its pending-new sets, put in ascending order of
    sequence number; it does not renumber.  A new set gets [1] when nothing
    is displayed, else the greatest displayed number plus one, which is above
    every displayed number: the projection after [handleSaveNewSet] is the
    projection before it plus the new set, and displayed numbers that were
    pairwise different remain so. *)
Theorem projection_sorted_and_new_set_above :
  (forall pc exercise,
      StronglySorted by_set_number (getDisplaySets pc exercise)
      /\ Permutation (getDisplaySets pc exercise) (displayedUnsorted pc exercise))
  /\ nextSetNumber [] = 1
  /\ (forall s l,
         nextSetNumber (s :: l)
         = Math_max (WorkoutSet.set_number s) (map WorkoutSet.set_number l) + 1
         /\ Forall (fun s' => WorkoutSet.set_number s' < nextSetNumber (s :: l)) (s :: l))
  /\ (forall f nowIso st e w exercise,
         addingSetToExercise st = Some (Int e) -> 0 < e ->
         workout st = Some w ->
         find (fun ex => strict_eq (WorkoutExercise.id ex) (Int e))
              (WorkoutSummary.exercises w) = Some exercise ->
         JS.get (newSetKey (Int e) (tempSetIdCounter st))
                (PendingChanges.newSets (pendingChanges st)) = None ->
         let before := getDisplaySets (pendingChanges st) exercise in
         let after := getDisplaySets (pendingChanges (handleSaveNewSet f nowIso st))
                                     exercise in
         Permutation (map WorkoutSet.set_number after)
                     (nextSetNumber before :: map WorkoutSet.set_number before)
         /\ (NoDup (map WorkoutSet.set_number before) ->
             NoDup (map WorkoutSet.set_number after))).
Proof.
  split; [|split; [reflexivity|split]].
  - intros pc exercise. split; [apply sort_sorted|apply sort_perm].
  - intros s l. split; [reflexivity|apply nextSetNumber_above].
  - intros f nowIso st e w exercise Ha He Hw Hfind Hfresh before after.
    destruct (handleSaveNewSet_display f nowIso st e w exercise Ha He Hw Hfind Hfresh)
      as (s & Hs & Hperm).
    fold before in Hs, Hperm. fold after in Hperm.
    assert (Hp : Permutation (map WorkoutSet.set_number after)
                             (nextSetNumber before :: map WorkoutSet.set_number before)).
    { rewrite <- Hs. change (WorkoutSet.set_number s :: map WorkoutSet.set_number before)
        with (map WorkoutSet.set_number (s :: before)). now apply Permutation_map. }
    split; [exact Hp|].
    intros Hnd. apply (Permutation_NoDup (Permutation_sym Hp)).
    constructor; [|exact Hnd].
    intros Hin. apply in_map_iff in Hin as (s' & E & Hs').
    pose proof (nextSetNumber_above before) as Hab.
    apply (proj1 (Forall_forall _ _) Hab) in Hs'. lia.
Qed.

(** At the sample workout: a set added to the bench press, displayed with
    numbers 1 and 2, is given number 3. *)
Lemma projection_sorted_and_new_set_above_witness :
  Permutation
    (map WorkoutSet.set_number
         (getDisplaySets
            (pendingChanges
               (handleSaveNewSet Sample.form "2024-05-01T11:00:00Z" Sample.adding_to_bench))
            Sample.bench))
    [3; 1; 2].
Proof.
  exact (proj1 (proj2 (proj2 (proj2 projection_sorted_and_new_set_above))
                 Sample.form "2024-05-01T11:00:00Z" Sample.adding_to_bench 3
                 Sample.push_day Sample.bench eq_refl eq_refl eq_refl eq_refl eq_refl)).
Defined.

(** ** The projections over the store of arrays *)

Lemma lookup_old l h rest :
  (l < List.length h)%nat -> Store.lookup l (h ++ rest) = Store.lookup l h.
Proof. intros Hl. unfold Store.lookup. now apply app_nth1. Qed.

Lemma lookup_offset h (k : nat) rest :
  Store.lookup (List.length h + k)%nat (h ++ rest) = nth k rest [].
Proof. unfold Store.lookup. apply app_nth2_plus. Qed.

Lemma update_offset h (k : nat) v rest :
  Store.update (List.length h + k)%nat v (h ++ rest) = h ++ Store.update k v rest.
Proof. induction h as [|a h IH]; cbn; [reflexivity|now rewrite IH]. Qed.

Lemma lookup_at h x rest : Store.lookup (List.length h) (h ++ x :: rest) = x.
Proof.
  unfold Store.lookup. rewrite app_nth2 by lia. now rewrite Nat.sub_diag.
Qed.

Lemma lookup_at1 h x y rest :
  Store.lookup (List.length (h ++ [x])) (h ++ x :: y :: rest) = y.
Proof.
  change (h ++ x :: y :: rest) with (h ++ [x] ++ y :: rest).
  rewrite app_assoc. apply lookup_at.
Qed.

Lemma update_at h v x rest :
  Store.update (List.length h) v (h ++ x :: rest) = h ++ v :: rest.
Proof. induction h as [|a h IH]; cbn; [reflexivity|now rewrite IH]. Qed.

(** The store after [getDisplaySets]: four arrays were added to it, the
    copy, the mapped copy, the filtered one (which receives the new sets
    and is sorted in place: the result) and the array of the new sets. *)
Lemma getDisplaySetsM_run pc (e : WorkoutExercise.ref) h :
  getDisplaySetsM pc e h
  = (List.length ((h ++ [Store.lookup (WorkoutExercise.sets e) h])
                  ++ [map (apply_set_edit pc) (Store.lookup (WorkoutExercise.sets e) h)]),
     ((h ++ [Store.lookup (WorkoutExercise.sets e) h])
      ++ [map (apply_set_edit pc) (Store.lookup (WorkoutExercise.sets e) h)])
     ++ [sort_by_set_number
           (filter (not_set_deleted pc)
                   (map (apply_set_edit pc) (Store.lookup (WorkoutExercise.sets e) h))
            ++ newSetsForExercise pc (WorkoutExercise.id e));
         newSetsForExercise pc (WorkoutExercise.id e)]).
Proof.
  unfold getDisplaySetsM, Array_copy, Array_map, Array_filter, Array_push, Array_sort,
    Store.bind, Store.read, Store.alloc, Store.write, Store.ret.
  set (A := Store.lookup (WorkoutExercise.sets e) h).
  rewrite (lookup_at h A []).
  set (B := map (apply_set_edit pc) A).
  rewrite (lookup_at (h ++ [A]) B []).
  set (H2 := (h ++ [A]) ++ [B]).
  set (X := filter (not_set_deleted pc) B).
  set (N := newSetsForExercise pc (WorkoutExercise.id e)).
  rewrite <- (app_assoc H2 [X] [N]). cbn [app].
  rewrite (lookup_at H2 X [N]), (lookup_at1 H2 X N []).
  rewrite (update_at H2 (X ++ N) X [N]).
  rewrite (lookup_at H2 (X ++ N) [N]).
  rewrite (update_at H2 (sort_by_set_number (X ++ N)) (X ++ N) [N]).
  reflexivity.
Qed.

Lemma resolve_sets h (e : WorkoutExercise.ref) :
  WorkoutExercise.sets (resolve h e) = Store.lookup (WorkoutExercise.sets e) h.
Proof. reflexivity. Qed.

Lemma resolve_old h rest (e : WorkoutExercise.ref) :
  (WorkoutExercise.sets e < List.length h)%nat -> resolve (h ++ rest) e = resolve h e.
Proof. intros Hl. unfold resolve. now rewrite lookup_old. Qed.

Lemma resolve_replace pc h (e : WorkoutExercise.ref) :
  resolve h (apply_exercise_replace pc e) = apply_exercise_replace pc (resolve h e)
  /\ WorkoutExercise.sets (apply_exercise_replace pc e) = WorkoutExercise.sets e
  /\ not_exercise_deleted pc (resolve h (apply_exercise_replace pc e))
     = not_exercise_deleted pc (apply_exercise_replace pc e).
Proof.
  unfold apply_exercise_replace, not_exercise_deleted.
  cbn [resolve WorkoutExercise.id WorkoutExercise.with_sets].
  destruct (JS.get (WorkoutExercise.id e) (PendingChanges.exercises pc)) as [c|];
    [|repeat split].
  destruct (PendingExerciseChange.type c); [repeat split|].
  destruct (PendingExerciseChange.newExerciseName c) as [n|]; [|repeat split].
  destruct (truthy_string (Some n)); repeat split.
Qed.

Lemma existing_resolve pc h h' (refs : list WorkoutExercise.ref) :
  (forall e, In e refs -> resolve h' e = resolve h e) ->
  map (resolve h') (existingExercises pc refs)
  = existingExercises pc (map (resolve h) refs)
  /\ Forall (fun e => In (WorkoutExercise.sets e) (map WorkoutExercise.sets refs))
            (existingExercises pc refs).
Proof.
  unfold existingExercises. induction refs as [|e refs IH]; intros Hres; cbn;
    [split; [reflexivity|constructor]|].
  destruct IH as [IH1 IH2]; [intros e' He'; apply Hres; now right|].
  destruct (resolve_replace pc h e) as (Hr & Hs & Hd).
  destruct (resolve_replace pc h' e) as (Hr' & _ & Hd').
  assert (Hsame : not_exercise_deleted pc (apply_exercise_replace pc (resolve h e))
                  = not_exercise_deleted pc (apply_exercise_replace pc e)).
  { now rewrite <- Hr, Hd. }
  rewrite Hsame.
  assert (Hf : Forall (fun e0 : WorkoutExercise.ref =>
                         WorkoutExercise.sets e = WorkoutExercise.sets e0
                         \/ In (WorkoutExercise.sets e0) (map WorkoutExercise.sets refs))
                      (filter (not_exercise_deleted pc)
                              (map (apply_exercise_replace pc) refs))).
  { eapply Forall_impl; [|exact IH2]. cbn. tauto. }
  destruct (not_exercise_deleted pc (apply_exercise_replace pc e)); cbn.
  - split; [|constructor; [left; now rewrite Hs|exact Hf]].
    rewrite IH1. f_equal. rewrite Hr'.
    now rewrite (Hres e (or_introl eq_refl)).
  - split; [exact IH1|exact Hf].
Qed.

Lemma untouched_app h rest : untouched h (h ++ rest).
Proof. intros l Hl. now apply lookup_old. Qed.

Lemma lookup_fresh_empty h n l :
  (List.length h <= l)%nat -> Store.lookup l (h ++ repeat [] n) = [].
Proof.
  intros Hl. unfold Store.lookup. rewrite app_nth2 by lia.
  generalize (l - List.length h)%nat. clear.
  induction n as [|n IH]; intros [|k]; cbn; auto.
Qed.

(** The store after the new exercises are built: one empty array each. *)
Lemma newExercisesM_run workoutId base index ns h :
  exists refs,
    newExercisesM workoutId base index ns h = (refs, h ++ repeat [] (List.length ns))
    /\ (forall n : nat, map (resolve (h ++ repeat [] (List.length ns + n)%nat)) refs
                  = mapi_from (fun i x => new_exercise_display workoutId base i x [])
                              index ns)
    /\ Forall (fun r : WorkoutExercise.ref =>
                 (List.length h <= WorkoutExercise.sets r)%nat) refs.
Proof.
  revert index h. induction ns as [|x ns IH]; intros index h; cbn [newExercisesM].
  - exists []. cbn. rewrite app_nil_r. repeat split. constructor.
  - unfold Store.bind, Store.alloc, Store.ret.
    destruct (IH (S index) (h ++ [[]])) as (rest & Hrun & Hres & Hb).
    rewrite Hrun. rewrite <- app_assoc. cbn [app List.length repeat].
    eexists. split; [reflexivity|]. split.
    + intros n. cbn [map mapi_from]. f_equal.
      * unfold resolve. cbn. now rewrite lookup_at.
      * specialize (Hres n). rewrite <- app_assoc in Hres. exact Hres.
    + constructor; [cbn; lia|].
      eapply Forall_impl; [|exact Hb]. cbn. intros r Hr.
      rewrite length_app in Hr. cbn in Hr. lia.
Qed.

Lemma untouched_resolve h h' (e : WorkoutExercise.ref) :
  untouched h h' -> (WorkoutExercise.sets e < List.length h)%nat ->
  resolve h' e = resolve h e.
Proof. intros Hu Hl. unfold resolve. now rewrite (Hu _ Hl). Qed.

(** One call of [getDisplaySets] over the store. *)
Lemma getDisplaySetsM_spec pc (e : WorkoutExercise.ref) h a h' :
  (WorkoutExercise.sets e < List.length h)%nat ->
  getDisplaySetsM pc e h = (a, h') ->
  Store.lookup a h' = getDisplaySets pc (resolve h e)
  /\ untouched h h'
  /\ (List.length h <= List.length h')%nat.
Proof.
  intros Hl Hrun. rewrite getDisplaySetsM_run in Hrun. injection Hrun as <- <-.
  split; [now rewrite lookup_at|]. split.
  - rewrite <- !app_assoc. apply untouched_app.
  - rewrite !length_app. lia.
Qed.

(** One call of [getDisplayExercises] over the store. *)
Lemma getDisplayExercisesM_spec pc (w : WorkoutSummary.t) (refs : list WorkoutExercise.ref)
    h d h' :
  Forall (fun e : WorkoutExercise.ref => (WorkoutExercise.sets e < List.length h)%nat) refs ->
  getDisplayExercisesM pc (Some (WorkoutSummary.id w, refs)) h = (d, h') ->
  map (resolve h') d
  = getDisplayExercisesOf pc (Some (WorkoutSummary.with_exercises w (map (resolve h) refs)))
  /\ untouched h h'
  /\ (List.length h <= List.length h')%nat.
Proof.
  intros Hrefs. unfold getDisplayExercisesM, Store.bind, Store.ret.
  set (ns := JS.values (PendingChanges.newExercises pc)).
  destruct (newExercisesM_run (WorkoutSummary.id w)
              (List.length (existingExercises pc refs)) 0 ns h) as (news & Hrun & Hres & _).
  rewrite Hrun. intros [= <- <-].
  split; [|split; [apply untouched_app|rewrite length_app; lia]].
  specialize (Hres 0%nat). rewrite Nat.add_0_r in Hres.
  rewrite map_app, Hres.
  destruct (existing_resolve pc h (h ++ repeat [] (List.length ns)) refs) as (He & _).
  { intros e He. apply resolve_old. exact (proj1 (Forall_forall _ _) Hrefs e He). }
  rewrite He. unfold getDisplayExercisesOf.
  cbn [WorkoutSummary.exercises WorkoutSummary.with_exercises WorkoutSummary.id].
  f_equal. fold ns. rewrite <- He, length_map. reflexivity.
Qed.

(** C6.  Over the store of arrays, [getDisplaySets] and
    [getDisplayExercises] write to arrays they have created only: every
    array that existed before the call (those of the workout among them) is
    unchanged after it, also when the exercise given to [getDisplaySets] is
    a displayed exercise sharing its array with the workout.  The array
    returned holds what the function on values computes, so a second call
    returns the same contents, and leaves the result of the first call as
    it was.  The ledger is only read. *)
Theorem projections_leave_inputs_untouched (pc : PendingChanges.t) (h : Store.t) :
  (forall (exercise : WorkoutExercise.ref) a1 h1 a2 h2,
      (WorkoutExercise.sets exercise < List.length h)%nat ->
      getDisplaySetsM pc exercise h = (a1, h1) ->
      getDisplaySetsM pc exercise h1 = (a2, h2) ->
      Store.lookup a1 h1 = getDisplaySets pc (resolve h exercise)
      /\ Store.lookup a2 h2 = Store.lookup a1 h1
      /\ untouched h h1
      /\ untouched h1 h2)
  /\ (forall (w : WorkoutSummary.t) (refs : list WorkoutExercise.ref) d1 h1 d2 h2,
         Forall (fun e : WorkoutExercise.ref =>
                   (WorkoutExercise.sets e < List.length h)%nat) refs ->
         getDisplayExercisesM pc (Some (WorkoutSummary.id w, refs)) h = (d1, h1) ->
         getDisplayExercisesM pc (Some (WorkoutSummary.id w, refs)) h1 = (d2, h2) ->
         map (resolve h1) d1
         = getDisplayExercisesOf pc
             (Some (WorkoutSummary.with_exercises w (map (resolve h) refs)))
         /\ map (resolve h2) d2 = map (resolve h1) d1
         /\ untouched h h1
         /\ untouched h1 h2).
Proof.
  split.
  - intros exercise a1 h1 a2 h2 Hl H1 H2.
    destruct (getDisplaySetsM_spec pc exercise h a1 h1 Hl H1) as (Hv1 & Hu1 & Hlen).
    assert (Hl' : (WorkoutExercise.sets exercise < List.length h1)%nat) by lia.
    destruct (getDisplaySetsM_spec pc exercise h1 a2 h2 Hl' H2) as (Hv2 & Hu2 & _).
    rewrite (untouched_resolve h h1 exercise Hu1 Hl) in Hv2.
    repeat split; try assumption. congruence.
  - intros w refs d1 h1 d2 h2 Hrefs H1 H2.
    destruct (getDisplayExercisesM_spec pc w refs h d1 h1 Hrefs H1) as (Hv1 & Hu1 & Hlen).
    assert (Hrefs' : Forall (fun e : WorkoutExercise.ref =>
                               (WorkoutExercise.sets e < List.length h1)%nat) refs).
    { eapply Forall_impl; [|exact Hrefs]. cbn. intros e He. lia. }
    destruct (getDisplayExercisesM_spec pc w refs h1 d2 h2 Hrefs' H2) as (Hv2 & Hu2 & _).
    assert (Hsame : map (resolve h1) refs = map (resolve h) refs).
    { apply map_ext_in. intros e He. apply untouched_resolve; [exact Hu1|].
      exact (proj1 (Forall_forall _ _) Hrefs e He). }
    rewrite Hsame in Hv2.
    repeat split; try assumption. congruence.
Qed.

(** At the sample store, whose first array holds set 6 before set 5: the
    projection of the bench press is in order, and the array of the workout
    still holds set 6 before set 5. *)
Lemma projections_leave_inputs_untouched_witness :
  Store.lookup (fst (getDisplaySetsM PendingChanges.empty Sample.bench_ref Sample.store))
               (snd (getDisplaySetsM PendingChanges.empty Sample.bench_ref Sample.store))
  = [Sample.set5; Sample.set6]
  /\ Store.lookup 0%nat (snd (getDisplaySetsM PendingChanges.empty Sample.bench_ref
                                              Sample.store))
     = [Sample.set6; Sample.set5].
Proof.
  destruct (getDisplaySetsM PendingChanges.empty Sample.bench_ref Sample.store)
    as [a1 h1] eqn:E1.
  destruct (getDisplaySetsM PendingChanges.empty Sample.bench_ref h1) as [a2 h2] eqn:E2.
  destruct (proj1 (projections_leave_inputs_untouched PendingChanges.empty Sample.store)
              Sample.bench_ref a1 h1 a2 h2 (Nat.lt_0_succ 1) E1 E2) as (Hv & _ & Hu & _).
  cbn [fst snd]. split.
  - rewrite Hv. reflexivity.
  - apply (Hu 0%nat). exact (Nat.lt_0_succ 1).
Defined.

(* ================================================================== *)
(** * Part III: further properties of the page *)
(* ================================================================== *)

(** ** Discarding and loading *)

Lemma map_id_ext {A : Type} (f : A -> A) (l : list A) :
  (forall x, f x = x) -> map f l = l.
Proof. intros Hf. induction l as [|x l IH]; cbn; [reflexivity|]. now rewrite Hf, IH. Qed.

Lemma filter_all {A : Type} (p : A -> bool) (l : list A) :
  (forall x, In x l -> p x = true) -> filter p l = l.
Proof.
  induction l as [|x l IH]; intros Hp; cbn; [reflexivity|].
  rewrite (Hp x (or_introl eq_refl)). f_equal. apply IH. intros y Hy. apply Hp. now right.
Qed.

Lemma existingExercises_empty (l : list WorkoutExercise.t) :
  existingExercises PendingChanges.empty l = l.
Proof.
  unfold existingExercises. rewrite map_id_ext by reflexivity.
  apply filter_all. reflexivity.
Qed.

Lemma getDisplaySets_empty (exercise : WorkoutExercise.t) :
  getDisplaySets PendingChanges.empty exercise
  = sort_by_set_number (WorkoutExercise.sets exercise).
Proof.
  unfold getDisplaySets, newSetsForExercise. cbn [PendingChanges.newSets PendingChanges.empty
    filter map]. rewrite app_nil_r, map_id_ext by reflexivity.
  f_equal. apply filter_all. reflexivity.
Qed.

(** X1.  A confirmed discard with a snapshot loaded empties the ledger and
    puts the snapshot back on display: the displayed exercises are those of
    the snapshot and the displayed sets of each are its sets in order of
    sequence number; nothing is sent, reported or navigated.  A declined
    discard changes nothing. *)
Theorem discard_restores_snapshot (st : State) (w : WorkoutSummary.t) :
  originalWorkout st = Some w ->
  let st' := handleDiscardChanges true st in
  pendingChanges st' = PendingChanges.empty
  /\ hasPendingChanges st' = false
  /\ workout st' = Some w
  /\ getDisplayExercises st' = WorkoutSummary.exercises w
  /\ (forall exercise,
         getDisplaySets (pendingChanges st') exercise
         = sort_by_set_number (WorkoutExercise.sets exercise))
  /\ browser st' = browser st
  /\ tempSetIdCounter st' = tempSetIdCounter st
  /\ handleDiscardChanges false st = st.
Proof.
  intros Ho st'.
  assert (Hpc : pendingChanges st' = PendingChanges.empty
                /\ workout st' = Some w /\ browser st' = browser st
                /\ tempSetIdCounter st' = tempSetIdCounter st).
  { subst st'. unfold handleDiscardChanges. cbn [negb].
    change (originalWorkout (setPendingChanges PendingChanges.empty st))
      with (originalWorkout st).
    rewrite Ho. repeat split. }
  destruct Hpc as (Hpc & Hw & Hb & Hc).
  split; [exact Hpc|]. split; [unfold hasPendingChanges; now rewrite Hpc|].
  split; [exact Hw|]. split.
  - unfold getDisplayExercises, getDisplayExercisesOf. rewrite Hpc, Hw.
    rewrite existingExercises_empty. cbn. apply app_nil_r.
  - split; [intros exercise; rewrite Hpc; apply getDisplaySets_empty|].
    repeat split; assumption.
Qed.

(** The sample session with a change of every kind pending, discarded: the
    two exercises of the snapshot are displayed again. *)
Lemma discard_restores_snapshot_witness :
  map WorkoutExercise.name (getDisplayExercises (handleDiscardChanges true Sample.busy))
  = ["Bench Press"; "Barbell Row"]
  /\ hasPendingChanges (handleDiscardChanges true Sample.busy) = false.
Proof.
  destruct (discard_restores_snapshot Sample.busy Sample.push_day eq_refl)
    as (_ & Hp & _ & Hd & _).
  split; [rewrite Hd; reflexivity|exact Hp].
Defined.

(** X2.  A save talks to the remote store exactly when there is a workout
    and something is pending: otherwise the state is left as it is, and when
    it does, at least one request is sent. *)
Theorem save_sends_requests_iff_pending (remote : Remote) (st : State) :
  (Browser.requests (browser (handleSaveAllChanges remote st)) = Browser.requests (browser st)
   <-> workout st = None \/ hasPendingChanges st = false)
  /\ (workout st = None \/ hasPendingChanges st = false ->
      handleSaveAllChanges remote st = st).
Proof.
  assert (Hnoop : workout st = None \/ hasPendingChanges st = false ->
                  handleSaveAllChanges remote st = st).
  { intros [H|H]; unfold handleSaveAllChanges; rewrite H; [reflexivity|].
    now destruct (workout st). }
  split; [|exact Hnoop]. split; [|intros H; now rewrite (Hnoop H)].
  intros Hreq.
  destruct (workout st) as [w|] eqn:Hw; [|now left]. right.
  destruct (hasPendingChanges st) eqn:Hp; [exfalso|reflexivity].
  apply (f_equal (@List.length Request)) in Hreq.
  destruct (saveAll remote w (pendingChanges st) (browser st)) as [[[]|e] b'] eqn:Hsave.
  - destruct (handleSaveAllChanges_success remote st w b' Hw Hp Hsave) as (_ & Hr & _).
    rewrite Hr in Hreq. rewrite !length_app in Hreq. cbn in Hreq. lia.
  - pose proof (issue_spec remote (plan w (pendingChanges st)) (browser st)) as Hspec.
    rewrite <- saveAll_issue, Hsave in Hspec.
    destruct Hspec as (_ & done & r & msg & rest & _ & Hr & _).
    unfold handleSaveAllChanges in Hreq. rewrite Hw, Hp in Hreq. cbn [negb] in Hreq.
    change (saveAll remote w (pendingChanges (setIsSaving true st))
                    (browser (setIsSaving true st)))
      with (saveAll remote w (pendingChanges st) (browser st)) in Hreq.
    rewrite Hsave in Hreq. cbn in Hreq. rewrite Hr in Hreq.
    rewrite !length_app in Hreq. cbn in Hreq. lia.
Qed.



(** ** Restoration: failures and round trips *)



(** X5.  When the stored blob does not parse, or parses to an object with
    no [pendingChanges], and the reload succeeds, the restoration takes the
    fresh data as snapshot and as displayed workout, leaves the ledger in
    memory as it is and navigates to the history; no delayed clear is
    registered and the blob stays in [sessionStorage]. *)
Theorem corrupt_blob_aborts_restoration (remote : Remote) (now : Z) (st : State)
    (item : StoredItem) (data : WorkoutSummary.t) :
  JS.get (preservationKey st) (Browser.sessionStorage (browser st)) = Some item ->
  (item = Unparsable
   \/ exists parsed, item = Parsed parsed /\ Blob.pendingChanges parsed = None) ->
  remote (Browser.requests (browser st)) (GetWorkout (routeId st) (Some now))
  = Response true (WorkoutBody data) ->
  let st' := fetchWorkoutSummaryWithPendingPreservation remote now st in
  pendingChanges st' = pendingChanges st
  /\ originalWorkout st' = Some data
  /\ workout st' = Some data
  /\ isRestoring st' = false
  /\ Browser.navigations (browser st') = Browser.navigations (browser st) ++ ["/history"]
  /\ Browser.timers (browser st') = Browser.timers (browser st)
  /\ Browser.sessionStorage (browser st') = Browser.sessionStorage (browser st).
Proof.
  intros Hget Hitem Hfetch st'. subst st'.
  unfold fetchWorkoutSummaryWithPendingPreservation, loadPreservation.
  change (preservationKey (setIsRestoring true st)) with (preservationKey st).
  change (browser (setIsRestoring true st)) with (browser st).
  rewrite Hget.
  destruct Hitem as [->|(parsed & -> & Hnone)]; [|rewrite Hnone];
    unfold Browser.fetch; cbn [routeId setIsRestoring]; rewrite Hfetch; cbn;
    repeat split.
Qed.

(** The page with the delete of set 5 pending, coming back to a blob that
    does not parse. *)
Lemma corrupt_blob_aborts_restoration_witness :
  Browser.navigations
    (browser (fetchWorkoutSummaryWithPendingPreservation Sample.accepting 1800
                (setBrowser (Browser.make [] [] [("workout-1-preservation", Unparsable)]
                                          [] [])
                            Sample.deleted5)))
  = ["/history"]
  /\ JS.keys (PendingChanges.sets
                (pendingChanges
                   (fetchWorkoutSummaryWithPendingPreservation Sample.accepting 1800
                      (setBrowser (Browser.make [] [] [("workout-1-preservation", Unparsable)]
                                                [] [])
                                  Sample.deleted5))))
     = [Int 5].
Proof.
  destruct (corrupt_blob_aborts_restoration Sample.accepting 1800
              (setBrowser (Browser.make [] [] [("workout-1-preservation", Unparsable)]
                                        [] [])
                          Sample.deleted5)
              Unparsable Sample.push_day eq_refl (or_introl eq_refl) eq_refl)
    as (Hp & _ & _ & _ & Hn & _).
  split; [rewrite Hn|rewrite Hp]; vm_compute; reflexivity.
Defined.

Lemma keep_valid_valid {K V : Type} `{EqKey K} (P : K -> bool) (m : jsmap K V) kv :
  In kv (keep_valid P m) -> P (fst kv) = true.
Proof.
  unfold keep_valid.
  assert (Hgen : forall (es acc : jsmap K V),
             (forall x, In x acc -> P (fst x) = true) ->
             forall x,
               In x (fold_left (fun a y => if P (fst y) then JS.set (fst y) (snd y) a else a)
                               es acc) ->
               P (fst x) = true).
  { induction es as [|e es IH]; intros acc Hacc x Hx; cbn in Hx; [now apply Hacc|].
    apply (IH _) in Hx; [exact Hx|]. intros y Hy.
    destruct (P (fst e)) eqn:E; [|now apply Hacc].
    apply In_set in Hy as [->|Hy]; [exact E|now apply Hacc]. }
  apply Hgen. intros x [].
Qed.

Lemma keep_valid_idempotent {K V : Type} `{EqKey K} (P : K -> bool) (m : jsmap K V) :
  keep_valid P (keep_valid P m) = keep_valid P m.
Proof.
  rewrite (keep_valid_filter P (keep_valid P m)) by apply unique_keep_valid.
  apply filter_all. intros kv Hkv. now apply keep_valid_valid in Hkv.
Qed.

Lemma keep_valid_all {K V : Type} `{EqKey K} (P : K -> bool) (m : jsmap K V) :
  unique_keys m -> (forall kv, In kv m -> P (fst kv) = true) -> keep_valid P m = m.
Proof.
  intros Hu Hall. rewrite keep_valid_filter by assumption. now apply filter_all.
Qed.

(** X6.  Filtering a ledger against a snapshot is idempotent and only ever
    removes entries: restoring twice against the same data gives what
    restoring once gives, and every entry of the filtered ledger is an entry
    of the saved one. *)
Theorem reconcile_idempotent (saved : PendingChanges.t) (data : WorkoutSummary.t) :
  reconcile (reconcile saved data) data = reconcile saved data
  /\ incl (PendingChanges.sets (reconcile saved data)) (PendingChanges.sets saved)
  /\ incl (PendingChanges.exercises (reconcile saved data)) (PendingChanges.exercises saved)
  /\ incl (PendingChanges.newSets (reconcile saved data)) (PendingChanges.newSets saved)
  /\ incl (PendingChanges.newExercises (reconcile saved data))
          (PendingChanges.newExercises saved).
Proof.
  split.
  - unfold reconcile. cbn [PendingChanges.workout PendingChanges.sets
      PendingChanges.exercises PendingChanges.newSets PendingChanges.newExercises].
    now rewrite !keep_valid_idempotent.
  - unfold reconcile; cbn; repeat split; intros kv Hkv; now apply In_keep_valid in Hkv.
Qed.

Lemma ledger_copy_unique pc : ledger_unique pc -> ledger_copy pc = pc.
Proof.
  intros (H1 & H2 & H3 & H4). destruct pc as [w s e ns ne]. unfold ledger_copy.
  cbn [PendingChanges.workout PendingChanges.sets PendingChanges.exercises
       PendingChanges.newSets PendingChanges.newExercises] in *.
  rewrite !of_entries_unique by assumption. reflexivity.
Qed.

Lemma reconcile_all_valid pc data :
  ledger_unique pc ->
  newSets_owned (PendingChanges.newSets pc) ->
  (forall k c, In (k, c) (PendingChanges.sets pc) -> k <> NaN /\ snapshot_has_set data k) ->
  (forall k c, In (k, c) (PendingChanges.exercises pc) -> snapshot_has_exercise data k) ->
  (forall key d, In (key, d) (PendingChanges.newSets pc) ->
                 snapshot_has_exercise data (NewSet.workout_exercise_id d)) ->
  reconcile pc data = pc.
Proof.
  intros (H1 & H2 & H3 & H4) Hown Hsets Hex Hnew.
  assert (E1 : keep_valid (set_exists data) (PendingChanges.sets pc) = PendingChanges.sets pc).
  { apply keep_valid_all; [exact H1|]. intros [k c] Hin. cbn [fst].
    apply set_exists_true. destruct (Hsets k c Hin). now split. }
  assert (E2 : keep_valid (ids_has (currentExerciseIds data)) (PendingChanges.exercises pc)
               = PendingChanges.exercises pc).
  { apply keep_valid_all; [exact H2|]. intros [k c] Hin. cbn [fst].
    apply ids_has_true. exact (Hex k c Hin). }
  assert (E3 : keep_valid (fun key => ids_has (currentExerciseIds data) (newSetOwner key))
                          (PendingChanges.newSets pc)
               = PendingChanges.newSets pc).
  { apply keep_valid_all; [exact H3|]. intros [k d] Hin. cbn [fst].
    destruct (Hown k d Hin) as (x & t & Hx & -> & Hd).
    rewrite newSetOwner_newSetKey by exact Hx. apply ids_has_true.
    rewrite <- Hd. exact (Hnew _ d Hin). }
  assert (E4 : keep_valid (fun _ : string => true) (PendingChanges.newExercises pc)
               = PendingChanges.newExercises pc).
  { apply keep_valid_all; [exact H4|]. reflexivity. }
  unfold reconcile. rewrite E1, E2, E3, E4. now destruct pc.
Qed.

(** X7.  Without a stored blob the restoration works on the ledger held in
    memory, and when every entry of it still has its target in the fresh
    data the restoration leaves the ledger exactly as it was, with the
    counter of temporary ids; the fresh data becomes the snapshot and is
    displayed under the pending header patch; the page stays. *)
Theorem restoration_keeps_valid_ledger (remote : Remote) (now : Z) (st : State)
    (data : WorkoutSummary.t) :
  JS.get (preservationKey st) (Browser.sessionStorage (browser st)) = None ->
  remote (Browser.requests (browser st)) (GetWorkout (routeId st) (Some now))
  = Response true (WorkoutBody data) ->
  ledger_unique (pendingChanges st) ->
  newSets_owned (PendingChanges.newSets (pendingChanges st)) ->
  (forall k c, In (k, c) (PendingChanges.sets (pendingChanges st)) ->
               k <> NaN /\ snapshot_has_set data k) ->
  (forall k c, In (k, c) (PendingChanges.exercises (pendingChanges st)) ->
               snapshot_has_exercise data k) ->
  (forall key d, In (key, d) (PendingChanges.newSets (pendingChanges st)) ->
                 snapshot_has_exercise data (NewSet.workout_exercise_id d)) ->
  let st' := fetchWorkoutSummaryWithPendingPreservation remote now st in
  pendingChanges st' = pendingChanges st
  /\ tempSetIdCounter st' = tempSetIdCounter st
  /\ originalWorkout st' = Some data
  /\ workout st'
     = Some match PendingChanges.workout (pendingChanges st) with
            | Some q => WorkoutPatch.apply data q
            | None => data
            end
  /\ isRestoring st' = false
  /\ browser st'
     = Browser.with_requests (browser st)
         (Browser.requests (browser st) ++ [GetWorkout (routeId st) (Some now)]).
Proof.
  intros Hget Hfetch Hu Hown Hsets Hex Hnew st'. subst st'.
  unfold fetchWorkoutSummaryWithPendingPreservation, loadPreservation.
  change (preservationKey (setIsRestoring true st)) with (preservationKey st).
  change (browser (setIsRestoring true st)) with (browser st).
  change (pendingChanges (setIsRestoring true st)) with (pendingChanges st).
  rewrite Hget, (ledger_copy_unique _ Hu).
  unfold Browser.fetch. cbn [routeId setIsRestoring]. rewrite Hfetch. cbn.
  rewrite (reconcile_all_valid _ _ Hu Hown Hsets Hex Hnew).
  repeat split.
Qed.

(** The page with the delete of set 5 pending, no blob stored: set 5 is in
    the fresh data and its delete stays pending. *)
Lemma restoration_keeps_valid_ledger_witness :
  pendingChanges (fetchWorkoutSummaryWithPendingPreservation Sample.accepting 1800
                                                             Sample.deleted5)
  = pendingChanges Sample.deleted5.
Proof.
  refine (proj1 (restoration_keeps_valid_ledger Sample.accepting 1800 Sample.deleted5
                   Sample.push_day eq_refl eq_refl _ _ _ _ _)).
  - vm_compute. repeat split; repeat constructor; intros [].
  - intros key d [].
  - intros k c [[= <- <-]|[]]. split; [discriminate|].
    exists Sample.bench, Sample.set5. repeat split; cbn; auto.
  - intros k c [].
  - intros key d [].
Defined.

(** ** The header of the workout *)

Lemma apply_merge w p q :
  WorkoutPatch.apply (WorkoutPatch.apply w p) q = WorkoutPatch.apply w (WorkoutPatch.merge p q).
Proof.
  destruct w, p as [n1 o1 s1 c1 d1 i1], q as [n2 o2 s2 c2 d2 i2].
  unfold WorkoutPatch.apply, WorkoutPatch.merge. cbn. f_equal.
  - now destruct n2.
  - now destruct o2.
  - now destruct s2.
  - now destruct c2.
  - now destruct d2.
  - now destruct i2.
Qed.

Lemma same_header_apply a b q :
  same_header a b -> same_header (WorkoutPatch.apply a q) (WorkoutPatch.apply b q).
Proof.
  intros (H1 & H2 & H3 & H4 & H5 & H6 & H7). unfold same_header, WorkoutPatch.apply. cbn.
  rewrite H1, H2, H3, H4, H5, H6, H7. repeat split.
Qed.

Lemma recordHeaderPatch_overlaid q st :
  header_overlaid st -> header_overlaid (recordHeaderPatch q st).
Proof.
  intros (o & w & Ho & Hw & Hh). exists o, (WorkoutPatch.apply w q).
  unfold recordHeaderPatch, updateWorkout, updatePendingChanges. cbn.
  rewrite Ho, Hw. cbn. split; [reflexivity|]. split; [reflexivity|].
  rewrite <- apply_merge. now apply same_header_apply.
Qed.

Lemma recordHeaderPatch_patch q st :
  PendingChanges.workout (pendingChanges (recordHeaderPatch q st))
  = Some (WorkoutPatch.merge (patch_of (PendingChanges.workout (pendingChanges st))) q)
  /\ PendingChanges.sets (pendingChanges (recordHeaderPatch q st))
     = PendingChanges.sets (pendingChanges st)
  /\ PendingChanges.exercises (pendingChanges (recordHeaderPatch q st))
     = PendingChanges.exercises (pendingChanges st)
  /\ PendingChanges.newSets (pendingChanges (recordHeaderPatch q st))
     = PendingChanges.newSets (pendingChanges st)
  /\ PendingChanges.newExercises (pendingChanges (recordHeaderPatch q st))
     = PendingChanges.newExercises (pendingChanges st).
Proof. repeat split. Qed.

(** X8.  The header saves compose key by key.  When the displayed header
    is the snapshot's header under the pending header patch, it still is
    after saving the title, the intensity, the notes or the duration; a save
    writes its own keys in the pending patch and keeps every other key of
    it, and leaves the four maps of the ledger alone. *)
Theorem header_saves_compose (st : State) :
  header_overlaid st ->
  let old := patch_of (PendingChanges.workout (pendingChanges st)) in
  let patch_after st' := patch_of (PendingChanges.workout (pendingChanges st')) in
  header_overlaid (handleSaveTitle st)
  /\ header_overlaid (handleSaveIntensity st)
  /\ (forall trimmed, header_overlaid (handleSaveNotes trimmed st))
  /\ (forall s e si ei, header_overlaid (handleSaveDuration s e si ei st))
  /\ patch_after (handleSaveTitle st)
     = WorkoutPatch.make (Some (tempWorkoutName st)) (WorkoutPatch.notes old)
         (WorkoutPatch.started_at old) (WorkoutPatch.completed_at old)
         (WorkoutPatch.duration_minutes old) (WorkoutPatch.intensity_level old)
  /\ patch_after (handleSaveIntensity st)
     = WorkoutPatch.make (WorkoutPatch.name old) (WorkoutPatch.notes old)
         (WorkoutPatch.started_at old) (WorkoutPatch.completed_at old)
         (WorkoutPatch.duration_minutes old) (Some (tempIntensity st))
  /\ (forall trimmed,
         patch_after (handleSaveNotes trimmed st)
         = WorkoutPatch.make (WorkoutPatch.name old)
             (Some (if String.eqb trimmed "" then None else Some trimmed))
             (WorkoutPatch.started_at old) (WorkoutPatch.completed_at old)
             (WorkoutPatch.duration_minutes old) (WorkoutPatch.intensity_level old))
  /\ (forall st', st' = handleSaveTitle st \/ st' = handleSaveIntensity st
                  \/ (exists trimmed, st' = handleSaveNotes trimmed st) ->
                  hasPendingChanges st' = true
                  /\ PendingChanges.sets (pendingChanges st')
                     = PendingChanges.sets (pendingChanges st)
                  /\ PendingChanges.exercises (pendingChanges st')
                     = PendingChanges.exercises (pendingChanges st)
                  /\ PendingChanges.newSets (pendingChanges st')
                     = PendingChanges.newSets (pendingChanges st)
                  /\ PendingChanges.newExercises (pendingChanges st')
                     = PendingChanges.newExercises (pendingChanges st)).
Proof.
  intros Hov old patch_after. subst old patch_after. cbv beta.
  split; [apply recordHeaderPatch_overlaid, Hov|].
  split; [apply recordHeaderPatch_overlaid, Hov|].
  split; [intros trimmed; apply recordHeaderPatch_overlaid, Hov|].
  split.
  { intros s e si ei. unfold handleSaveDuration.
    destruct (workout st) eqn:Hw; [|exact Hov].
    destruct (e <=? s); [|apply recordHeaderPatch_overlaid, Hov].
    destruct Hov as (o & w & Ho & Hw' & Hh). exists o, w. cbn. now rewrite Ho, Hw'. }
  split; [|split; [|split]].
  - unfold handleSaveTitle. cbn.
    destruct (patch_of (PendingChanges.workout (pendingChanges st))) as [n o s c d i].
    cbn. now destruct n.
  - unfold handleSaveIntensity. cbn.
    destruct (patch_of (PendingChanges.workout (pendingChanges st))) as [n o s c d i].
    cbn. now destruct i.
  - intros trimmed. unfold handleSaveNotes. cbn.
    destruct (patch_of (PendingChanges.workout (pendingChanges st))) as [n o s c d i].
    cbn. destruct trimmed; cbn; now destruct o.
  - intros st' Hst'.
    assert (Hkey : forall q, (0 < WorkoutPatch.key_count q)%nat ->
                     hasPendingChanges (recordHeaderPatch q st) = true).
    { intros q Hq. unfold hasPendingChanges, has_workout_changes. cbv zeta.
      rewrite (proj1 (recordHeaderPatch_patch q st)).
      assert (Hpos : (0 <? WorkoutPatch.key_count
                            (WorkoutPatch.merge
                               (patch_of (PendingChanges.workout (pendingChanges st))) q))%nat
                     = true).
      { apply Nat.ltb_lt.
        destruct (patch_of (PendingChanges.workout (pendingChanges st))) as [n o s c d i].
        destruct q as [n' o' s' c' d' i']. unfold WorkoutPatch.key_count in *. cbn in *.
        destruct n', o', s', c', d', i'; cbn in *; lia. }
      rewrite Hpos. apply orb_true_r. }
    destruct Hst' as [->|[->|(trimmed & ->)]];
      (split; [apply Hkey; cbn; lia|repeat split]).
Qed.

(** On the loaded sample page: the name is saved, then the intensity; both
    keys are pending. *)
Lemma header_saves_compose_witness :
  PendingChanges.workout (pendingChanges (handleSaveIntensity (handleSaveTitle Sample.loaded)))
  = Some (WorkoutPatch.make (Some "Push day") None None None None (Some 3)).
Proof.
  assert (Hov : header_overlaid Sample.loaded).
  { exists Sample.push_day, Sample.push_day. repeat split. }
  destruct (header_saves_compose Sample.loaded Hov) as (Hov' & _).
  destruct (header_saves_compose (handleSaveTitle Sample.loaded) Hov')
    as (_ & _ & _ & _ & _ & Hi & _).
  cbv beta in Hi.
  destruct (PendingChanges.workout
              (pendingChanges (handleSaveIntensity (handleSaveTitle Sample.loaded))))
    as [p|] eqn:E; [|discriminate E].
  cbn [patch_of] in Hi. rewrite Hi. reflexivity.
Defined.

(** X9.  Saving the duration with an end that is not after the start only
    raises an alert.  Otherwise the start and the end are recorded with the
    number of minutes between them, rounded to the nearest minute (half a
    minute going up): it is never negative, it is the exact number when the
    two times are whole minutes apart, and the displayed workout shows it. *)
Theorem save_duration_rounds_to_minutes (st : State) (w : WorkoutSummary.t)
    (startTime endTime : Z) (startIso endIso : string) :
  workout st = Some w ->
  let st' := handleSaveDuration startTime endTime startIso endIso st in
  (endTime <= startTime ->
   pendingChanges st' = pendingChanges st
   /\ workout st' = workout st
   /\ Browser.alerts (browser st')
      = Browser.alerts (browser st) ++ ["End time must be after start time"])
  /\ (startTime < endTime ->
      exists d p w',
        PendingChanges.workout (pendingChanges st') = Some p
        /\ WorkoutPatch.duration_minutes p = Some d
        /\ WorkoutPatch.started_at p = Some startIso
        /\ WorkoutPatch.completed_at p = Some endIso
        /\ workout st' = Some w'
        /\ WorkoutSummary.duration_minutes w' = d
        /\ WorkoutSummary.started_at w' = startIso
        /\ WorkoutSummary.completed_at w' = endIso
        /\ 0 <= d
        /\ 60000 * d - 30000 <= endTime - startTime < 60000 * d + 30000
        /\ (forall k, endTime - startTime = 60000 * k -> d = k)
        /\ browser st' = browser st).
Proof.
  intros Hw st'. subst st'. unfold handleSaveDuration. rewrite Hw. split.
  - intros Hle. apply Z.leb_le in Hle. rewrite Hle. repeat split. exact Hw.
  - intros Hlt. assert (E : (endTime <=? startTime) = false) by (apply Z.leb_gt; lia).
    rewrite E.
    assert (Hd := Z.div_mod (2 * (endTime - startTime) + 60000) 120000 ltac:(lia)).
    assert (Hm := Z.mod_pos_bound (2 * (endTime - startTime) + 60000) 120000 ltac:(lia)).
    set (d := (2 * (endTime - startTime) + 60000) / 120000) in *. clearbody d.
    exists d.
    unfold recordHeaderPatch, updateWorkout, updatePendingChanges.
    cbn -[Z.mul Z.add Z.sub].
    rewrite Hw. cbn -[Z.mul Z.add Z.sub]. eexists. eexists.
    split; [reflexivity|].
    repeat split; try reflexivity; lia.
Qed.

(** On the loaded sample page: from 09:55:00 to 10:40:29 is 45 minutes. *)
Lemma save_duration_rounds_to_minutes_witness :
  option_map WorkoutSummary.duration_minutes
    (workout (handleSaveDuration 1714557300000 1714560029000
                                 "2024-05-01T09:55:00.000Z" "2024-05-01T10:40:29.000Z"
                                 Sample.loaded))
  = Some 45.
Proof.
  destruct (proj2 (save_duration_rounds_to_minutes Sample.loaded Sample.push_day
                     1714557300000 1714560029000
                     "2024-05-01T09:55:00.000Z" "2024-05-01T10:40:29.000Z" eq_refl)
                  eq_refl)
    as (d & p & w' & _ & _ & _ & _ & Hw & Hd & _ & _ & _ & Hr & _).
  rewrite Hw. cbn. f_equal. lia.
Defined.

(** ** The generated title *)

Lemma existsb_eqb_In x seen : existsb (String.eqb x) seen = true <-> In x seen.
Proof.
  rewrite existsb_exists. split.
  - intros (y & Hy & E). apply String.eqb_eq in E. now subst.
  - intros Hx. exists x. split; [exact Hx|apply String.eqb_refl].
Qed.

Lemma unique_spec xs : forall seen,
  NoDup (unique xs seen)
  /\ (forall g, In g (unique xs seen) <-> In g xs /\ ~ In g seen).
Proof.
  induction xs as [|x xs IH]; intros seen; cbn [unique].
  - split; [constructor|]. intros g. cbn. tauto.
  - destruct (existsb (String.eqb x) seen) eqn:E.
    + destruct (IH seen) as (Hnd & Hin). split; [exact Hnd|].
      intros g. rewrite Hin. cbn. apply existsb_eqb_In in E.
      split; [tauto|]. intros [[<-|Hg] Hns]; [contradiction|tauto].
    + destruct (IH (x :: seen)) as (Hnd & Hin).
      assert (Hx : ~ In x seen).
      { intros Hx. apply existsb_eqb_In in Hx. congruence. }
      split.
      * constructor; [|exact Hnd]. rewrite Hin. cbn. tauto.
      * intros g. cbn. rewrite Hin. cbn. split.
        -- intros [<-|(Hg & Hns)]; [tauto|]. tauto.
        -- intros [[<-|Hg] Hns]; [now left|].
           destruct (string_dec x g) as [->|Hne]; [now left|]. right. tauto.
Qed.

(** X10.  The generated title of a workout without exercises is
    ["Workout"]; otherwise it is made of the muscle groups of the
    exercises, each once, starting with the group of the first exercise, at
    most three of them, separated by [", "] and followed by [" Workout"]. *)
Theorem generateWorkoutTitle_lists_groups (e : WorkoutExercise.t)
    (exercises : list WorkoutExercise.t) :
  let groups := distinct (map WorkoutExercise.muscle_group (e :: exercises)) in
  generateWorkoutTitle [] = "Workout"
  /\ generateWorkoutTitle (e :: exercises)
     = (join_with ", " (firstn 3 groups) ++ " Workout")%string
  /\ hd_error groups = Some (WorkoutExercise.muscle_group e)
  /\ NoDup groups
  /\ (forall g, In g groups <-> In g (map WorkoutExercise.muscle_group (e :: exercises))).
Proof.
  intros groups. split; [reflexivity|].
  destruct (unique_spec (map WorkoutExercise.muscle_group (e :: exercises)) [])
    as (Hnd & Hin).
  split; [|split; [reflexivity|split; [exact Hnd|]]].
  - unfold generateWorkoutTitle. subst groups. unfold distinct.
    destruct (unique (map WorkoutExercise.muscle_group (e :: exercises)) [])
      as [|a [|b [|c rest]]] eqn:E.
    + cbn in E. discriminate E.
    + reflexivity.
    + cbn [firstn join_with]. now rewrite !append_assoc_string.
    + cbn [firstn join_with]. now rewrite !append_assoc_string.
  - intros g. subst groups. unfold distinct. rewrite Hin. cbn. tauto.
Qed.

(** ** The exercise picker and the exercises on display *)

Lemma mapi_from_app {A B : Type} (f : nat -> A -> B) (xs ys : list A) : forall i,
  mapi_from f i (xs ++ ys) = mapi_from f i xs ++ mapi_from f (i + List.length xs) ys.
Proof.
  induction xs as [|x xs IH]; intros i; cbn.
  - now rewrite Nat.add_0_r.
  - rewrite IH. replace (S i + List.length xs)%nat with (i + S (List.length xs))%nat by lia.
    reflexivity.
Qed.





Lemma fetchExercise_requests remote x b :
  Browser.requests (snd (fetchExercise remote x b)) = Browser.requests b ++ [GetExercise x]
  /\ Browser.alerts (snd (fetchExercise remote x b)) = Browser.alerts b
  /\ Browser.navigations (snd (fetchExercise remote x b)) = Browser.navigations b.
Proof. unfold fetchExercise, Browser.fetch. repeat break_match; repeat split. Qed.





Lemma existing_ignores_newExercises {S : Type} pc m (l : list (WorkoutExercise.gen S)) :
  existingExercises (PendingChanges.with_newExercises pc m) l = existingExercises pc l.
Proof. reflexivity. Qed.







Lemma apply_exercise_replace_id {S : Type} pc (e : WorkoutExercise.gen S) :
  WorkoutExercise.id (apply_exercise_replace pc e) = WorkoutExercise.id e.
Proof. unfold apply_exercise_replace. repeat break_match; reflexivity. Qed.

Lemma rename_after_replace {S : Type} pc (e : WorkoutExercise.gen S) n x :
  WorkoutExercise.with_name_and_exercise_id (apply_exercise_replace pc e) n x
  = WorkoutExercise.with_name_and_exercise_id e n x.
Proof. unfold apply_exercise_replace. repeat break_match; reflexivity. Qed.

(** X13.  A replacement recorded through the picker for an exercise on
    display (no delete is pending for it): the entry for the exercise is the
    replacement, whatever was pending for it; among the exercises of the
    workout, the one with that id is displayed under the name and the id of
    the new exercise with its own category, muscle group, equipment, video
    and sets, and the displayed list is otherwise what it was, in the same
    order; the pending-new exercises are displayed as before. *)
Theorem replacement_shows_new_name (remote : Remote) (now : Z) (st : State)
    (w : WorkoutSummary.t) (r x : number) (new : Exercise.t) (b : Browser.t) :
  workout st = Some w ->
  is_replacing st = Some r ->
  fetchExercise remote x (browser st) = (Some new, b) ->
  Exercise.name new <> "" ->
  truthy x = true ->
  (forall c, JS.get r (PendingChanges.exercises (pendingChanges st)) = Some c ->
             PendingExerciseChange.is_delete c = false) ->
  let st' := handleAddSelectedExercises remote now [x] st in
  let existing := existingExercises (pendingChanges st) (WorkoutSummary.exercises w) in
  let shown d :=
    if eq_key (WorkoutExercise.id d) r
    then WorkoutExercise.with_name_and_exercise_id d (Exercise.name new) x
    else d in
  JS.get r (PendingChanges.exercises (pendingChanges st'))
  = Some (PendingExerciseChange.make r PendingExerciseChange.replace (Some x)
                                     (Some (Exercise.name new)))
  /\ (exists news,
         getDisplayExercises st = existing ++ news
         /\ getDisplayExercises st' = map shown existing ++ news)
  /\ PendingChanges.newExercises (pendingChanges st')
     = PendingChanges.newExercises (pendingChanges st)
  /\ PendingChanges.sets (pendingChanges st') = PendingChanges.sets (pendingChanges st)
  /\ Browser.alerts (browser st') = Browser.alerts (browser st).
Proof.
  intros Hw Hr Hf Hname Hx Hshown st' existing shown.
  set (entry := PendingExerciseChange.make r PendingExerciseChange.replace (Some x)
                                           (Some (Exercise.name new))).
  set (pc' := PendingChanges.with_exercises (pendingChanges st)
                (JS.set r entry (PendingChanges.exercises (pendingChanges st)))).
  assert (Hst : st' = setPendingChanges pc' (setBrowser b st)).
  { subst st'. unfold handleAddSelectedExercises. now rewrite Hw, Hr, Hf. }
  destruct (fetchExercise_requests remote x (browser st)) as (_ & Hal & _).
  rewrite Hf in Hal. cbn [snd] in Hal.
  assert (Hget : JS.get r (PendingChanges.exercises pc') = Some entry)
    by apply get_set_same.
  assert (Hother : forall k, k <> r ->
             JS.get k (PendingChanges.exercises pc')
             = JS.get k (PendingChanges.exercises (pendingChanges st))).
  { intros k Hk. apply get_set_other. congruence. }
  assert (Hex : forall l : list WorkoutExercise.t,
             existingExercises pc' l = map shown (existingExercises (pendingChanges st) l)).
  { induction l as [|e l IH]; [reflexivity|].
    unfold existingExercises in *. cbn [map filter]. rewrite IH.
    destruct (eq_key (WorkoutExercise.id e) r) as [He|He].
    - assert (E1 : apply_exercise_replace pc' e
                   = WorkoutExercise.with_name_and_exercise_id e (Exercise.name new) x).
      { unfold apply_exercise_replace. rewrite He, Hget. cbn.
        destruct (Exercise.name new) eqn:En; [now contradiction Hname|].
        unfold number_or. now rewrite Hx. }
      assert (E2 : not_exercise_deleted pc' (apply_exercise_replace pc' e) = true).
      { unfold not_exercise_deleted. rewrite apply_exercise_replace_id, He, Hget.
        reflexivity. }
      assert (E3 : not_exercise_deleted (pendingChanges st)
                     (apply_exercise_replace (pendingChanges st) e) = true).
      { unfold not_exercise_deleted. rewrite apply_exercise_replace_id, He.
        destruct (JS.get r (PendingChanges.exercises (pendingChanges st))) as [c|] eqn:Ec;
          [|reflexivity].
        now rewrite (Hshown c eq_refl). }
      rewrite E2, E3. cbn [map]. f_equal. rewrite E1. unfold shown.
      rewrite apply_exercise_replace_id.
      destruct (eq_key (WorkoutExercise.id e) r); [|contradiction].
      symmetry. apply rename_after_replace.
    - assert (E1 : apply_exercise_replace pc' e
                   = apply_exercise_replace (pendingChanges st) e).
      { unfold apply_exercise_replace. now rewrite (Hother _ He). }
      assert (E2 : not_exercise_deleted pc' (apply_exercise_replace pc' e)
                   = not_exercise_deleted (pendingChanges st)
                       (apply_exercise_replace (pendingChanges st) e)).
      { rewrite E1. unfold not_exercise_deleted. rewrite apply_exercise_replace_id.
        now rewrite (Hother _ He). }
      rewrite E2, E1.
      destruct (not_exercise_deleted (pendingChanges st)
                  (apply_exercise_replace (pendingChanges st) e)); [|reflexivity].
      cbn [map]. f_equal. unfold shown. rewrite apply_exercise_replace_id.
      now destruct (eq_key (WorkoutExercise.id e) r). }
  split; [rewrite Hst; exact Hget|].
  split.
  { eexists. split.
    - unfold getDisplayExercises, getDisplayExercisesOf. rewrite Hw. reflexivity.
    - rewrite Hst. unfold getDisplayExercises, getDisplayExercisesOf.
      cbn [workout pendingChanges setPendingChanges setBrowser]. rewrite Hw.
      rewrite Hex. subst existing. rewrite length_map. reflexivity. }
  rewrite Hst. cbn. repeat split. exact Hal.
Qed.

(** On the loaded sample page: the bench press is replaced by exercise 30,
    a squat. *)
Lemma replacement_shows_new_name_witness :
  map WorkoutExercise.name
      (getDisplayExercises
         (handleAddSelectedExercises Sample.accepting 1800 [Int 30]
                                     (handleReplaceExercise (Int 3) Sample.loaded)))
  = ["Squat"; "Barbell Row"]
  /\ map WorkoutExercise.muscle_group
         (getDisplayExercises
            (handleAddSelectedExercises Sample.accepting 1800 [Int 30]
                                        (handleReplaceExercise (Int 3) Sample.loaded)))
     = ["Chest"; "Back"].
Proof.
  assert (Hname : Exercise.name (Sample.squat (Int 30)) <> "") by discriminate.
  assert (Hnd : forall c,
             JS.get (Int 3)
                    (PendingChanges.exercises
                       (pendingChanges (handleReplaceExercise (Int 3) Sample.loaded)))
             = Some c ->
             PendingExerciseChange.is_delete c = false) by (intros c [=]).
  destruct (replacement_shows_new_name Sample.accepting 1800
              (handleReplaceExercise (Int 3) Sample.loaded) Sample.push_day (Int 3) (Int 30)
              (Sample.squat (Int 30)) _ eq_refl eq_refl eq_refl Hname eq_refl Hnd)
    as (_ & (news & He & Hd) & _).
  assert (Hnews : news = []).
  { apply (f_equal (@List.length _)) in He. rewrite length_app in He.
    destruct news; [reflexivity|cbn in He; lia]. }
  rewrite Hd, Hnews. split; vm_compute; reflexivity.
Defined.

(** ** The selection of the picker *)

Lemma ids_has_In s x : ids_has s x = true <-> In x s.
Proof.
  unfold ids_has. rewrite existsb_exists. split.
  - intros (y & Hy & E). destruct (eq_key x y); [now subst|discriminate].
  - intros Hx. exists x. split; [exact Hx|]. now destruct (eq_key x x).
Qed.

Lemma In_Set_delete c s x : In x (Picker.Set_delete c s) <-> In x s /\ x <> c.
Proof.
  unfold Picker.Set_delete. rewrite filter_In. split.
  - intros (Hx & E). split; [exact Hx|]. destruct (eq_key c x); [discriminate|congruence].
  - intros (Hx & Hne). split; [exact Hx|]. destruct (eq_key c x); [congruence|reflexivity].
Qed.

Lemma toggle_membership c p x :
  In x (Picker.selectedExercises (Picker.toggleSelectExercise c p))
  <-> (x = c /\ ~ In c (Picker.selectedExercises p))
      \/ (x <> c /\ In x (Picker.selectedExercises p)).
Proof.
  unfold Picker.toggleSelectExercise. cbn [Picker.selectedExercises].
  destruct (ids_has (Picker.selectedExercises p) c) eqn:E.
  - apply ids_has_In in E. rewrite In_Set_delete. split.
    + intros (Hx & Hne). now right.
    + intros [(-> & Hn)|(Hne & Hx)]; [contradiction|now split].
  - assert (Hc : ~ In c (Picker.selectedExercises p)).
    { intros Hc. apply ids_has_In in Hc. congruence. }
    rewrite in_app_iff. cbn. split.
    + intros [Hx|[<-|[]]]; [|now left].
      right. split; [|exact Hx]. intros ->. contradiction.
    + intros [(-> & _)|(_ & Hx)]; [right; now left|now left].
Qed.

Lemma toggle_NoDup c p :
  NoDup (Picker.selectedExercises p) ->
  NoDup (Picker.selectedExercises (Picker.toggleSelectExercise c p)).
Proof.
  intros Hnd. unfold Picker.toggleSelectExercise. cbn [Picker.selectedExercises].
  destruct (ids_has (Picker.selectedExercises p) c) eqn:E.
  - now apply NoDup_filter.
  - apply NoDup_app; [exact Hnd|repeat constructor; intros []|].
    intros x Hx [<-|[]]. apply ids_has_In in Hx. congruence.
Qed.

Lemma toggles_spec clicks : forall p,
  NoDup (Picker.selectedExercises p) ->
  NoDup (Picker.selectedExercises (Picker.toggles clicks p))
  /\ (forall x,
         In x (Picker.selectedExercises (Picker.toggles clicks p))
         <-> (In x (Picker.selectedExercises p) <-> Nat.odd (clicks_on x clicks) = false)).
Proof.
  induction clicks as [|c clicks IH]; intros p Hnd.
  - split; [exact Hnd|]. intros x. cbn. intuition congruence.
  - cbn [Picker.toggles fold_left].
    destruct (IH (Picker.toggleSelectExercise c p) (toggle_NoDup c p Hnd)) as (Hnd' & Hin).
    split; [exact Hnd'|]. intros x. unfold Picker.toggles in Hin. rewrite Hin.
    rewrite toggle_membership. unfold clicks_on. cbn [filter].
    destruct (in_dec (@eq_key number _) x (Picker.selectedExercises p)) as [Hx|Hx];
      destruct (eq_key x c) as [->|Hne].
    + cbn [List.length]. rewrite Nat.odd_succ, <- Nat.negb_odd.
      fold (clicks_on c clicks).
      destruct (Nat.odd (clicks_on c clicks)); cbn; intuition congruence.
    + fold (clicks_on x clicks).
      destruct (Nat.odd (clicks_on x clicks)); cbn; intuition congruence.
    + cbn [List.length]. rewrite Nat.odd_succ, <- Nat.negb_odd.
      fold (clicks_on c clicks).
      destruct (Nat.odd (clicks_on c clicks)); cbn; intuition congruence.
    + fold (clicks_on x clicks).
      destruct (Nat.odd (clicks_on x clicks)); cbn; intuition congruence.
Qed.

(** X14.  The selection of the picker, after any series of clicks from the
    empty selection, holds each exercise at most once and holds exactly
    the exercises clicked an odd number of times: a second click on an
    exercise takes it out.  So the ids handed to the page on confirmation
    are pairwise different. *)
Theorem picker_selection_is_odd_clicks (clicks : list number) :
  let selection :=
    Picker.selectedExercises (Picker.toggles clicks (Picker.make [] false)) in
  NoDup selection
  /\ (forall x, In x selection <-> Nat.odd (clicks_on x clicks) = true).
Proof.
  intros selection. subst selection.
  destruct (toggles_spec clicks (Picker.make [] false) ltac:(constructor)) as (Hnd & Hin).
  split; [exact Hnd|]. intros x. rewrite Hin. cbn.
  destruct (Nat.odd (clicks_on x clicks)); intuition congruence.
Qed.

(** ** Edits and deletes of sets on display *)

Lemma insert_Forall2 (R : WorkoutSet.t -> WorkoutSet.t -> Prop) x x' l l' :
  (forall a b, R a b -> WorkoutSet.set_number a = WorkoutSet.set_number b) ->
  R x x' -> Forall2 R l l' ->
  Forall2 R (insert_by_set_number x l) (insert_by_set_number x' l').
Proof.
  intros Hn Hx Hl. induction Hl as [|y y' l l' Hy Hl IH]; cbn.
  - repeat constructor. exact Hx.
  - rewrite (Hn _ _ Hx), (Hn _ _ Hy).
    destruct (WorkoutSet.set_number x' <=? WorkoutSet.set_number y').
    + constructor; [exact Hx|]. now constructor.
    + constructor; [exact Hy|exact IH].
Qed.

Lemma sort_Forall2 (R : WorkoutSet.t -> WorkoutSet.t -> Prop) l l' :
  (forall a b, R a b -> WorkoutSet.set_number a = WorkoutSet.set_number b) ->
  Forall2 R l l' -> Forall2 R (sort_by_set_number l) (sort_by_set_number l').
Proof.
  intros Hn Hl. induction Hl as [|y y' l l' Hy Hl IH]; cbn; [constructor|].
  now apply insert_Forall2.
Qed.

Lemma Forall2_map_eq {A B C : Type} (R : A -> B -> Prop) (f : A -> C) (g : B -> C) l l' :
  (forall a b, R a b -> f a = g b) -> Forall2 R l l' -> map f l = map g l'.
Proof.
  intros Hfg Hl. induction Hl as [|y y' l l' Hy Hl IH]; cbn; [reflexivity|].
  now rewrite (Hfg _ _ Hy), IH.
Qed.

Lemma Forall2_refl {A : Type} (R : A -> A -> Prop) l :
  (forall a, R a a) -> Forall2 R l l.
Proof. intros HR. induction l; constructor; auto. Qed.

Lemma spread_form_fields s f :
  let s' := SetPatch.spread s (updatedSetData f) in
  WorkoutSet.id s' = WorkoutSet.id s
  /\ WorkoutSet.workout_exercise_id s' = WorkoutSet.workout_exercise_id s
  /\ WorkoutSet.set_number s' = WorkoutSet.set_number s
  /\ WorkoutSet.duration_seconds s' = WorkoutSet.duration_seconds s
  /\ WorkoutSet.distance_miles s' = WorkoutSet.distance_miles s
  /\ WorkoutSet.completed_at s' = WorkoutSet.completed_at s
  /\ WorkoutSet.weight_lbs s' = weightInLbs f
  /\ WorkoutSet.reps s' = (if 0 <? form_reps f then Some (form_reps f) else None)
  /\ WorkoutSet.notes s' = form_notes f.
Proof. cbn. repeat split. Qed.

Lemma spread_idempotent s d : SetPatch.spread (SetPatch.spread s d) d = SetPatch.spread s d.
Proof.
  destruct s, d as [a b c d e f g h i]. unfold SetPatch.spread. cbn. f_equal.
  - now destruct a.
  - now destruct b.
  - now destruct c.
  - now destruct d.
  - now destruct e.
  - now destruct f.
  - now destruct g.
  - now destruct h.
  - now destruct i.
Qed.

(** X15.  An edit recorded for a set that has no pending delete (the
    entry for it, if any, is an earlier edit of the form) changes neither
    which sets are displayed nor their order: for every exercise of the
    workout the displayed sets have the ids and sequence numbers they had;
    the edited set shows the weight, repetitions and notes of the form, an
    empty field clearing the value, and keeps every other field.  The copy
    the handler makes in the displayed workout changes nothing in what the
    projection gives. *)
Theorem edit_keeps_sets_and_order (f : SetForm) (st : State) (editing : WorkoutSet.t)
    (w : WorkoutSummary.t) :
  editingSet st = Some editing ->
  workout st = Some w ->
  (forall c, JS.get (WorkoutSet.id editing) (PendingChanges.sets (pendingChanges st)) = Some c ->
             exists f0 e0, c = setEditEntry f0 e0) ->
  let st' := handleUpdateSet f st in
  let pc := pendingChanges st in
  let pc' := pendingChanges st' in
  (exists w',
      workout st' = Some w'
      /\ Forall2 (fun exercise exercise' =>
                    WorkoutExercise.id exercise' = WorkoutExercise.id exercise
                    /\ getDisplaySets pc' exercise' = getDisplaySets pc' exercise
                    /\ map WorkoutSet.id (getDisplaySets pc' exercise')
                       = map WorkoutSet.id (getDisplaySets pc exercise)
                    /\ map WorkoutSet.set_number (getDisplaySets pc' exercise')
                       = map WorkoutSet.set_number (getDisplaySets pc exercise))
                 (WorkoutSummary.exercises w) (WorkoutSummary.exercises w'))
  /\ (forall s, WorkoutSet.id s = WorkoutSet.id editing ->
                apply_set_edit pc' s = SetPatch.spread s (updatedSetData f)
                /\ WorkoutSet.weight_lbs (apply_set_edit pc' s) = weightInLbs f
                /\ WorkoutSet.reps (apply_set_edit pc' s)
                   = (if 0 <? form_reps f then Some (form_reps f) else None)
                /\ WorkoutSet.notes (apply_set_edit pc' s) = form_notes f
                /\ WorkoutSet.set_number (apply_set_edit pc' s) = WorkoutSet.set_number s
                /\ WorkoutSet.completed_at (apply_set_edit pc' s) = WorkoutSet.completed_at s)
  /\ editingSet st' = None
  /\ showEditSetDialog st' = false.
Proof.
  intros Hed Hw Hprev st' pc pc'.
  set (eid := WorkoutSet.id editing) in *.
  set (data := updatedSetData f).
  set (patch := fun s => if strict_eq (WorkoutSet.id s) eid then SetPatch.spread s data else s).
  set (upd := fun exercise : WorkoutExercise.t =>
                WorkoutExercise.with_sets exercise (map patch (WorkoutExercise.sets exercise))).
  assert (Hpc' : pc' = PendingChanges.with_sets pc
                         (JS.set eid (setEditEntry f editing) (PendingChanges.sets pc))).
  { subst pc' st'. unfold handleUpdateSet. rewrite Hed. reflexivity. }
  assert (Hw' : workout st'
                = Some (WorkoutSummary.with_exercises w (map upd (WorkoutSummary.exercises w)))).
  { subst st'. unfold handleUpdateSet. rewrite Hed. cbn. rewrite Hw. reflexivity. }
  assert (Hget : JS.get eid (PendingChanges.sets pc') = Some (setEditEntry f editing)).
  { rewrite Hpc'. apply get_set_same. }
  assert (Hother : forall k, k <> eid ->
             JS.get k (PendingChanges.sets pc') = JS.get k (PendingChanges.sets pc)).
  { intros k Hk. rewrite Hpc'. apply get_set_other. congruence. }
  assert (Hae_same : forall s, WorkoutSet.id s = eid ->
             apply_set_edit pc' s = SetPatch.spread s data).
  { intros s Hs. unfold apply_set_edit. now rewrite Hs, Hget. }
  assert (Hae_other : forall s, WorkoutSet.id s <> eid ->
             apply_set_edit pc' s = apply_set_edit pc s).
  { intros s Hs. unfold apply_set_edit. now rewrite (Hother _ Hs). }
  assert (Hnd : forall s s', WorkoutSet.id s = WorkoutSet.id s' ->
             not_set_deleted pc' s = not_set_deleted pc s').
  { intros s s' Hs. unfold not_set_deleted. rewrite <- Hs.
    destruct (eq_key (WorkoutSet.id s) eid) as [E|E].
    - rewrite E, Hget.
      destruct (JS.get eid (PendingChanges.sets pc)) as [c|] eqn:Ec; [|reflexivity].
      destruct (Hprev c Ec) as (f0 & e0 & ->). reflexivity.
    - now rewrite (Hother _ E). }
  assert (Hae_prev : forall s, WorkoutSet.id s = eid ->
             WorkoutSet.id (apply_set_edit pc s) = WorkoutSet.id s
             /\ WorkoutSet.set_number (apply_set_edit pc s) = WorkoutSet.set_number s).
  { intros s Hs. unfold apply_set_edit. rewrite Hs.
    destruct (JS.get eid (PendingChanges.sets pc)) as [c|] eqn:Ec; [|now split].
    destruct (Hprev c Ec) as (f0 & e0 & ->). now split. }
  set (R := fun a b : WorkoutSet.t =>
              WorkoutSet.id a = WorkoutSet.id b
              /\ WorkoutSet.set_number a = WorkoutSet.set_number b).
  assert (Hpers : forall l,
             Forall2 R (filter (not_set_deleted pc') (map (apply_set_edit pc') l))
                       (filter (not_set_deleted pc) (map (apply_set_edit pc) l))).
  { induction l as [|s l IH]; cbn [map filter]; [constructor|].
    assert (HR : R (apply_set_edit pc' s) (apply_set_edit pc s)).
    { destruct (eq_key (WorkoutSet.id s) eid) as [E|E].
      - rewrite (Hae_same _ E). destruct (Hae_prev _ E) as (H1 & H2).
        split; cbn; congruence.
      - rewrite (Hae_other _ E). now split. }
    rewrite (Hnd _ _ (proj1 HR)).
    destruct (not_set_deleted pc (apply_set_edit pc s)); [|exact IH].
    now constructor. }
  assert (Hredundant : forall exercise,
             getDisplaySets pc' (upd exercise) = getDisplaySets pc' exercise).
  { intros exercise. unfold getDisplaySets, upd.
    cbn [WorkoutExercise.sets WorkoutExercise.id WorkoutExercise.with_sets].
    rewrite map_map. do 3 f_equal. apply map_ext. intros s. unfold patch.
    destruct (strict_eq (WorkoutSet.id s) eid) eqn:E; [|reflexivity].
    apply strict_eq_true in E as (E & _).
    rewrite (Hae_same s E). rewrite Hae_same by (cbn; exact E).
    apply spread_idempotent. }
  assert (Hsame : forall exercise,
             Forall2 R (getDisplaySets pc' exercise) (getDisplaySets pc exercise)).
  { intros exercise. unfold getDisplaySets. apply sort_Forall2; [now intros a b (_ & H)|].
    apply Forall2_app; [apply Hpers|].
    replace (newSetsForExercise pc' (WorkoutExercise.id exercise))
      with (newSetsForExercise pc (WorkoutExercise.id exercise))
      by (rewrite Hpc'; reflexivity).
    apply Forall2_refl. now split. }
  split.
  { eexists. split; [exact Hw'|]. cbn [WorkoutSummary.exercises WorkoutSummary.with_exercises].
    generalize (WorkoutSummary.exercises w) as l.
    induction l as [|exercise l IH]; cbn [map]; constructor; [|exact IH].
    split; [reflexivity|]. split; [apply Hredundant|]. rewrite Hredundant.
    split; [apply (Forall2_map_eq R); [now intros a b (H & _)|apply Hsame]
           |apply (Forall2_map_eq R); [now intros a b (_ & H)|apply Hsame]]. }
  split.
  { intros s Hs. rewrite (Hae_same s Hs). split; [reflexivity|]. repeat split. }
  subst st'. unfold handleUpdateSet. rewrite Hed. split; reflexivity.
Qed.

(** On the loaded sample page, set 5 edited with 105 x 10: the bench press
    still shows sets 5 and 6 in that order, set 5 with 10 repetitions. *)
Lemma edit_keeps_sets_and_order_witness :
  map WorkoutSet.id
      (getDisplaySets
         (pendingChanges (handleUpdateSet Sample.form (handleEditSet Sample.set5 Sample.loaded)))
         Sample.bench)
  = [Int 5; Int 6]
  /\ WorkoutSet.reps
       (apply_set_edit
          (pendingChanges
             (handleUpdateSet Sample.form (handleEditSet Sample.set5 Sample.loaded)))
          Sample.set5)
     = Some 10.
Proof.
  assert (Hprev : forall c,
             JS.get (WorkoutSet.id Sample.set5)
                    (PendingChanges.sets
                       (pendingChanges (handleEditSet Sample.set5 Sample.loaded))) = Some c ->
             exists f0 e0, c = setEditEntry f0 e0) by (intros c [=]).
  destruct (edit_keeps_sets_and_order Sample.form (handleEditSet Sample.set5 Sample.loaded)
              Sample.set5 Sample.push_day eq_refl eq_refl Hprev)
    as (_ & Hform & _).
  destruct (Hform Sample.set5 eq_refl) as (_ & _ & Hreps & _).
  split; [vm_compute; reflexivity|exact Hreps].
Defined.

(** X16.  A confirmed delete of a set hides exactly the sets of the
    workout with that id: for an exercise whose pending edits keep the ids
    of its sets, the sets displayed after the delete are the sets of the
    workout displayed before without those of the deleted id, followed by
    the pending-new sets of the exercise, which a delete never removes, in
    order of sequence number.  The other maps of the ledger are untouched;
    a declined delete changes nothing. *)
Theorem delete_hides_only_that_set (st : State) (w : WorkoutSummary.t) (setId : number)
    (exercise : WorkoutExercise.t) :
  workout st = Some w ->
  (forall s, In s (WorkoutExercise.sets exercise) ->
             WorkoutSet.id (apply_set_edit (pendingChanges st) s) = WorkoutSet.id s) ->
  let pc := pendingChanges st in
  let pc' := pendingChanges (handleDeleteSet setId true st) in
  displayedUnsorted pc' exercise
  = filter (fun s => if eq_key (WorkoutSet.id s) setId then false else true)
           (filter (not_set_deleted pc) (map (apply_set_edit pc) (WorkoutExercise.sets exercise)))
    ++ newSetsForExercise pc (WorkoutExercise.id exercise)
  /\ getDisplaySets pc' exercise = sort_by_set_number (displayedUnsorted pc' exercise)
  /\ PendingChanges.newSets pc' = PendingChanges.newSets pc
  /\ PendingChanges.exercises pc' = PendingChanges.exercises pc
  /\ PendingChanges.newExercises pc' = PendingChanges.newExercises pc
  /\ PendingChanges.workout pc' = PendingChanges.workout pc
  /\ handleDeleteSet setId false st = st.
Proof.
  intros Hw Hids pc pc'.
  assert (Hpc' : pc' = PendingChanges.with_sets pc
                         (JS.set setId (setDeleteEntry setId) (PendingChanges.sets pc))).
  { subst pc'. unfold handleDeleteSet. rewrite Hw. reflexivity. }
  assert (Hget : JS.get setId (PendingChanges.sets pc') = Some (setDeleteEntry setId)).
  { rewrite Hpc'. apply get_set_same. }
  assert (Hother : forall k, k <> setId ->
             JS.get k (PendingChanges.sets pc') = JS.get k (PendingChanges.sets pc)).
  { intros k Hk. rewrite Hpc'. apply get_set_other. congruence. }
  split.
  { unfold displayedUnsorted. f_equal; [|rewrite Hpc'; reflexivity].
    induction (WorkoutExercise.sets exercise) as [|s l IH]; [reflexivity|].
    cbn [map filter]. rewrite IH by (intros s' Hs'; apply Hids; now right).
    specialize (Hids s (or_introl eq_refl)).
    destruct (eq_key (WorkoutSet.id s) setId) as [E|E].
    - assert (E1 : apply_set_edit pc' s = s).
      { unfold apply_set_edit. now rewrite E, Hget. }
      assert (E2 : not_set_deleted pc' s = false).
      { unfold not_set_deleted. now rewrite E, Hget. }
      rewrite E1, E2.
      destruct (not_set_deleted pc (apply_set_edit pc s)); [|reflexivity].
      cbn [filter]. fold pc in Hids. rewrite Hids.
      now destruct (eq_key (WorkoutSet.id s) setId).
    - assert (E1 : apply_set_edit pc' s = apply_set_edit pc s).
      { unfold apply_set_edit. now rewrite (Hother _ E). }
      assert (E2 : not_set_deleted pc' (apply_set_edit pc s)
                   = not_set_deleted pc (apply_set_edit pc s)).
      { unfold not_set_deleted. fold pc in Hids. rewrite Hids. now rewrite (Hother _ E). }
      rewrite E1, E2.
      destruct (not_set_deleted pc (apply_set_edit pc s)); [|reflexivity].
      cbn [filter]. fold pc in Hids. rewrite Hids.
      now destruct (eq_key (WorkoutSet.id s) setId). }
  split; [reflexivity|].
  rewrite Hpc'. repeat split.
  unfold handleDeleteSet. now rewrite Hw.
Qed.

(** On the loaded sample page: set 5 deleted, the bench press shows set 6. *)
Lemma delete_hides_only_that_set_witness :
  map WorkoutSet.id
      (getDisplaySets (pendingChanges (handleDeleteSet (Int 5) true Sample.loaded))
                      Sample.bench)
  = [Int 6].
Proof.
  destruct (delete_hides_only_that_set Sample.loaded Sample.push_day (Int 5) Sample.bench
              eq_refl (fun s _ => eq_refl))
    as (Hu & Hd & _).
  rewrite Hd, Hu. reflexivity.
Defined.

Lemma In_plannedRequests_set w pc k c r msg :
  In (k, c) (PendingChanges.sets pc) -> In (r, msg) (setOps (k, c)) ->
  In r (plannedRequests w pc).
Proof.
  intros Hin Hop. unfold plannedRequests, plan. apply in_map_iff. exists (r, msg).
  split; [reflexivity|]. apply in_or_app. right. apply in_or_app. left.
  apply in_flat_map. now exists (k, c).
Qed.

Lemma In_plannedRequests_newSet w pc key d :
  In (key, d) (PendingChanges.newSets pc) ->
  In (PostSet (NewSet.workout_exercise_id d) d) (plannedRequests w pc).
Proof.
  intros Hin. unfold plannedRequests, plan. apply in_map_iff.
  eexists (_, _). split; [reflexivity|].
  apply in_or_app. right. apply in_or_app. right. apply in_or_app. left.
  apply in_flat_map. exists (key, d). split; [exact Hin|]. now left.
Qed.

(** X17.  An edit or a delete recorded for a pending-new set, under the id
    it is displayed with, does not reach it: the new sets of the ledger are
    what they were and the set is displayed as before; the entry is recorded
    among the changes of sets under that id, and a save has the update or
    the delete for that id to send, besides the creation of the set. *)
Theorem pending_new_set_unreached_by_edit_and_delete (st : State) (w : WorkoutSummary.t)
    (exercise : WorkoutExercise.t) (s : WorkoutSet.t) :
  workout st = Some w ->
  In s (newSetsForExercise (pendingChanges st) (WorkoutExercise.id exercise)) ->
  let deleted := handleDeleteSet (WorkoutSet.id s) true st in
  let edited f := handleUpdateSet f (handleEditSet s st) in
  In s (getDisplaySets (pendingChanges st) exercise)
  /\ PendingChanges.newSets (pendingChanges deleted) = PendingChanges.newSets (pendingChanges st)
  /\ In s (getDisplaySets (pendingChanges deleted) exercise)
  /\ In (DeleteSet (WorkoutSet.id s)) (plannedRequests w (pendingChanges deleted))
  /\ (forall f,
         PendingChanges.newSets (pendingChanges (edited f))
         = PendingChanges.newSets (pendingChanges st)
         /\ In s (getDisplaySets (pendingChanges (edited f)) exercise)
         /\ In (PutSet (WorkoutSet.id s) (Some (updatedSetData f)))
               (plannedRequests w (pendingChanges (edited f))))
  /\ (exists key d,
         In (key, d) (PendingChanges.newSets (pendingChanges st))
         /\ s = new_set_display (key, d)
         /\ In (PostSet (NewSet.workout_exercise_id d) d)
               (plannedRequests w (pendingChanges deleted))).
Proof.
  intros Hw Hs deleted edited.
  assert (Hshow : forall pc,
             PendingChanges.newSets pc = PendingChanges.newSets (pendingChanges st) ->
             In s (getDisplaySets pc exercise)).
  { intros pc Hpc. unfold getDisplaySets.
    apply (Permutation_in _ (Permutation_sym (sort_perm _))).
    apply in_or_app. right. unfold newSetsForExercise in *. now rewrite Hpc. }
  assert (Hdel : pendingChanges deleted
                 = PendingChanges.with_sets (pendingChanges st)
                     (JS.set (WorkoutSet.id s) (setDeleteEntry (WorkoutSet.id s))
                             (PendingChanges.sets (pendingChanges st)))).
  { subst deleted. unfold handleDeleteSet. now rewrite Hw. }
  assert (Hed : forall f,
             pendingChanges (edited f)
             = PendingChanges.with_sets (pendingChanges st)
                 (JS.set (WorkoutSet.id s) (setEditEntry f s)
                         (PendingChanges.sets (pendingChanges st)))).
  { intros f. reflexivity. }
  split; [now apply Hshow|].
  split; [now rewrite Hdel|].
  split; [apply Hshow; now rewrite Hdel|].
  split.
  { apply (In_plannedRequests_set w _ (WorkoutSet.id s) (setDeleteEntry (WorkoutSet.id s))
                                  _ ("Failed to delete set " ++ toString (WorkoutSet.id s))).
    - rewrite Hdel. apply get_Some_In, get_set_same.
    - now left. }
  split.
  { intros f. split; [now rewrite Hed|]. split; [apply Hshow; now rewrite Hed|].
    apply (In_plannedRequests_set w _ (WorkoutSet.id s) (setEditEntry f s)
                                  _ ("Failed to update set " ++ toString (WorkoutSet.id s))).
    - rewrite Hed. apply get_Some_In, get_set_same.
    - now left. }
  unfold newSetsForExercise in Hs. apply in_map_iff in Hs as ([key d] & <- & Hin).
  apply filter_In in Hin as (Hin & _).
  exists key, d. split; [exact Hin|]. split; [reflexivity|].
  apply (In_plannedRequests_newSet w _ key d). now rewrite Hdel.
Qed.

(** The add-set dialog of the bench press saved on the sample page: the
    new set is displayed with id -1; deleted through its menu, it is still
    displayed. *)
Lemma pending_new_set_unreached_by_edit_and_delete_witness :
  In (Int (-1))
     (map WorkoutSet.id
          (getDisplaySets
             (pendingChanges
                (handleDeleteSet (Int (-1)) true
                   (handleSaveNewSet Sample.form "2024-05-01T11:00:00Z"
                                     Sample.adding_to_bench)))
             Sample.bench)).
Proof.
  assert (Hs : In (new_set_display
                     ("3-1", NewSet.make (Int 3) 3 (Some (105 # 1)) (Some 10) None None None
                                         (Some "2024-05-01T11:00:00Z")))
                  (newSetsForExercise
                     (pendingChanges (handleSaveNewSet Sample.form "2024-05-01T11:00:00Z"
                                                       Sample.adding_to_bench))
                     (WorkoutExercise.id Sample.bench)))
    by (vm_compute; now left).
  destruct (pending_new_set_unreached_by_edit_and_delete
              (handleSaveNewSet Sample.form "2024-05-01T11:00:00Z" Sample.adding_to_bench)
              Sample.push_day Sample.bench _ eq_refl Hs)
    as (_ & _ & Hin & _).
  apply in_map_iff. eexists. split; [|exact Hin]. reflexivity.
Defined.

(** ** The counter of temporary ids *)

Lemma newSetKey_inj e e' t t' :
  0 <= e -> 0 <= e' -> newSetKey (Int e) t = newSetKey (Int e') t' -> e = e' /\ t = t'.
Proof.
  intros He He' E. unfold newSetKey in E. cbn [toString] in E.
  pose proof (digits_sep_eq _ _ _ _ (showZ_digits e He) (showZ_digits e' He') E) as Hd.
  apply showZ_inj in Hd. subst e'. split; [reflexivity|].
  assert (Hinv : forall d a b, (d ++ a = d ++ b)%string -> a = b).
  { induction d as [|c d IH]; intros a b' H; cbn in H; [exact H|].
    injection H as H. now apply IH. }
  apply Hinv in E. injection E as E. now apply showZ_inj.
Qed.

Lemma newSets_below_incl c (m m' : jsmap string NewSet.t) :
  (forall kv, In kv m' -> In kv m) -> newSets_below c m -> newSets_below c m'.
Proof. intros Hin Hm key d Hk. apply (Hm key d). now apply Hin. Qed.

Lemma newSets_below_nil c : newSets_below c [].
Proof. intros key d []. Qed.

Lemma storage_below_same b b' :
  Browser.sessionStorage b' = Browser.sessionStorage b -> storage_below b -> storage_below b'.
Proof. intros E Hs key parsed l Hg. rewrite E in Hg. now apply (Hs key). Qed.

Lemma storage_below_fire n b : storage_below b -> storage_below (Browser.fire n b).
Proof.
  intros Hs. unfold Browser.fire.
  destruct (nth_error (Browser.timers b) n) as [[d [key]]|]; [|exact Hs].
  intros k parsed l Hg. cbn in Hg.
  destruct (string_dec key k) as [->|Hne].
  - now rewrite get_delete_same in Hg.
  - rewrite get_delete_other in Hg by exact Hne. now apply (Hs k).
Qed.

Lemma counter_invariant_cleared st st' :
  counter_invariant st ->
  (pendingChanges st' = pendingChanges st \/ pendingChanges st' = PendingChanges.empty) ->
  tempSetIdCounter st' = tempSetIdCounter st ->
  addingSetToExercise st' = addingSetToExercise st ->
  Browser.sessionStorage (browser st') = Browser.sessionStorage (browser st) ->
  counter_invariant st'.
Proof.
  intros (Hn & Ha & Hs) Hpc Hc Had Hst. split; [|split].
  - rewrite Hc. destruct Hpc as [->| ->]; [exact Hn|apply newSets_below_nil].
  - intros x Hx. rewrite Had in Hx. now apply Ha.
  - now apply (storage_below_same (browser st)).
Qed.

Lemma fetchWorkoutSummary_counter remote st :
  tempSetIdCounter (fetchWorkoutSummary remote st) = tempSetIdCounter st
  /\ isRestoring (fetchWorkoutSummary remote st) = isRestoring st.
Proof. unfold fetchWorkoutSummary, Browser.fetch. repeat break_match; split; reflexivity. Qed.

Lemma handleSaveAllChanges_counter remote st :
  tempSetIdCounter (handleSaveAllChanges remote st) = tempSetIdCounter st
  /\ isRestoring (handleSaveAllChanges remote st) = isRestoring st.
Proof.
  unfold handleSaveAllChanges.
  destruct (workout st) as [w|]; [|now split].
  destruct (negb (hasPendingChanges st)); [now split|].
  destruct (saveAll remote w (pendingChanges (setIsSaving true st))
                    (browser (setIsSaving true st))) as [[[]|e] b']; [|now split].
  cbn -[fetchWorkoutSummary].
  destruct (fetchWorkoutSummary_counter remote
              (setPendingChanges PendingChanges.empty (setBrowser b' (setIsSaving true st))))
    as (H1 & H2).
  now rewrite H1, H2.
Qed.

Lemma counter_invariant_step remote a st :
  counter_invariant st -> counter_invariant (step remote a st).
Proof.
  intros Hinv. pose proof Hinv as (Hn & Ha & Hs). destruct a; cbn [step].
  - exact Hinv.
  - exact Hinv.
  - exact Hinv.
  - unfold handleSaveDuration. repeat break_match; exact Hinv.
  - exact Hinv.
  - unfold handleUpdateSet. repeat break_match; exact Hinv.
  - unfold handleDeleteExercise. repeat break_match; exact Hinv.
  - unfold handleDeleteSet. repeat break_match; exact Hinv.
  - unfold handleAddExercise. repeat break_match; exact Hinv.
  - unfold handleReplaceExercise. repeat break_match; exact Hinv.
  - exact Hinv.
  - unfold handleAddSelectedExercises.
    destruct (workout st); [|exact Hinv].
    destruct selectedExerciseIds as [|x others]; [exact Hinv|].
    destruct (is_replacing st).
    + destruct others; [|exact Hinv].
      pose proof (fetchExercise_storage remote x (browser st)) as Hst.
      destruct (fetchExercise remote x (browser st)) as [[ex|] b]; cbn [snd] in Hst;
        (split; [exact Hn|split; [exact Ha|now apply (storage_below_same (browser st))]]).
    + pose proof (fetchExercises_storage remote (x :: others) (browser st)) as Hst.
      destruct (fetchExercises remote (x :: others) (browser st)) as [[exs|] b];
        cbn [snd] in Hst;
        (split; [exact Hn|split; [exact Ha|now apply (storage_below_same (browser st))]]).
  - unfold handleAddSet. destruct (lt0 exerciseId) eqn:E; [exact Hinv|].
    split; [exact Hn|split; [|exact Hs]].
    intros x [= <-]. exact E.
  - unfold handleSaveNewSet.
    destruct (addingSetToExercise st) as [adding|] eqn:Ead; [|exact Hinv].
    destruct (truthy adding) eqn:Et; cbn [negb]; [|exact Hinv].
    destruct (workout st) as [w|]; [|exact Hinv].
    destruct (find _ (WorkoutSummary.exercises w)) as [exercise|]; [|exact Hinv].
    split; [|split; [intros x [=]|exact Hs]].
    cbn -[Z.add]. intros key d Hin. apply In_set in Hin as [[= -> ->]|Hin].
    + destruct (adding_truthy_positive adding (Ha _ Ead) Et) as (e & -> & He).
      exists e, (tempSetIdCounter st). repeat split; lia.
    + destruct (Hn key d Hin) as (e & t & He & Ht & ->).
      exists e, t. repeat split; lia.
  - destruct (handleSaveAllChanges_storage remote st) as (Hst & _).
    destruct (handleSaveAllChanges_ledger remote st) as (Hpc & Had).
    destruct (handleSaveAllChanges_counter remote st) as (Hc & _).
    now apply (counter_invariant_cleared st).
  - unfold handleDiscardChanges. repeat break_match; try exact Hinv;
      (split; [apply newSets_below_nil|split; [exact Ha|exact Hs]]).
  - destruct (fetchWorkoutSummary_effects remote st) as (_ & Hst & _ & _).
    destruct (fetchWorkoutSummary_ledger remote st) as (Hpc & Had).
    destruct (fetchWorkoutSummary_counter remote st) as (Hc & _).
    now apply (counter_invariant_cleared st).
  - unfold fetchWorkoutSummaryWithPendingPreservation.
    destruct (loadPreservation (setIsRestoring true st)) as [[saved counter] b] eqn:El.
    pose proof (loadPreservation_browser _ _ _ _ El) as (_ & _ & _ & Hst).
    assert (Hsb : storage_below b) by now apply (storage_below_same (browser st)).
    assert (Hsaved : match saved with
                     | SavedLedger pc => newSets_below counter (PendingChanges.newSets pc)
                     | SavedWithoutNewExercises => counter = tempSetIdCounter st
                     end).
    { unfold loadPreservation in El.
      change (browser (setIsRestoring true st)) with (browser st) in El.
      change (pendingChanges (setIsRestoring true st)) with (pendingChanges st) in El.
      change (tempSetIdCounter (setIsRestoring true st)) with (tempSetIdCounter st) in El.
      destruct (JS.get (preservationKey (setIsRestoring true st))
                       (Browser.sessionStorage (browser st))) as [[| |parsed]|] eqn:Eg.
      - injection El as <- <- _. cbn.
        eapply newSets_below_incl; [apply In_of_entries|exact Hn].
      - now injection El as <- <- _.
      - destruct (Blob.pendingChanges parsed) as [l|] eqn:Ep.
        + injection El as <- <- _. cbn.
          destruct (Hs _ _ _ Eg Ep) as (c & Ec & Hc0 & Hb). rewrite Ec. cbn.
          apply Z.eqb_neq in Hc0. rewrite Hc0. exact Hb.
        + now injection El as <- <- _.
      - injection El as <- <- _. cbn.
        eapply newSets_below_incl; [apply In_of_entries|exact Hn]. }
    unfold Browser.fetch.
    destruct saved as [pc|].
    + repeat break_match; cbn; (split; [|split; [exact Ha|exact Hsb]]);
        first [exact Hn|eapply newSets_below_incl; [apply In_keep_valid|exact Hsaved]].
    + repeat break_match; cbn; (split; [exact Hn|split; [exact Ha|exact Hsb]]).
  - split; [exact Hn|split; [exact Ha|]]. now apply storage_below_fire.
Qed.

Lemma counter_invariant_run remote actions st :
  counter_invariant st -> counter_invariant (run remote actions st).
Proof.
  unfold run. revert st. induction actions as [|a l IH]; intros st H; cbn.
  - exact H.
  - apply IH. now apply counter_invariant_step.
Qed.

(** X18.  The temporary ids of new sets never collide.  Every new set of
    the ledger carries a temporary id below the counter, whatever happens
    to the page (the blobs held in [sessionStorage] carrying their own
    counter above their own new sets); so saving the add-set dialog always
    adds one entry to the new sets, under a key that was not in use, keeps
    the entries that were there, and moves the counter up by one. *)
Theorem new_set_keys_never_collide (remote : Remote) (actions : list Action) (st : State)
    (f : SetForm) (nowIso : string) :
  counter_invariant st ->
  let st1 := run remote actions st in
  let st2 := handleSaveNewSet f nowIso st1 in
  counter_invariant st1
  /\ (forall adding w exercise,
         addingSetToExercise st1 = Some adding -> truthy adding = true ->
         workout st1 = Some w ->
         find (fun ex => strict_eq (WorkoutExercise.id ex) adding) (WorkoutSummary.exercises w)
         = Some exercise ->
         JS.get (newSetKey adding (tempSetIdCounter st1))
                (PendingChanges.newSets (pendingChanges st1)) = None
         /\ (exists d,
                PendingChanges.newSets (pendingChanges st2)
                = PendingChanges.newSets (pendingChanges st1)
                  ++ [(newSetKey adding (tempSetIdCounter st1), d)]
                /\ NewSet.workout_exercise_id d = adding
                /\ NewSet.set_number d
                   = nextSetNumber (getDisplaySets (pendingChanges st1) exercise))
         /\ tempSetIdCounter st2 = tempSetIdCounter st1 + 1).
Proof.
  intros Hinv st1 st2.
  pose proof (counter_invariant_run remote actions st Hinv) as Hinv1. fold st1 in Hinv1.
  split; [exact Hinv1|].
  intros adding w exercise Had Ht Hw Hfind.
  destruct Hinv1 as (Hn & Ha & _).
  destruct (adding_truthy_positive adding (Ha _ Had) Ht) as (e & -> & He).
  assert (Hfresh : JS.get (newSetKey (Int e) (tempSetIdCounter st1))
                          (PendingChanges.newSets (pendingChanges st1)) = None).
  { apply get_None_keys. intros Hk. unfold JS.keys in Hk.
    apply in_map_iff in Hk as ([key d] & Ek & Hin). cbn [fst] in Ek. subst key.
    destruct (Hn _ d Hin) as (e' & t & He' & Hlt & Ekey).
    apply newSetKey_inj in Ekey as (_ & Et); lia. }
  split; [exact Hfresh|].
  subst st2. unfold handleSaveNewSet. rewrite Had, Ht, Hw, Hfind. cbn [negb].
  split; [|reflexivity].
  eexists. split; [cbn -[Z.add]; apply set_fresh; exact Hfresh|]. split; reflexivity.
Qed.

(** On the sample page with the add-set dialog of the bench press open:
    two sets are saved one after the other; they are kept under different
    keys. *)
Lemma new_set_keys_never_collide_witness :
  JS.keys
    (PendingChanges.newSets
       (pendingChanges
          (handleSaveNewSet Sample.form "2024-05-01T11:05:00Z"
             (run Sample.accepting
                  [HandleSaveNewSet Sample.form "2024-05-01T11:00:00Z"; HandleAddSet (Int 3)]
                  Sample.adding_to_bench))))
  = ["3-1"; "3-2"].
Proof.
  assert (Hinv : counter_invariant Sample.adding_to_bench).
  { split; [apply newSets_below_nil|split].
    - intros x [= <-]. reflexivity.
    - intros key parsed l [=]. }
  destruct (new_set_keys_never_collide Sample.accepting
              [HandleSaveNewSet Sample.form "2024-05-01T11:00:00Z"; HandleAddSet (Int 3)]
              Sample.adding_to_bench Sample.form "2024-05-01T11:05:00Z" Hinv)
    as (_ & Hadd).
  destruct (Hadd (Int 3) Sample.push_day Sample.bench eq_refl eq_refl eq_refl eq_refl)
    as (_ & (d & Hd & _) & _).
  rewrite Hd. unfold JS.keys. rewrite map_app. reflexivity.
Defined.

(** ** The statistics of the page *)

Section StatisticsFacts.
Variable times : Q -> Z -> Q.
Variable plus : Q -> Q -> Q.
Variable convertWeightFromStorage : Q -> Q.

Local Abbreviation stats := (calculateWorkoutStats times plus convertWeightFromStorage).

Lemma count_set_reps l : forall v r,
  snd (fold_left (count_set times plus) l (v, r)) = r + fold_right Z.add 0 (map counted_reps l).
Proof.
  induction l as [|s l IH]; intros v r; cbn [fold_left map fold_right]; [cbn; lia|].
  unfold count_set at 2. cbn [fst snd].
  match goal with |- snd (fold_left _ _ (?v', ?r')) = _ => rewrite (IH v' r') end.
  unfold counted_reps at 2, truthy_Z. destruct (WorkoutSet.reps s) as [x|]; [|lia].
  destruct (x =? 0) eqn:E; cbn [negb]; [apply Z.eqb_eq in E|]; lia.
Qed.

Lemma count_exercise_totals pc l : forall v r n,
  let '(_, r', n') := fold_left (count_exercise times plus pc) l (v, r, n) in
  r' = r + fold_right Z.add 0
             (map (fun ex => fold_right Z.add 0 (map counted_reps (completedSets pc ex))) l)
  /\ n' = n + fold_right Z.add 0
                (map (fun ex => Z.of_nat (List.length (completedSets pc ex))) l).
Proof.
  induction l as [|ex l IH]; intros v r n; cbn [fold_left map fold_right]; [lia|].
  unfold count_exercise at 2.
  pose proof (count_set_reps (completedSets pc ex) v r) as Hr.
  destruct (fold_left (count_set times plus) (completedSets pc ex) (v, r)) as [v' r'].
  cbn [snd] in Hr.
  specialize (IH v' r' (n + Z.of_nat (List.length (completedSets pc ex)))).
  destruct (fold_left (count_exercise times plus pc) l
                      (v', r', n + Z.of_nat (List.length (completedSets pc ex))))
    as [[v2 r2] n2].
  lia.
Qed.

Lemma stats_totals st w :
  workout st = Some w ->
  Stats.totalReps (stats st)
  = fold_right Z.add 0
      (map (fun ex => fold_right Z.add 0
                        (map counted_reps (completedSets (pendingChanges st) ex)))
           (WorkoutSummary.exercises w))
  /\ Stats.totalSets (stats st)
     = fold_right Z.add 0
         (map (fun ex => Z.of_nat (List.length (completedSets (pendingChanges st) ex)))
              (WorkoutSummary.exercises w))
  /\ Stats.duration (stats st) = WorkoutSummary.duration_minutes w
  /\ Stats.estimatedCalories (stats st)
     = round_div (metValue (WorkoutSummary.intensity_level w) * 70
                  * WorkoutSummary.duration_minutes w) 60.
Proof.
  intros Hw. unfold calculateWorkoutStats. rewrite Hw.
  pose proof (count_exercise_totals (pendingChanges st) (WorkoutSummary.exercises w) 0%Q 0 0)
    as Ht.
  destruct (fold_left (count_exercise times plus (pendingChanges st))
                      (WorkoutSummary.exercises w) (0%Q, 0, 0)) as [[v r] n].
  assert (Hd : Z_or (Some (WorkoutSummary.duration_minutes w)) 0
               = WorkoutSummary.duration_minutes w).
  { unfold Z_or. destruct (WorkoutSummary.duration_minutes w =? 0) eqn:E; [|reflexivity].
    apply Z.eqb_eq in E. now rewrite E. }
  cbn [Stats.totalReps Stats.totalSets Stats.duration Stats.estimatedCalories].
  rewrite Hd. repeat split; lia.
Qed.

Lemma stats_depend_on_sets st st' :
  workout st' = workout st ->
  PendingChanges.sets (pendingChanges st') = PendingChanges.sets (pendingChanges st) ->
  PendingChanges.newSets (pendingChanges st') = PendingChanges.newSets (pendingChanges st) ->
  stats st' = stats st.
Proof.
  intros Hw Hs Hn. unfold calculateWorkoutStats. rewrite Hw.
  destruct (workout st) as [w|]; [|reflexivity].
  assert (Hce : forall acc ex,
             count_exercise times plus (pendingChanges st') acc ex
             = count_exercise times plus (pendingChanges st) acc ex).
  { intros [[v r] n] ex. unfold count_exercise, completedSets, getDisplaySets,
      newSetsForExercise, apply_set_edit, not_set_deleted.
    now rewrite Hs, Hn. }
  assert (Hfold : forall l acc,
             fold_left (count_exercise times plus (pendingChanges st')) l acc
             = fold_left (count_exercise times plus (pendingChanges st)) l acc).
  { induction l as [|ex l IH]; intros acc; cbn; [reflexivity|]. now rewrite Hce, IH. }
  now rewrite Hfold.
Qed.

(** X19.  The statistics are computed from the exercises of the workout,
    not from the exercises on display: recording the delete of an exercise
    changes no figure of the statistics (volume, repetitions, sets,
    calories, duration), although the exercise is no longer among the
    displayed exercises of the workout. *)
Theorem stats_ignore_exercise_delete (st : State) (w : WorkoutSummary.t)
    (exerciseId : number) :
  workout st = Some w ->
  lt0 exerciseId = false ->
  let st' := handleDeleteExercise exerciseId true st in
  stats st' = stats st
  /\ (forall d,
         In d (existingExercises (pendingChanges st') (WorkoutSummary.exercises w)) ->
         WorkoutExercise.id d <> exerciseId)
  /\ (forall e,
         In e (WorkoutSummary.exercises w) ->
         Stats.totalSets (stats st')
         >= Z.of_nat (List.length (completedSets (pendingChanges st) e))).
Proof.
  intros Hw Hlt st'.
  assert (Hst : st' = setPendingChanges
                        (PendingChanges.with_exercises (pendingChanges st)
                           (JS.set exerciseId (exerciseDeleteEntry exerciseId)
                                   (PendingChanges.exercises (pendingChanges st)))) st).
  { subst st'. unfold handleDeleteExercise. now rewrite Hw, Hlt. }
  assert (Hstats : stats st' = stats st).
  { apply stats_depend_on_sets; rewrite Hst; reflexivity. }
  split; [exact Hstats|]. split.
  - intros d Hd Hid. rewrite Hst in Hd. cbn [pendingChanges setPendingChanges] in Hd.
    unfold existingExercises in Hd. apply filter_In in Hd as (_ & Hnd).
    unfold not_exercise_deleted in Hnd. cbn [PendingChanges.exercises
      PendingChanges.with_exercises] in Hnd.
    rewrite Hid, get_set_same in Hnd. discriminate Hnd.
  - intros e He. rewrite Hstats.
    destruct (stats_totals st w Hw) as (_ & Hn & _). rewrite Hn. clear Hn.
    induction (WorkoutSummary.exercises w) as [|x l IH]; [contradiction|].
    cbn [map fold_right].
    assert (Hpos : forall l',
               0 <= fold_right Z.add 0
                      (map (fun ex => Z.of_nat (List.length
                                                  (completedSets (pendingChanges st) ex))) l')).
    { induction l' as [|y l' IH']; cbn; lia. }
    destruct He as [->|He]; [specialize (Hpos l); lia|].
    specialize (IH He). lia.
Qed.

(** X20.  The estimated calories are the product of the metabolic
    equivalent of the intensity, 70 and the duration in minutes, divided by
    60 and rounded to the nearest integer; the equivalent is 2, 3, 5, 7 or 9
    for the levels 1 to 5 and 5 for a workout without a level or with
    another one.  For a duration that is not negative they are not negative
    and are zero only for the duration zero. *)
Theorem estimated_calories_nearest (st : State) (w : WorkoutSummary.t) :
  workout st = Some w ->
  let met := metValue (WorkoutSummary.intensity_level w) in
  let duration := WorkoutSummary.duration_minutes w in
  let calories := Stats.estimatedCalories (stats st) in
  Stats.duration (stats st) = duration
  /\ met = match WorkoutSummary.intensity_level w with
           | Some 1 => 2 | Some 2 => 3 | Some 4 => 7 | Some 5 => 9 | _ => 5
           end
  /\ 60 * calories - 30 <= met * 70 * duration < 60 * calories + 30
  /\ (0 <= duration -> 0 <= calories /\ (calories = 0 <-> duration = 0)).
Proof.
  intros Hw met duration calories.
  destruct (stats_totals st w Hw) as (_ & _ & Hd & Hc).
  split; [exact Hd|].
  assert (Hmet : met = match WorkoutSummary.intensity_level w with
                       | Some 1 => 2 | Some 2 => 3 | Some 4 => 7 | Some 5 => 9 | _ => 5
                       end).
  { subst met. unfold metValue, Z_or.
    destruct (WorkoutSummary.intensity_level w) as [[|p|p]|]; try reflexivity.
    destruct p as [[[|[]|]|[|[]|]|]|[[|[]|]|[|[]|]|]|]; reflexivity. }
  split; [exact Hmet|].
  assert (Hrange : 2 <= met <= 9).
  { rewrite Hmet. destruct (WorkoutSummary.intensity_level w) as [[|p|p]|]; try lia.
    destruct p as [[[|[]|]|[|[]|]|]|[[|[]|]|[|[]|]|]|]; lia. }
  subst calories. rewrite Hc. fold met duration. unfold round_div.
  assert (Hdm := Z.div_mod (2 * (met * 70 * duration) + 60) (2 * 60) ltac:(lia)).
  assert (Hmb := Z.mod_pos_bound (2 * (met * 70 * duration) + 60) (2 * 60) ltac:(lia)).
  set (q := (2 * (met * 70 * duration) + 60) / (2 * 60)) in *. clearbody q.
  split; [nia|]. intros Hdur. split; [nia|]. split; nia.
Qed.

Lemma display_after_new_set pc e t d (x : WorkoutExercise.t) :
  0 <= e ->
  Permutation
    (getDisplaySets
       (PendingChanges.with_newSets pc
          (PendingChanges.newSets pc ++ [(newSetKey (Int e) t, d)])) x)
    ((if eq_key (WorkoutExercise.id x) (Int e)
      then [new_set_display (newSetKey (Int e) t, d)] else [])
     ++ getDisplaySets pc x).
Proof.
  intros He. unfold getDisplaySets. rewrite !sort_perm. unfold newSetsForExercise.
  destruct (projection_ignores_newSets pc
              (PendingChanges.newSets pc ++ [(newSetKey (Int e) t, d)])) as (E1 & E2 & E3).
  rewrite E1, E2, E3, filter_app, map_app. cbn [filter].
  destruct (eq_key (WorkoutExercise.id x) (Int e)) as [Hid|Hid].
  - rewrite (proj2 (new_set_of_newSetKey _ e t d He) Hid). cbn [map].
    rewrite app_assoc. rewrite <- Permutation_cons_append. reflexivity.
  - destruct (new_set_of (WorkoutExercise.id x) (newSetKey (Int e) t, d)) eqn:E.
    + apply (new_set_of_newSetKey _ e t d He) in E. contradiction.
    + cbn [map]. now rewrite app_nil_r.
Qed.

Lemma sum_perm (g : WorkoutSet.t -> Z) l l' :
  Permutation l l' -> fold_right Z.add 0 (map g l) = fold_right Z.add 0 (map g l').
Proof. intros Hp. induction Hp; cbn; lia. Qed.

Lemma sum_filter (p : WorkoutSet.t -> bool) (g : WorkoutSet.t -> Z) l :
  fold_right Z.add 0 (map g (filter p l))
  = fold_right Z.add 0 (map (fun s => if p s then g s else 0) l).
Proof. induction l as [|s l IH]; cbn; [reflexivity|]. destruct (p s); cbn; lia. Qed.

Lemma length_as_sum (l : list WorkoutSet.t) :
  Z.of_nat (List.length l) = fold_right Z.add 0 (map (fun _ => 1) l).
Proof. induction l as [|s l IH]; cbn [List.length map fold_right]; lia. Qed.

Lemma sum_once (c : Z) (base : WorkoutExercise.t -> Z) (k : number) l exercise :
  NoDup (map WorkoutExercise.id l) -> In exercise l -> WorkoutExercise.id exercise = k ->
  fold_right Z.add 0
    (map (fun x => (if eq_key (WorkoutExercise.id x) k then c else 0) + base x) l)
  = c + fold_right Z.add 0 (map base l).
Proof.
  induction l as [|x l IH]; intros Hnd Hin Hid; [contradiction|].
  cbn [map fold_right] in *. inversion Hnd as [|? ? Hx Hnd']; subst.
  destruct Hin as [->|Hin].
  - destruct (eq_key (WorkoutExercise.id exercise) (WorkoutExercise.id exercise));
      [|contradiction].
    assert (Hrest : fold_right Z.add 0
                      (map (fun x => (if eq_key (WorkoutExercise.id x)
                                               (WorkoutExercise.id exercise)
                                      then c else 0) + base x) l)
                    = fold_right Z.add 0 (map base l)).
    { clear IH Hnd Hnd'. induction l as [|y l IH]; cbn; [reflexivity|].
      destruct (eq_key (WorkoutExercise.id y) (WorkoutExercise.id exercise)) as [E|E].
      - exfalso. apply Hx. cbn. now left.
      - rewrite IH; [lia|]. intros H. apply Hx. cbn. now right. }
    lia.
  - rewrite (IH Hnd' Hin eq_refl).
    destruct (eq_key (WorkoutExercise.id x) (WorkoutExercise.id exercise)) as [E|E]; [|lia].
    exfalso. apply Hx. rewrite E. now apply in_map.
Qed.

(** X21.  Saving the add-set dialog for an exercise of the workout (the
    ids of the exercises being pairwise different and the key of the new
    set not in use) raises the number of sets of the statistics by one and
    the repetitions by those of the form, a form without repetitions
    adding none; the duration and the calories stay. *)
Theorem new_set_counts_in_stats (f : SetForm) (nowIso : string) (st : State) (e : Z)
    (w : WorkoutSummary.t) (exercise : WorkoutExercise.t) :
  addingSetToExercise st = Some (Int e) -> 0 < e ->
  workout st = Some w ->
  find (fun ex => strict_eq (WorkoutExercise.id ex) (Int e)) (WorkoutSummary.exercises w)
  = Some exercise ->
  JS.get (newSetKey (Int e) (tempSetIdCounter st))
         (PendingChanges.newSets (pendingChanges st)) = None ->
  NoDup (map WorkoutExercise.id (WorkoutSummary.exercises w)) ->
  nowIso <> "" ->
  let st' := handleSaveNewSet f nowIso st in
  Stats.totalSets (stats st') = Stats.totalSets (stats st) + 1
  /\ Stats.totalReps (stats st')
     = Stats.totalReps (stats st) + (if 0 <? form_reps f then form_reps f else 0)
  /\ Stats.duration (stats st') = Stats.duration (stats st)
  /\ Stats.estimatedCalories (stats st') = Stats.estimatedCalories (stats st).
Proof.
  intros Ha He Hw Hfind Hfresh Hnd Hnow st'.
  apply find_some in Hfind as (Hin & Hid). apply strict_eq_true in Hid as (Hid & _).
  set (d := {| NewSet.workout_exercise_id := Int e;
               NewSet.set_number := nextSetNumber (getDisplaySets (pendingChanges st) exercise);
               NewSet.weight_lbs := weightInLbs f;
               NewSet.reps := if 0 <? form_reps f then Some (form_reps f) else None;
               NewSet.duration_seconds := None;
               NewSet.distance_miles := None;
               NewSet.notes := form_notes f;
               NewSet.completed_at := Some nowIso |}).
  set (key := newSetKey (Int e) (tempSetIdCounter st)).
  assert (Hst : pendingChanges st'
                = PendingChanges.with_newSets (pendingChanges st)
                    (PendingChanges.newSets (pendingChanges st) ++ [(key, d)])
                /\ workout st' = Some w).
  { subst st'. unfold handleSaveNewSet. rewrite Ha. cbn [truthy].
    assert (Hnz : (e =? 0) = false) by (apply Z.eqb_neq; lia).
    rewrite Hnz. cbn [negb]. rewrite Hw.
    destruct (find (fun ex => strict_eq (WorkoutExercise.id ex) (Int e))
                   (WorkoutSummary.exercises w)) as [ex'|] eqn:Ef.
    - assert (ex' = exercise).
      { apply find_some in Ef as (Hin' & Hid'). apply strict_eq_true in Hid' as (Hid' & _).
        clear -Hnd Hin Hin' Hid Hid'.
        induction (WorkoutSummary.exercises w) as [|x l IH]; [contradiction|].
        cbn in Hnd. inversion Hnd as [|? ? Hx Hnd']; subst.
        destruct Hin as [->|Hin], Hin' as [->|Hin']; try reflexivity.
        - exfalso. apply Hx. rewrite Hid, <- Hid'. now apply in_map.
        - exfalso. apply Hx. rewrite Hid', <- Hid. now apply in_map.
        - now apply IH. }
      subst ex'. cbn -[Z.add]. split; [|exact Hw].
      fold key. fold d. now rewrite (set_fresh _ _ _ Hfresh).
    - exfalso. apply (find_none _ _ Ef) in Hin. rewrite Hid in Hin. cbn in Hin.
      rewrite Z.eqb_refl in Hin. discriminate Hin. }
  destruct Hst as (Hpc & Hw').
  destruct (stats_totals st w Hw) as (Hr & Hn & Hd & Hc).
  destruct (stats_totals st' w Hw') as (Hr' & Hn' & Hd' & Hc').
  rewrite Hr', Hn', Hd', Hc', Hr, Hn, Hd, Hc, Hpc.
  set (snew := new_set_display (key, d)).
  set (completed := fun s => truthy_string (WorkoutSet.completed_at s)).
  assert (Hdone : completed snew = true).
  { subst completed snew d. cbn. destruct nowIso; [contradiction|reflexivity]. }
  assert (Hperm : forall x,
             Permutation
               (getDisplaySets
                  (PendingChanges.with_newSets (pendingChanges st)
                     (PendingChanges.newSets (pendingChanges st) ++ [(key, d)])) x)
               ((if eq_key (WorkoutExercise.id x) (Int e) then [snew] else [])
                ++ getDisplaySets (pendingChanges st) x)).
  { intros x. apply display_after_new_set. lia. }
  assert (Hsum : forall (g : WorkoutSet.t -> Z) x,
             fold_right Z.add 0
               (map g (completedSets
                         (PendingChanges.with_newSets (pendingChanges st)
                            (PendingChanges.newSets (pendingChanges st) ++ [(key, d)])) x))
             = (if eq_key (WorkoutExercise.id x) (Int e) then g snew else 0)
               + fold_right Z.add 0 (map g (completedSets (pendingChanges st) x))).
  { intros g x. unfold completedSets. fold completed.
    rewrite !sum_filter. rewrite (sum_perm _ _ _ (Hperm x)).
    rewrite map_app, fold_right_app.
    destruct (eq_key (WorkoutExercise.id x) (Int e)); cbn [map fold_right app].
    - rewrite Hdone.
      assert (Hshift : forall (l : list Z) a, fold_right Z.add a l = a + fold_right Z.add 0 l).
      { induction l as [|y l IH]; intros a; cbn; [lia|]. rewrite IH. lia. }
      lia.
    - reflexivity. }
  split; [|split; [|split; reflexivity]].
  - erewrite map_ext; [|intros x; rewrite length_as_sum; apply (Hsum (fun _ => 1) x)].
    rewrite (sum_once 1 _ (Int e) _ exercise Hnd Hin Hid).
    erewrite (map_ext (fun x => fold_right Z.add 0 (map (fun _ => 1) _)));
      [|intros x; symmetry; apply length_as_sum].
    lia.
  - erewrite map_ext; [|intros x; apply (Hsum counted_reps x)].
    rewrite (sum_once (counted_reps snew) _ (Int e) _ exercise Hnd Hin Hid).
    assert (Hc0 : counted_reps snew = if 0 <? form_reps f then form_reps f else 0).
    { subst snew d. unfold counted_reps. cbn. now destruct (0 <? form_reps f). }
    lia.
Qed.

End StatisticsFacts.

(** On the loaded sample page: the bench press is deleted, and its two
    sets are still counted. *)
Lemma stats_ignore_exercise_delete_witness :
  Stats.totalSets
    (calculateWorkoutStats (fun w r => w * inject_Z r)%Q Qplus (fun v => v)
                           (handleDeleteExercise (Int 3) true Sample.loaded))
  = 2
  /\ map WorkoutExercise.name
         (getDisplayExercises (handleDeleteExercise (Int 3) true Sample.loaded))
     = ["Barbell Row"].
Proof.
  destruct (stats_ignore_exercise_delete (fun w r => w * inject_Z r)%Q Qplus (fun v => v)
              Sample.loaded Sample.push_day (Int 3) eq_refl eq_refl)
    as (Hs & _).
  rewrite Hs. split; reflexivity.
Defined.

(** The sample workout, 45 minutes at intensity 3: 263 calories. *)
Lemma estimated_calories_nearest_witness :
  Stats.estimatedCalories
    (calculateWorkoutStats (fun w r => w * inject_Z r)%Q Qplus (fun v => v) Sample.loaded)
  = 263.
Proof.
  destruct (estimated_calories_nearest (fun w r => w * inject_Z r)%Q Qplus (fun v => v)
              Sample.loaded Sample.push_day eq_refl)
    as (_ & _ & Hc & _).
  change (metValue (WorkoutSummary.intensity_level Sample.push_day)) with 5 in Hc.
  change (WorkoutSummary.duration_minutes Sample.push_day) with 45 in Hc. lia.
Defined.

(** On the sample page, a set of 10 repetitions is added to the bench
    press: three sets, 24 repetitions. *)
Lemma new_set_counts_in_stats_witness :
  Stats.totalSets
    (calculateWorkoutStats (fun w r => w * inject_Z r)%Q Qplus (fun v => v)
       (handleSaveNewSet Sample.form "2024-05-01T11:00:00Z" Sample.adding_to_bench))
  = 3
  /\ Stats.totalReps
       (calculateWorkoutStats (fun w r => w * inject_Z r)%Q Qplus (fun v => v)
          (handleSaveNewSet Sample.form "2024-05-01T11:00:00Z" Sample.adding_to_bench))
     = 24.
Proof.
  assert (Hnd : NoDup (map WorkoutExercise.id (WorkoutSummary.exercises Sample.push_day))).
  { repeat constructor; cbn; intuition discriminate. }
  assert (Hnow : "2024-05-01T11:00:00Z" <> "") by discriminate.
  destruct (new_set_counts_in_stats (fun w r => w * inject_Z r)%Q Qplus (fun v => v)
              Sample.form "2024-05-01T11:00:00Z" Sample.adding_to_bench 3
              Sample.push_day Sample.bench eq_refl ltac:(lia) eq_refl eq_refl eq_refl Hnd Hnow)
    as (Hs & Hr & _).
  rewrite Hs, Hr. split; reflexivity.
Defined.

(** ** Formatting *)

Lemma take_while_digits_stop d rest :
  digits d = true -> stops rest -> take_while is_digit (d ++ rest) = d.
Proof.
  induction d as [|c d IH]; intros Hd Hr; cbn [append take_while digits] in *.
  - destruct rest as [|a r]; [reflexivity|]. cbn [stops take_while] in *. now rewrite Hr.
  - apply andb_true_iff in Hd as (Hc & Hd). rewrite Hc. f_equal. now apply IH.
Qed.




Lemma strip_prefix_spec p : forall s r, strip_prefix p s = Some r <-> s = (p ++ r)%string.
Proof.
  induction p as [|a p IH]; intros s r; cbn.
  - split; [now intros [= ->]|now intros ->].
  - destruct s as [|b s]; [split; discriminate|].
    destruct (Ascii.eqb a b) eqn:E.
    + apply Ascii.eqb_eq in E. subst b. rewrite IH. split; [now intros ->|now intros [= ->]].
    + apply Ascii.eqb_neq in E. split; [discriminate|intros [= Hab _]; congruence].
Qed.

Lemma take_while_split r :
  exists rest,
    r = (take_while is_digit r ++ rest)%string
    /\ digits (take_while is_digit r) = true /\ stops rest.
Proof.
  induction r as [|c r (rest & E & D & S)]; cbn.
  - exists ""%string. repeat split.
  - destruct (is_digit c) eqn:Ec.
    + exists rest. cbn. rewrite Ec, D. repeat split; [now rewrite <- E|exact S].
    + exists (String c r). cbn. repeat split. exact Ec.
Qed.

Lemma vimeo_id_here r ds :
  match take_while is_digit r with
  | EmptyString => None
  | ds' => Some ds'
  end = Some ds ->
  take_while is_digit r = ds /\ ds <> ""%string.
Proof. destruct (take_while is_digit r); [discriminate|]. intros [= <-]. now split. Qed.

Lemma vimeo_id_eq s :
  vimeo_id s
  = match match strip_prefix "vimeo.com/" s with
          | Some r => match take_while is_digit r with
                      | EmptyString => None
                      | ds => Some ds
                      end
          | None => None
          end with
    | Some ds => Some ds
    | None => match s with
              | String _ s' => vimeo_id s'
              | EmptyString => None
              end
    end.
Proof. destruct s; reflexivity. Qed.

Lemma vimeo_id_sound s : forall ds,
  vimeo_id s = Some ds ->
  exists pre rest,
    s = (pre ++ "vimeo.com/" ++ ds ++ rest)%string
    /\ ds <> ""%string /\ digits ds = true /\ stops rest.
Proof.
  assert (Hhere : forall s ds,
             match strip_prefix "vimeo.com/" s with
             | Some r => match take_while is_digit r with
                         | EmptyString => None
                         | ds' => Some ds'
                         end
             | None => None
             end = Some ds ->
             exists rest, s = ("vimeo.com/" ++ ds ++ rest)%string
                          /\ ds <> ""%string /\ digits ds = true /\ stops rest).
  { intros s0 ds H. destruct (strip_prefix "vimeo.com/" s0) as [r|] eqn:Ep; [|discriminate].
    apply strip_prefix_spec in Ep. apply vimeo_id_here in H as (Ht & Hne).
    destruct (take_while_split r) as (rest & Er & D & S). rewrite Ht in Er, D.
    exists rest. subst s0. now rewrite Er at 1. }
  induction s as [|c s IH]; intros ds H.
  - cbn in H. discriminate H.
  - cbn [vimeo_id] in H.
    destruct (match strip_prefix "vimeo.com/" (String c s) with
              | Some r => match take_while is_digit r with
                          | EmptyString => None
                          | ds' => Some ds'
                          end
              | None => None
              end) as [ds'|] eqn:Eh.
    + injection H as ->. destruct (Hhere _ _ Eh) as (rest & E & Hne & D & S).
      exists ""%string, rest. now split.
    + destruct (IH _ H) as (pre & rest & E & Hne & D & S).
      exists (String c pre), rest. split; [cbn; now rewrite E|now split].
Qed.

Lemma vimeo_id_canonical pre : forall ds rest,
  without_char "v" pre -> ds <> ""%string -> digits ds = true -> stops rest ->
  vimeo_id (pre ++ "vimeo.com/" ++ ds ++ rest) = Some ds.
Proof.
  induction pre as [|c pre IH]; intros ds rest Hv Hne D S.
  - change ("" ++ "vimeo.com/" ++ ds ++ rest)%string
      with ("vimeo.com/" ++ ds ++ rest)%string.
    assert (Ep : strip_prefix "vimeo.com/" ("vimeo.com/" ++ ds ++ rest)
                 = Some (ds ++ rest)%string) by (now apply strip_prefix_spec).
    rewrite vimeo_id_eq, Ep, (take_while_digits_stop ds rest D S).
    destruct ds; [contradiction|reflexivity].
  - destruct Hv as (Hc & Hv).
    change ((String c pre) ++ "vimeo.com/" ++ ds ++ rest)%string
      with (String c (pre ++ "vimeo.com/" ++ ds ++ rest)).
    assert (Ep : strip_prefix "vimeo.com/" (String c (pre ++ "vimeo.com/" ++ ds ++ rest))
                 = None).
    { cbn [strip_prefix]. destruct (Ascii.eqb "v" c) eqn:E; [|reflexivity].
      apply Ascii.eqb_eq in E. congruence. }
    rewrite vimeo_id_eq, Ep. now apply IH.
Qed.

(** X23.  The thumbnail of a video: without an address, or with the empty
    one, there is none; when there is one, the address holds "vimeo.com/"
    followed by digits, and the thumbnail is named by all the digits that
    follow; an address in which no "v" comes before "vimeo.com/" followed
    by a number gives the thumbnail of that number. *)
Theorem getVimeoThumbnailUrl_names_the_video :
  getVimeoThumbnailUrl None = None
  /\ getVimeoThumbnailUrl (Some ""%string) = None
  /\ (forall url t,
         getVimeoThumbnailUrl (Some url) = Some t ->
         exists pre ds rest,
           url = (pre ++ "vimeo.com/" ++ ds ++ rest)%string
           /\ ds <> ""%string /\ digits ds = true /\ stops rest
           /\ t = ("https://vumbnail.com/" ++ ds ++ ".jpg")%string)
  /\ (forall pre n rest,
         without_char "v" pre -> 0 <= n -> stops rest ->
         getVimeoThumbnailUrl (Some (pre ++ "vimeo.com/" ++ showZ n ++ rest)%string)
         = Some ("https://vumbnail.com/" ++ showZ n ++ ".jpg")%string).
Proof.
  split; [reflexivity|]. split; [reflexivity|]. split.
  - intros url t H. unfold getVimeoThumbnailUrl in H.
    destruct (truthy_string (Some url)); [|discriminate].
    destruct (vimeo_id url) as [ds|] eqn:E; [|discriminate]. injection H as <-.
    destruct (vimeo_id_sound _ _ E) as (pre & rest & Eu & Hne & D & S).
    exists pre, ds, rest. now repeat split.
  - intros pre n rest Hv Hn S. unfold getVimeoThumbnailUrl.
    assert (Ht : truthy_string (Some (pre ++ "vimeo.com/" ++ showZ n ++ rest)%string) = true).
    { destruct pre; reflexivity. }
    rewrite Ht.
    rewrite (vimeo_id_canonical pre (showZ n) rest Hv (showZ_nonempty n)
                                (showZ_digits n Hn) S).
    reflexivity.
Qed.

(** ** The save bar *)

Lemma fetchWorkoutSummaryWithPendingPreservation_flags remote now st :
  isRestoring (fetchWorkoutSummaryWithPendingPreservation remote now st) = false
  /\ loading (fetchWorkoutSummaryWithPendingPreservation remote now st) = false.
Proof.
  unfold fetchWorkoutSummaryWithPendingPreservation.
  destruct (loadPreservation (setIsRestoring true st)) as [[saved counter] b].
  unfold Browser.fetch. repeat break_match; split; reflexivity.
Qed.

(** X24.  The save bar is shown while something is pending or a
    restoration runs.  A restoration always ends with the restoring state
    off, whatever its outcome, so that afterwards the bar is shown exactly
    when something is pending; a confirmed discard and a save whose
    operations all succeed take the bar away (outside a restoration), and a
    save that fails leaves it. *)
Theorem save_bar_follows_ledger (remote : Remote) (st : State) :
  (forall now,
      let st' := fetchWorkoutSummaryWithPendingPreservation remote now st in
      isRestoring st' = false /\ shouldShowSaveBar st' = hasPendingChanges st')
  /\ shouldShowSaveBar (handleDiscardChanges true st) = isRestoring st
  /\ (forall w b',
         workout st = Some w -> hasPendingChanges st = true ->
         saveAll remote w (pendingChanges st) (browser st) = (Returned tt, b') ->
         shouldShowSaveBar (handleSaveAllChanges remote st) = isRestoring st)
  /\ (forall w e b',
         workout st = Some w -> hasPendingChanges st = true ->
         saveAll remote w (pendingChanges st) (browser st) = (Threw e, b') ->
         shouldShowSaveBar (handleSaveAllChanges remote st) = true).
Proof.
  split; [|split; [|split]].
  - intros now st'. subst st'.
    destruct (fetchWorkoutSummaryWithPendingPreservation_flags remote now st) as (Hr & _).
    split; [exact Hr|]. unfold shouldShowSaveBar. rewrite Hr. apply orb_false_r.
  - unfold handleDiscardChanges. cbn [negb].
    destruct (originalWorkout (setPendingChanges PendingChanges.empty st)); reflexivity.
  - intros w b' Hw Hp Hs.
    destruct (handleSaveAllChanges_success remote st w b' Hw Hp Hs) as (Hpc & _).
    destruct (handleSaveAllChanges_counter remote st) as (_ & Hr).
    unfold shouldShowSaveBar, hasPendingChanges. now rewrite Hpc, Hr.
  - intros w e b' Hw Hp Hs.
    assert (Hpc : pendingChanges (handleSaveAllChanges remote st) = pendingChanges st).
    { unfold handleSaveAllChanges. rewrite Hw, Hp. cbn [negb].
      change (saveAll remote w (pendingChanges (setIsSaving true st))
                      (browser (setIsSaving true st)))
        with (saveAll remote w (pendingChanges st) (browser st)).
      now rewrite Hs. }
    unfold shouldShowSaveBar, hasPendingChanges in *. now rewrite Hpc, Hp.
Qed.

(** ** Adding an exercise and taking it back *)

Lemma delete_absent {K V : Type} `{EqKey K} (k : K) (m : jsmap K V) :
  JS.get k m = None -> JS.delete k m = m.
Proof.
  induction m as [|[k' v'] m IH]; cbn; [reflexivity|].
  destruct (eq_key k k'); [discriminate|]. intros Hg. now rewrite IH.
Qed.

Lemma delete_last {K V : Type} `{EqKey K} (k : K) (v : V) (m : jsmap K V) :
  JS.get k m = None -> JS.delete k (m ++ [(k, v)]) = m.
Proof.
  induction m as [|[k' v'] m IH]; cbn.
  - intros _. now destruct (eq_key k k).
  - destruct (eq_key k k'); [discriminate|]. intros Hg. now rewrite IH.
Qed.

(** X25.  Adding an exercise and deleting it again is a round trip: the
    exercise added at a time of the clock whose temporary id is not in use
    is displayed last, under the negative of that id, and its delete,
    through that id, gives back the ledger and the displayed exercises of
    before the addition; nothing of it is left to save. *)
Theorem add_then_delete_is_round_trip (remote : Remote) (now : Z) (x : number) (st : State)
    (w : WorkoutSummary.t) (new : Exercise.t) (b : Browser.t) :
  workout st = Some w ->
  is_replacing st = None ->
  fetchExercises remote [x] (browser st) = (Some [new], b) ->
  0 < now ->
  unique_keys (PendingChanges.newExercises (pendingChanges st)) ->
  JS.get (showZ now) (PendingChanges.newExercises (pendingChanges st)) = None ->
  let added := handleAddSelectedExercises remote now [x] st in
  let back := handleDeleteExercise (Int (- now)) true added in
  map WorkoutExercise.id (getDisplayExercises added)
  = map WorkoutExercise.id (getDisplayExercises st) ++ [Int (- now)]
  /\ JS.get (showZ now) (PendingChanges.newExercises (pendingChanges added))
     = Some (snd (newExerciseEntry now 0 new))
  /\ pendingChanges back = pendingChanges st
  /\ getDisplayExercises back = getDisplayExercises st
  /\ hasPendingChanges back = hasPendingChanges st.
Proof.
  intros Hw Hrep Hf Hnow Hu Hfresh added back.
  set (entry := newExerciseEntry now 0 new).
  assert (Hkey : fst entry = showZ now).
  { subst entry. cbn. now rewrite Z.add_0_r. }
  assert (Hof : JS.of_entries (PendingChanges.newExercises (pendingChanges st) ++ [entry])
                = PendingChanges.newExercises (pendingChanges st) ++ [entry]).
  { apply of_entries_unique. unfold unique_keys, JS.keys. rewrite map_app.
    apply NoDup_app; [exact Hu|repeat constructor; intros []|].
    intros k Hk [<-|[]]. cbn [map] in Hk. rewrite Hkey in Hk.
    apply get_None_keys in Hfresh. now apply Hfresh. }
  assert (Hadded : added = setPendingChanges
                             (PendingChanges.with_newExercises (pendingChanges st)
                                (PendingChanges.newExercises (pendingChanges st) ++ [entry]))
                             (setBrowser b st)).
  { subst added. unfold handleAddSelectedExercises. rewrite Hw, Hrep, Hf.
    unfold updatePendingChanges. cbn [pendingChanges setBrowser mapi_from].
    fold entry. now rewrite Hof. }
  assert (Hback : pendingChanges back = pendingChanges st).
  { subst back. unfold handleDeleteExercise. rewrite Hadded.
    cbn [workout setPendingChanges setBrowser]. rewrite Hw. cbn [negb].
    assert (Hlt : lt0 (Int (- now)) = true) by (cbn; apply Z.ltb_lt; lia).
    rewrite Hlt. unfold updatePendingChanges.
    cbn [pendingChanges setPendingChanges setBrowser PendingChanges.newExercises
         PendingChanges.with_newExercises JS.abs toString].
    replace (Z.abs (- now)) with now by lia.
    destruct entry as [k v] eqn:Ee. cbn [fst] in Hkey. subst k.
    rewrite (delete_last _ _ _ Hfresh). now destruct (pendingChanges st). }
  assert (Hwback : workout back = workout st).
  { subst back. unfold handleDeleteExercise. rewrite Hadded.
    cbn [workout setPendingChanges setBrowser]. rewrite Hw. cbn [negb].
    now destruct (lt0 (Int (- now))). }
  split.
  { rewrite Hadded. unfold getDisplayExercises, getDisplayExercisesOf.
    cbn [workout pendingChanges setPendingChanges setBrowser]. rewrite Hw.
    rewrite existing_ignores_newExercises.
    cbn [PendingChanges.newExercises PendingChanges.with_newExercises].
    unfold JS.values. rewrite (map_app snd), mapi_from_app, !map_app. cbn [map mapi_from].
    rewrite <- app_assoc. do 2 f_equal. f_equal.
    subst entry. cbn [new_exercise_display WorkoutExercise.id newExerciseEntry snd
                      PendingNewExercise.tempId toString].
    rewrite parseInt_showZ by lia. cbn. now rewrite Z.add_0_r. }
  split.
  { rewrite Hadded. cbn [pendingChanges setPendingChanges PendingChanges.newExercises
                         PendingChanges.with_newExercises].
    apply In_get_unique.
    - rewrite <- Hof. apply unique_of_entries.
    - apply in_or_app. right. left. rewrite <- Hkey. now destruct entry. }
  split; [exact Hback|]. split.
  - unfold getDisplayExercises. now rewrite Hback, Hwback.
  - unfold hasPendingChanges. now rewrite Hback.
Qed.

(** On the loaded sample page: a squat is added at time 1700 and deleted
    through its menu; nothing is pending. *)
Lemma add_then_delete_is_round_trip_witness :
  hasPendingChanges
    (handleDeleteExercise (Int (-1700)) true
       (handleAddSelectedExercises Sample.accepting 1700 [Int 20] Sample.loaded))
  = false.
Proof.
  assert (Hu : unique_keys (PendingChanges.newExercises (pendingChanges Sample.loaded)))
    by constructor.
  destruct (add_then_delete_is_round_trip Sample.accepting 1700 (Int 20) Sample.loaded
              Sample.push_day _ _ eq_refl eq_refl eq_refl ltac:(lia) Hu eq_refl)
    as (_ & _ & _ & _ & Hp).
  exact Hp.
Defined.

(** X26.  A restoration that succeeds lays the restored header patch over
    the fresh data: the fresh data is the snapshot, the displayed header is
    the fresh header under the patch, and the fields of the header dialogs
    are filled from the patch first, then from the fresh data, the title
    falling back on the generated one and the intensity on 3. *)
Theorem restoration_overlays_header (remote : Remote) (now : Z) (st : State)
    (saved : PendingChanges.t) (counter : Z) (b : Browser.t) (data : WorkoutSummary.t) :
  loadPreservation (setIsRestoring true st) = (SavedLedger saved, counter, b) ->
  remote (Browser.requests b) (GetWorkout (routeId st) (Some now))
  = Response true (WorkoutBody data) ->
  let st' := fetchWorkoutSummaryWithPendingPreservation remote now st in
  let patch := patch_of (PendingChanges.workout saved) in
  header_overlaid st'
  /\ originalWorkout st' = Some data
  /\ PendingChanges.workout (pendingChanges st') = PendingChanges.workout saved
  /\ option_map WorkoutSummary.exercises (workout st') = Some (WorkoutSummary.exercises data)
  /\ tempWorkoutName st'
     = match WorkoutPatch.name patch, WorkoutSummary.name data with
       | Some n, _ => n
       | None, Some n => n
       | None, None => generateWorkoutTitle (WorkoutSummary.exercises data)
       end
  /\ tempIntensity st'
     = match WorkoutPatch.intensity_level patch, WorkoutSummary.intensity_level data with
       | Some i, _ => i
       | None, Some i => i
       | None, None => 3
       end
  /\ tempSetIdCounter st' = counter.
Proof.
  intros Hload Hfetch st' patch. subst st' patch.
  unfold fetchWorkoutSummaryWithPendingPreservation. rewrite Hload.
  unfold Browser.fetch. cbn [routeId setIsRestoring]. rewrite Hfetch.
  cbn [saved_workout].
  split.
  { exists data.
    exists (match PendingChanges.workout saved with
            | Some q => WorkoutPatch.apply data q
            | None => data
            end).
    split; [reflexivity|]. split; [reflexivity|].
    cbn [pendingChanges setLoading setIsRestoring setTempSetIdCounter setPendingChanges
         reconcile PendingChanges.workout].
    destruct (PendingChanges.workout saved) as [q|]; cbn [patch_of].
    - repeat split.
    - unfold same_header, WorkoutPatch.apply, WorkoutPatch.empty. cbn. repeat split. }
  split; [reflexivity|]. split; [reflexivity|]. split.
  { cbn. now destruct (PendingChanges.workout saved). }
  split; [|split; [|reflexivity]].
  - cbn. destruct (WorkoutPatch.name (patch_of (PendingChanges.workout saved)));
      [reflexivity|]. now destruct (WorkoutSummary.name data).
  - cbn. destruct (WorkoutPatch.intensity_level (patch_of (PendingChanges.workout saved)));
      [reflexivity|]. now destruct (WorkoutSummary.intensity_level data).
Qed.

(** The sample page coming back with its blob: the title of the blob is
    displayed and pre-filled. *)
Lemma restoration_overlays_header_witness :
  tempWorkoutName Sample.restored = "Heavy push day"
  /\ option_map WorkoutSummary.name (workout Sample.restored) = Some (Some "Heavy push day").
Proof.
  destruct (restoration_overlays_header Sample.accepting 1800 Sample.returning
              _ _ _ Sample.push_day eq_refl eq_refl)
    as (_ & _ & _ & _ & Hn & _).
  split; [exact Hn|vm_compute; reflexivity].
Defined.

(** ** After the operations of a save *)



(** X28.  The handler of the page for a selection writes the ledger and
    the browser only, and closing the picker touches neither: the state
    reached is the same whether the picker is closed after the handler has
    completed or, as the picker does without awaiting it, before; the
    picker is then closed, back in add mode, with no exercise to replace. *)
Theorem picker_close_commutes (remote : Remote) (now : Z) (ids : list number) (st : State) :
  let st' := handleAddSelectedExercises remote now ids st in
  st' = setBrowser (browser st') (setPendingChanges (pendingChanges st') st)
  /\ closeExerciseSelection st'
     = setBrowser (browser st') (setPendingChanges (pendingChanges st')
                                                   (closeExerciseSelection st))
  /\ pendingChanges (closeExerciseSelection st) = pendingChanges st
  /\ browser (closeExerciseSelection st) = browser st
  /\ showExerciseSelectionModal (closeExerciseSelection st') = false
  /\ is_replacing (closeExerciseSelection st') = None.
Proof.
  cbv zeta.
  assert (Hw : handleAddSelectedExercises remote now ids st
               = setBrowser (browser (handleAddSelectedExercises remote now ids st))
                   (setPendingChanges
                      (pendingChanges (handleAddSelectedExercises remote now ids st)) st)).
  { unfold handleAddSelectedExercises.
    destruct (workout st) eqn:Hwk; [|destruct st; reflexivity].
    destruct ids as [|x others]; [destruct st; reflexivity|].
    destruct (is_replacing st) eqn:Hr.
    - destruct others; [|destruct st; reflexivity].
      destruct (fetchExercise remote x (browser st)) as [[e|] b];
        destruct st; reflexivity.
    - destruct (fetchExercises remote (x :: others) (browser st)) as [[details|] b];
        destruct st; reflexivity. }
  split; [exact Hw|].
  split; [rewrite Hw at 1; destruct st; reflexivity|].
  split; [destruct st; reflexivity|].
  split; [destruct st; reflexivity|].
  split.
  - destruct (handleAddSelectedExercises remote now ids st); reflexivity.
  - destruct (handleAddSelectedExercises remote now ids st); reflexivity.
Qed.
